(** * Ubisys converters: cover calibration (configure_j1) and the
      input-action template compiler (configure_device_setup)

    A shallow embedding of [src/devices/ubisys.ts].

    - [JS]: the JavaScript values and operators the two converters use.
    - [Transport]: the calls made on the endpoint ([read], [write],
      [writeStructured], [command]) and the sleeps, recorded as a trace by a
      small state-and-exception monad.
    - [ConfigureJ1]: [ubisys.tz.configure_j1] ([convertSet], [convertGet]).
    - [DeviceSetup]: [ubisys.tz.configure_device_setup.convertSet] with its
      [templateTypes] registry and the template loop.
    - [DimmerSetup]: [ubisys.fz.dimmer_setup.convert].

    Calls to the logger are not part of the model. *)

From Stdlib Require Import ZArith QArith String List Lia Bool.
From stdpp Require Import base gmap strings list.

Open Scope Z_scope.

(* ===================================================================== *)
(** * JavaScript values *)
(* ===================================================================== *)

Module JS.

(** Numbers. A JavaScript number is an IEEE double: the finite ones are kept
    as the rational they stand for, in lowest terms, and [+], [*] and [/]
    round the exact result to the nearest double, ties to even ([round64]),
    as the standard prescribes. Negative zero is not distinguished from
    zero. *)
Inductive number : Type :=
| NaN
| Infinity (negative : bool)
| Fin (q : Q).

(** The values a JSON payload or an attribute read carries here: [null],
    booleans and numbers, and [undefined] for what is absent. Strings, arrays
    and nested objects are modelled where the code expects them (the
    template's [type], [inputs], the raw element arrays), not as values. *)
Inductive value : Type :=
| Undefined
| Null
| Boolean (b : bool)
| Number (n : number).

Definition of_Z (z : Z) : value := Number (Fin (inject_Z z)).

Definition ToNumber (v : value) : number :=
  match v with
  | Undefined => NaN
  | Null => Fin 0
  | Boolean true => Fin 1
  | Boolean false => Fin 0
  | Number n => n
  end.

Definition is_zero (q : Q) : bool := Qeq_bool q 0.
Definition is_neg (q : Q) : bool := Z.ltb (Qnum q) 0.

(** Truthiness, as tested by [if (v)], [v || d] and [c ? a : b]. *)
Definition ToBoolean (v : value) : bool :=
  match v with
  | Undefined | Null => false
  | Boolean b => b
  | Number NaN => false
  | Number (Infinity _) => true
  | Number (Fin q) => negb (is_zero q)
  end.

(** [a || b] *)
Definition or (a b : value) : value := if ToBoolean a then a else b.

(** [v !== undefined] *)
Definition is_defined (v : value) : bool :=
  match v with Undefined => false | _ => true end.

(** [v != null]: false exactly for [null] and [undefined]. *)
Definition not_nullish (v : value) : bool :=
  match v with Undefined | Null => false | _ => true end.

Definition number_eqb (a b : number) : bool :=
  match a, b with
  | Fin p, Fin q => Qeq_bool p q
  | Infinity s, Infinity t => Bool.eqb s t
  | _, _ => false
  end.

(** [a === b] *)
Definition strict_eq (a b : value) : bool :=
  match a, b with
  | Undefined, Undefined => true
  | Null, Null => true
  | Boolean x, Boolean y => Bool.eqb x y
  | Number x, Number y => number_eqb x y
  | _, _ => false
  end.

(** ** Arithmetic: [+], [*], [/], [<], [Math.max]

    With no strings among the values, [+] is numeric addition. *)

(** The integer nearest to [n / d], for [n] not negative; of two that are
    equally near, the even one. *)
Definition nearest_even (n : Z) (d : positive) : Z :=
  let q := n / Zpos d in
  let r := n mod Zpos d in
  match 2 * r ?= Zpos d with
  | Lt => q
  | Gt => q + 1
  | Eq => if Z.even q then q else q + 1
  end.

(** The double nearest to a rational. With [2 ^ e] the power of two at or
    below its magnitude, the result is a multiple [m * 2 ^ x] of the unit in
    the last place, [x = e - 52] and not below [-1074] (where the subnormal
    numbers take over), with [m] the nearest integer, ties to even; a result
    of [2 ^ 1024] or more is an infinity. *)
Definition round64 (q : Q) : number :=
  let q := Qred q in
  let n := Z.abs (Qnum q) in
  let d := Qden q in
  if n =? 0 then Fin 0 else
  let e0 := Z.log2 n - Z.log2 (Zpos d) in
  let e :=
    if (if 0 <=? e0 then Zpos d * 2 ^ e0 <=? n else Zpos d <=? n * 2 ^ (- e0))
    then e0 else e0 - 1 in
  let x := Z.max (e - 52) (-1074) in
  if 0 <? x then
    let m := nearest_even n (d * Z.to_pos (2 ^ x)) in
    if 2 ^ 1024 <=? m * 2 ^ x then Infinity (Qnum q <? 0)
    else Fin (inject_Z (Z.sgn (Qnum q) * m * 2 ^ x))
  else
    let m := nearest_even (n * 2 ^ (- x)) d in
    Fin (Qred (Z.sgn (Qnum q) * m # Z.to_pos (2 ^ (- x)))).

Definition number_add (a b : number) : number :=
  match a, b with
  | NaN, _ | _, NaN => NaN
  | Infinity s, Infinity t => if Bool.eqb s t then Infinity s else NaN
  | Infinity s, Fin _ | Fin _, Infinity s => Infinity s
  | Fin p, Fin q => round64 (p + q)
  end.

Definition number_mul (a b : number) : number :=
  match a, b with
  | NaN, _ | _, NaN => NaN
  | Infinity s, Infinity t => Infinity (xorb s t)
  | Infinity s, Fin q | Fin q, Infinity s =>
      if is_zero q then NaN else Infinity (xorb s (is_neg q))
  | Fin p, Fin q => round64 (p * q)
  end.

Definition number_div (a b : number) : number :=
  match a, b with
  | NaN, _ | _, NaN => NaN
  | Infinity _, Infinity _ => NaN
  | Infinity s, Fin q => Infinity (xorb s (is_neg q))
  | Fin _, Infinity _ => Fin 0
  | Fin p, Fin q =>
      if is_zero q then (if is_zero p then NaN else Infinity (is_neg p))
      else round64 (p / q)
  end.

Definition number_ltb (a b : number) : bool :=
  match a, b with
  | NaN, _ | _, NaN => false
  | Infinity s, Infinity t => s && negb t
  | Infinity s, Fin _ => s
  | Fin _, Infinity t => negb t
  | Fin p, Fin q => match Qcompare p q with Lt => true | _ => false end
  end.

Definition add (a b : value) : value := Number (number_add (ToNumber a) (ToNumber b)).
Definition mul (a b : value) : value := Number (number_mul (ToNumber a) (ToNumber b)).
Definition div (a b : value) : value := Number (number_div (ToNumber a) (ToNumber b)).
Definition lt (a b : value) : bool := number_ltb (ToNumber a) (ToNumber b).

Definition number_max (a b : number) : number :=
  match a, b with
  | NaN, _ | _, NaN => NaN
  | _, _ => if number_ltb a b then b else a
  end.

(** [Math.max(...xs)]; the maximum of no argument is [-Infinity]. *)
Definition Math_max (xs : list value) : value :=
  Number (fold_left (fun acc x => number_max acc (ToNumber x)) xs (Infinity true)).

(** ** Bit operators: [&], [|], [~], [>>] on the 32-bit integer of a value *)

Definition wrap32 (z : Z) : Z := (z + 2 ^ 31) mod 2 ^ 32 - 2 ^ 31.

Definition ToInt32 (v : value) : Z :=
  match ToNumber v with
  | NaN | Infinity _ => 0
  | Fin q => wrap32 (Z.quot (Qnum q) (Zpos (Qden q)))
  end.

Definition bit_and (a b : value) : value := of_Z (wrap32 (Z.land (ToInt32 a) (ToInt32 b))).
Definition bit_or (a b : value) : value := of_Z (wrap32 (Z.lor (ToInt32 a) (ToInt32 b))).
Definition bit_not (a : value) : value := of_Z (wrap32 (Z.lnot (ToInt32 a))).
Definition shr (a b : value) : value :=
  of_Z (wrap32 (Z.shiftr (ToInt32 a) (ToInt32 b mod 32))).

(** [xs[i]]: an index past the end reads [undefined]. *)
Definition index (xs : list value) (i : nat) : value := nth i xs Undefined.

End JS.

(** Number literals of the source are written as they are there. *)
Coercion JS.of_Z : Z >-> JS.value.

(** An array literal of values, as in [[input, 0x0d, endpoint, 0x06, 0x00, 0x02]]. *)
Notation "[| x ; .. ; y |]" :=
  (@cons JS.value x .. (@cons JS.value y (@nil JS.value)) ..)
  (at level 0, format "[| x ;  .. ;  y |]").

(** A JSON object used as a map from keys to values; [value[key]] of a key
    that is absent reads [undefined]. *)
Definition get (o : gmap string JS.value) (key : string) : JS.value :=
  default JS.Undefined (o !! key).

(* ===================================================================== *)
(** * The endpoint: transport calls, sleeps and what can go wrong *)
(* ===================================================================== *)

Module Transport.

(** [manufacturerOptions.ubisys], [manufacturerOptions.ubisysNull], or no
    third argument. *)
Inductive options : Type := NoOptions | Ubisys | UbisysNull.

(** [Zcl.DataType.DATA8] and [Zcl.DataType.OCTET_STR]. *)
Inductive elementType : Type := DATA8 | OCTET_STR.

(** The [elements] of an array attribute: the bytes of [inputConfigurations]
    or the rows of [inputActions]. *)
Inductive elements : Type :=
| Bytes (xs : list JS.value)
| Rows (xs : list (list JS.value)).

Inductive attribute_value : Type :=
| Plain (v : JS.value)
| Envelope (t : elementType) (els : elements).

(** One completed call. The attributes of a [Write] are the entries of the
    object literal, in source order; a [WriteStructured] names the attribute
    whose [ID] the code passes as [attrId] (its [dataType] is always
    [Zcl.DataType.ARRAY] and its [selector] empty). *)
Inductive event : Type :=
| Read (cluster : string) (attributes : list string) (o : options)
| Write (cluster : string) (attributes : list (string * attribute_value)) (o : options)
| WriteStructured (cluster : string) (attribute : string) (t : elementType)
    (els : elements) (o : options)
| Command (cluster : string) (command : string)
| Sleep (seconds : Z).

(** The device and the link, as far as the converters depend on them:
    - [windowCoveringMode]: what the device answers when that attribute is read;
    - [operationalStatus]: its successive answers to reads of that attribute;
    - [link]: [None] when no transport call fails, [Some k] when the first [k]
      calls succeed and the next one throws;
    - [trace]: the calls completed and the sleeps taken so far, oldest first. *)
Record world : Type := World {
  windowCoveringMode : JS.value;
  operationalStatus : list JS.value;
  link : option nat;
  trace : list event
}.

Inductive error : Type :=
| TransportError
| Error (message : string)
| TypeError (message : string).

(** How a run ends: it returns, it throws, or it is still polling when the
    recorded answers of the device are used up ([StillPolling]: the loop of
    the source goes on). *)
Inductive outcome (A : Type) : Type :=
| Returned (a : A)
| Thrown (e : error)
| StillPolling.
Arguments Returned {A} a.
Arguments Thrown {A} e.
Arguments StillPolling {A}.

Definition M (A : Type) : Type := world -> outcome A * world.

#[global] Instance M_ret : MRet M := fun A a w => (Returned a, w).
#[global] Instance M_bind : MBind M := fun A B f m w =>
  match m w with
  | (Returned a, w') => f a w'
  | (Thrown e, w') => (Thrown e, w')
  | (StillPolling, w') => (StillPolling, w')
  end.

Definition throw {A} (e : error) : M A := fun w => (Thrown e, w).
Definition still_polling {A} : M A := fun w => (StillPolling, w).

Definition record (ev : event) (w : world) : world :=
  World (windowCoveringMode w) (operationalStatus w) (link w) (trace w ++ [ev]).

(** A transport call: it throws when the link is used up, and is recorded
    when it completes. Nothing in the converters catches the exception. *)
Definition call (ev : event) : M unit := fun w =>
  match link w with
  | Some O => (Thrown TransportError, w)
  | Some (S k) =>
      (Returned tt, World (windowCoveringMode w) (operationalStatus w) (Some k) (trace w ++ [ev]))
  | None => (Returned tt, record ev w)
  end.

(** [new Promise((resolve) => setTimeout(resolve, s * 1000))] *)
Definition sleepSeconds (s : Z) : M unit := fun w => (Returned tt, record (Sleep s) w).

Definition write (cluster : string) (attributes : list (string * attribute_value))
    (o : options) : M unit :=
  call (Write cluster attributes o).

Definition writeStructured (cluster attribute : string) (t : elementType)
    (els : elements) (o : options) : M unit :=
  call (WriteStructured cluster attribute t els o).

Definition command (cluster name : string) : M unit := call (Command cluster name).

(** The object a read resolves to, as a function of the attribute name. A
    read that asks for [operationalStatus] takes the device's next answer. *)
Definition response (w : world) (attribute : string) : JS.value :=
  if String.eqb attribute "windowCoveringMode" then windowCoveringMode w
  else if String.eqb attribute "operationalStatus" then hd JS.Undefined (operationalStatus w)
  else JS.Undefined.

Definition asks (attribute : string) (attributes : list string) : bool :=
  existsb (String.eqb attribute) attributes.

Definition read (cluster : string) (attributes : list string) (o : options)
    : M (string -> JS.value) := fun w =>
  match call (Read cluster attributes o) w with
  | (Returned _, w') =>
      (Returned (response w),
       if asks "operationalStatus" attributes
       then World (windowCoveringMode w') (tl (operationalStatus w')) (link w') (trace w')
       else w')
  | (Thrown e, w') => (Thrown e, w')
  | (StillPolling, w') => (StillPolling, w')
  end.

(** A run from a device and a link, with an empty trace. *)
Definition start (mode : JS.value) (statuses : list JS.value) (l : option nat) : world :=
  World mode statuses l [].

End Transport.
Export Transport.

(* ===================================================================== *)
(** * ubisys.tz.configure_j1 *)
(* ===================================================================== *)

(** Every call of this converter goes to [entity], the endpoint of the
    cover. *)

Module ConfigureJ1.

Definition cluster : string := "closuresWindowCovering".

(** What [String.prototype.toLowerCase] turns into when [+] concatenates it
    to a string: the source text of a native function, as Node prints it. *)
Definition toLowerCase_function_text : string :=
  "function toLowerCase() { [native code] }".

(** [s.substring(n)] *)
Definition substring_from (n : nat) (s : string) : string :=
  String.substring n (String.length s - n) s.

(** The key [writeAttrFromJson] looks up in the payload.

    [if (!jsonAttr) jsonAttr = attr;] then, for a key that starts with
    [ubisys], [jsonAttr.substring(6, 1).toLowerCase + jsonAttr.substring(7)]:
    [toLowerCase] is read, not called, so the left operand is the function
    itself and the sum is its source text followed by the key from its
    eighth character on. *)
Definition jsonKey (attr : string) (jsonAttr : option string) : string :=
  let jsonAttr :=
    match jsonAttr with
    | Some j => if String.eqb j EmptyString then attr else j
    | None => attr
    end in
  if String.prefix "ubisys" jsonAttr
  then (toLowerCase_function_text ++ substring_from 7 jsonAttr)%string
  else jsonAttr.

Section convertSet.

(** The payload of the request, [value]. *)
Variable value : gmap string JS.value.

(** [do { sleep 2; read operationalStatus } while (operationalStatus !== 0)]:
    one round per answer the device still has. When the recorded answers are
    used up the loop goes on: on a link that carries no further call the
    next round sleeps and its read throws; otherwise the run is still
    polling, and its trace ends with the last round that was answered. *)
Fixpoint poll (answers : nat) : M unit :=
  match answers with
  | O => fun w =>
      match link w with
      | Some O =>
          (sleepSeconds 2;;
           read cluster ["operationalStatus"%string] NoOptions;;
           mret tt) w
      | _ => still_polling w
      end
  | S answers' =>
      sleepSeconds 2;;
      response ← read cluster ["operationalStatus"%string] NoOptions;
      let operationalStatus := response "operationalStatus"%string in
      if negb (JS.strict_eq operationalStatus 0) then poll answers' else mret tt
  end.

Definition waitUntilStopped : M unit :=
  (fun w => poll (length (operationalStatus w)) w);;
  sleepSeconds 2.

(** [writeAttrFromJson(attr, jsonAttr, converterFunc, delaySecondsAfter)].
    The function has no [return]: it resolves to [undefined]. *)
Definition writeAttrFromJson (attr : string) (jsonAttr : option string)
    (converterFunc : option (JS.value -> JS.value)) (delaySecondsAfter : option Z)
    : M JS.value :=
  let jsonAttr := jsonKey attr jsonAttr in
  if JS.is_defined (get value jsonAttr) then
    let attrValue := get value jsonAttr in
    let attrValue :=
      match converterFunc with
      | Some f => f attrValue
      | None => attrValue
      end in
    write cluster [(attr, Plain attrValue)] Ubisys;;
    match delaySecondsAfter with
    | Some s => if Z.eqb s 0 then mret tt else sleepSeconds s
    | None => mret tt
    end;;
    mret JS.Undefined
  else mret JS.Undefined.

Definition stepsPerSecond : JS.value := JS.or (get value "steps_per_second") 50.
Definition hasCalibrate : bool := JS.not_nullish (get value "calibrate").
Definition modeCalibrationBitMask : JS.value := 0x02.

(** [convertGet]: the three grouped reads, whose answers are only logged. *)
Definition convertGet : M unit :=
  read cluster
    ["windowCoveringType"; "physicalClosedLimitLiftCm"; "physicalClosedLimitTiltDdegree";
     "installedOpenLimitLiftCm"; "installedClosedLimitLiftCm";
     "installedOpenLimitTiltDdegree"; "installedClosedLimitTiltDdegree"]%string
    NoOptions;;
  read cluster
    ["configStatus"; "windowCoveringMode"; "currentPositionLiftPercentage";
     "currentPositionLiftCm"; "currentPositionTiltPercentage";
     "currentPositionTiltDdegree"; "operationalStatus"]%string
    NoOptions;;
  read cluster
    ["ubisysTurnaroundGuardTime"; "ubisysLiftToTiltTransitionSteps"; "ubisysTotalSteps";
     "ubisysLiftToTiltTransitionSteps2"; "ubisysTotalSteps2"; "ubisysAdditionalSteps";
     "ubisysInactivePowerThreshold"; "ubisysStartupSteps"]%string
    Ubisys;;
  mret tt.

(** The phases of [convertSet], in source order. *)

(** cancel any running calibration *)
Definition settle (mode : JS.value) : M unit :=
  if JS.ToBoolean (JS.bit_and mode modeCalibrationBitMask) then
    write cluster
      [("windowCoveringMode"%string,
        Plain (JS.bit_and mode (JS.bit_not modeCalibrationBitMask)))] NoOptions;;
    sleepSeconds 2
  else mret tt.

(** delay a bit if reconfiguring basic configuration attributes; the mode in
    use afterwards *)
Definition baseConfig (mode : JS.value) : M JS.value :=
  writeAttrFromJson "windowCoveringType" None None (Some 2);;
  writeAttrFromJson "configStatus" None None (Some 2);;
  written ← writeAttrFromJson "windowCoveringMode" None None (Some 2);
  mret (if JS.ToBoolean written then get value "windowCoveringMode" else mode).

Definition resetAttributes : list (string * attribute_value) :=
  [("installedOpenLimitLiftCm", Plain 0);
   ("installedClosedLimitLiftCm", Plain 240);
   ("installedOpenLimitTiltDdegree", Plain 0);
   ("installedClosedLimitTiltDdegree", Plain 900);
   ("ubisysLiftToTiltTransitionSteps", Plain 0xffff);
   ("ubisysTotalSteps", Plain 0xffff);
   ("ubisysLiftToTiltTransitionSteps2", Plain 0xffff);
   ("ubisysTotalSteps2", Plain 0xffff)]%string.

Definition calibrate (mode : JS.value) : M unit :=
  (* first of all, move to top position to not confuse calibration later *)
  command cluster "upOpen";;
  waitUntilStopped;;
  (* reset attributes *)
  write cluster resetAttributes Ubisys;;
  (* enable calibration mode *)
  sleepSeconds 2;;
  write cluster
    [("windowCoveringMode"%string, Plain (JS.bit_or mode modeCalibrationBitMask))]
    NoOptions;;
  sleepSeconds 2;;
  (* move down a bit and back up to detect upper limit *)
  command cluster "downClose";;
  sleepSeconds 5;;
  command cluster "stop";;
  sleepSeconds 2;;
  command cluster "upOpen";;
  waitUntilStopped;;
  (* moving down to count steps from open to closed *)
  command cluster "downClose";;
  waitUntilStopped;;
  (* moving up to count steps from closed to open *)
  command cluster "upOpen";;
  waitUntilStopped.

(** now write any attribute values present in JSON *)
Definition writeAttributes : M unit :=
  writeAttrFromJson "installedOpenLimitLiftCm" None None None;;
  writeAttrFromJson "installedClosedLimitLiftCm" None None None;;
  writeAttrFromJson "installedOpenLimitTiltDdegree" None None None;;
  writeAttrFromJson "installedClosedLimitTiltDdegree" None None None;;
  writeAttrFromJson "ubisysTurnaroundGuardTime" None None None;;
  writeAttrFromJson "ubisysLiftToTiltTransitionSteps" None None None;;
  writeAttrFromJson "ubisysTotalSteps" None None None;;
  writeAttrFromJson "ubisysLiftToTiltTransitionSteps2" None None None;;
  writeAttrFromJson "ubisysTotalSteps2" None None None;;
  writeAttrFromJson "ubisysAdditionalSteps" None None None;;
  writeAttrFromJson "ubisysInactivePowerThreshold" None None None;;
  writeAttrFromJson "ubisysStartupSteps" None None None;;
  mret tt.

(** some convenience functions to not have to calculate *)
Definition writeConvenience : M unit :=
  writeAttrFromJson "ubisysTotalSteps" (Some "open_to_closed_s"%string)
    (Some (fun s => JS.mul s stepsPerSecond)) None;;
  writeAttrFromJson "ubisysTotalSteps2" (Some "closed_to_open_s"%string)
    (Some (fun s => JS.mul s stepsPerSecond)) None;;
  writeAttrFromJson "ubisysLiftToTiltTransitionSteps" (Some "lift_to_tilt_transition_ms"%string)
    (Some (fun s => JS.div (JS.mul s stepsPerSecond) 1000)) None;;
  writeAttrFromJson "ubisysLiftToTiltTransitionSteps2" (Some "lift_to_tilt_transition_ms"%string)
    (Some (fun s => JS.div (JS.mul s stepsPerSecond) 1000)) None;;
  mret tt.

(** disable calibration mode again, then re-read and dump all relevant
    attributes *)
Definition finalize (mode : JS.value) : M unit :=
  sleepSeconds 2;;
  write cluster
    [("windowCoveringMode"%string,
      Plain (JS.bit_and mode (JS.bit_not modeCalibrationBitMask)))] NoOptions;;
  sleepSeconds 2;;
  convertGet.

Definition convertSet : M unit :=
  response ← read cluster ["windowCoveringMode"%string] NoOptions;
  let mode := response "windowCoveringMode"%string in
  settle mode;;
  mode ← baseConfig mode;
  (if hasCalibrate then calibrate mode else mret tt);;
  writeAttributes;;
  writeConvenience;;
  (if hasCalibrate then finalize mode else mret tt).

End convertSet.

(** The run of one request against a device and a link: how it ends and the
    trace it leaves. *)
Definition run (value : gmap string JS.value) (mode : JS.value)
    (statuses : list JS.value) (l : option nat) : outcome unit * list event :=
  let (o, w) := convertSet value (start mode statuses l) in (o, trace w).

End ConfigureJ1.

(** A payload written as its entries, as in [{calibrate: true, ...}]. *)
Definition payload (entries : list (string * JS.value)) : gmap string JS.value :=
  list_to_map entries.

(* ===================================================================== *)
(** * ubisys.tz.configure_device_setup *)
(* ===================================================================== *)

(** Every call of this converter goes to the device-management endpoint,
    [meta.device.getEndpoint(232)]; the cluster is taken to define both
    attributes, as the [assert] at the top of [convertSet] demands. *)

Module DeviceSetup.

Definition cluster : string := "manuSpecificUbisysDeviceSetup".

(** One element of [input_action_templates]. A field that the author left
    out is [undefined]; [type] left out behaves as the string "undefined". *)
Record template : Type := Template {
  type : string;
  input : JS.value;
  inputs : option (list JS.value);
  endpoint : JS.value;
  rate : JS.value;
  no_onoff : JS.value;
  no_onoff_up : JS.value;
  no_onoff_down : JS.value;
  group_id : JS.value;
  group_id_2 : JS.value;
  scene_id : JS.value;
  scene_id_2 : JS.value
}.

(** A template with only its [type]. *)
Definition of_type (t : string) : template :=
  Template t JS.Undefined None JS.Undefined JS.Undefined JS.Undefined JS.Undefined
    JS.Undefined JS.Undefined JS.Undefined JS.Undefined JS.Undefined.

(** An entry of [templateTypes]. The flags [doubleInputs] and [scene] of the
    source tell three shapes apart, each with its own calling convention:
    - neither flag: [getInputActions(input, endpoint, template)];
    - [scene: true]: [getInputActions(input, endpoint, groupId, sceneId)] and
      [getInputActions2] likewise;
    - [doubleInputs: true]: [getInputActions(inputs, endpoint, template)]. *)
Inductive templateType : Type :=
| SingleInput (cover : bool)
    (getInputActions : JS.value -> JS.value -> template -> list (list JS.value))
| Scene
    (getInputActions getInputActions2 :
       JS.value -> JS.value -> JS.value -> JS.value -> list (list JS.value))
| DoubleInputs (cover : bool)
    (getInputActions : list JS.value -> JS.value -> template -> list (list JS.value)).

Definition cover (t : templateType) : bool :=
  match t with
  | SingleInput c _ | DoubleInputs c _ => c
  | Scene _ _ => false
  end.

Definition doubleInputs (t : templateType) : bool :=
  match t with DoubleInputs _ _ => true | _ => false end.

Definition scene (t : templateType) : bool :=
  match t with Scene _ _ => true | _ => false end.

(** [template.no_onoff || template.no_onoff_up ? 0x01 : 0x05] and its mirror *)
Definition moveUpCmd (t : template) : JS.value :=
  if JS.ToBoolean (JS.or (no_onoff t) (no_onoff_up t)) then 0x01 else 0x05.
Definition moveDownCmd (t : template) : JS.value :=
  if JS.ToBoolean (JS.or (no_onoff t) (no_onoff_down t)) then 0x01 else 0x05.
Definition moveRate (t : template) : JS.value := JS.or (rate t) 50.

Definition toggle : templateType :=
  SingleInput false (fun input endpoint _ =>
    [ [|input; 0x0d; endpoint; 0x06; 0x00; 0x02|] ]).

Definition toggle_switch : templateType :=
  SingleInput false (fun input endpoint _ =>
    [ [|input; 0x0d; endpoint; 0x06; 0x00; 0x02|];
      [|input; 0x03; endpoint; 0x06; 0x00; 0x02|] ]).

Definition on_off_switch : templateType :=
  SingleInput false (fun input endpoint _ =>
    [ [|input; 0x0d; endpoint; 0x06; 0x00; 0x01|];
      [|input; 0x03; endpoint; 0x06; 0x00; 0x00|] ]).

Definition on : templateType :=
  SingleInput false (fun input endpoint _ =>
    [ [|input; 0x0d; endpoint; 0x06; 0x00; 0x01|] ]).

Definition off : templateType :=
  SingleInput false (fun input endpoint _ =>
    [ [|input; 0x0d; endpoint; 0x06; 0x00; 0x00|] ]).

Definition dimmer_single : templateType :=
  SingleInput false (fun input endpoint template =>
    [ [|input; 0x07; endpoint; 0x06; 0x00; 0x02|];
      [|input; 0x86; endpoint; 0x08; 0x00; moveUpCmd template; 0x00; moveRate template|];
      [|input; 0xc6; endpoint; 0x08; 0x00; moveDownCmd template; 0x01; moveRate template|];
      [|input; 0x0b; endpoint; 0x08; 0x00; 0x03|] ]).

Definition dimmer_double : templateType :=
  DoubleInputs false (fun inputs endpoint template =>
    [ [|JS.index inputs 0; 0x07; endpoint; 0x06; 0x00; 0x01|];
      [|JS.index inputs 0; 0x06; endpoint; 0x08; 0x00; moveUpCmd template; 0x00; moveRate template|];
      [|JS.index inputs 0; 0x0b; endpoint; 0x08; 0x00; 0x03|];
      [|JS.index inputs 1; 0x07; endpoint; 0x06; 0x00; 0x00|];
      [|JS.index inputs 1; 0x06; endpoint; 0x08; 0x00; moveDownCmd template; 0x01; moveRate template|];
      [|JS.index inputs 1; 0x0b; endpoint; 0x08; 0x00; 0x03|] ]).

Definition cover_ : templateType :=
  DoubleInputs true (fun inputs endpoint _ =>
    [ [|JS.index inputs 0; 0x0d; endpoint; 0x02; 0x01; 0x00|];
      [|JS.index inputs 0; 0x07; endpoint; 0x02; 0x01; 0x02|];
      [|JS.index inputs 1; 0x0d; endpoint; 0x02; 0x01; 0x01|];
      [|JS.index inputs 1; 0x07; endpoint; 0x02; 0x01; 0x02|] ]).

Definition cover_switch : templateType :=
  DoubleInputs true (fun inputs endpoint _ =>
    [ [|JS.index inputs 0; 0x0d; endpoint; 0x02; 0x01; 0x00|];
      [|JS.index inputs 0; 0x03; endpoint; 0x02; 0x01; 0x02|];
      [|JS.index inputs 1; 0x0d; endpoint; 0x02; 0x01; 0x01|];
      [|JS.index inputs 1; 0x03; endpoint; 0x02; 0x01; 0x02|] ]).

Definition cover_up : templateType :=
  SingleInput true (fun input endpoint _ =>
    [ [|input; 0x0d; endpoint; 0x02; 0x01; 0x00|] ]).

Definition cover_down : templateType :=
  SingleInput true (fun input endpoint _ =>
    [ [|input; 0x0d; endpoint; 0x02; 0x01; 0x01|] ]).

Definition scene_ : templateType :=
  Scene
    (fun input endpoint groupId sceneId =>
       [ [|input; 0x07; endpoint; 0x05; 0x00; 0x05;
           JS.bit_and groupId 0xff; JS.shr groupId 8; sceneId|] ])
    (fun input endpoint groupId sceneId =>
       [ [|input; 0x06; endpoint; 0x05; 0x00; 0x05;
           JS.bit_and groupId 0xff; JS.shr groupId 8; sceneId|] ]).

Definition scene_switch : templateType :=
  Scene
    (fun input endpoint groupId sceneId =>
       [ [|input; 0x0d; endpoint; 0x05; 0x00; 0x05;
           JS.bit_and groupId 0xff; JS.shr groupId 8; sceneId|] ])
    (fun input endpoint groupId sceneId =>
       [ [|input; 0x03; endpoint; 0x05; 0x00; 0x05;
           JS.bit_and groupId 0xff; JS.shr groupId 8; sceneId|] ]).

(** The object [templateTypes], in the order of its keys. *)
Definition templateTypes : list (string * templateType) :=
  [("toggle", toggle); ("toggle_switch", toggle_switch);
   ("on_off_switch", on_off_switch); ("on", on); ("off", off);
   ("dimmer_single", dimmer_single); ("dimmer_double", dimmer_double);
   ("cover", cover_); ("cover_switch", cover_switch);
   ("cover_up", cover_up); ("cover_down", cover_down);
   ("scene", scene_); ("scene_switch", scene_switch)]%string.

Fixpoint lookup_key {A} (key : string) (entries : list (string * A)) : option A :=
  match entries with
  | [] => None
  | (k, a) :: rest => if String.eqb key k then Some a else lookup_key key rest
  end.

(** [Object.keys(o)] inside a template literal: the keys joined by commas. *)
Fixpoint join_keys {A} (entries : list (string * A)) : string :=
  match entries with
  | [] => EmptyString
  | [(k, _)] => k
  | (k, _) :: rest => (k ++ "," ++ join_keys rest)%string
  end.

(** The names every object literal inherits from [Object.prototype]:
    [templateTypes[name]] finds something for them, a thing that is truthy
    and has no [getInputActions]. *)
Definition inherited_names : list string :=
  ["constructor"; "__defineGetter__"; "__defineSetter__"; "hasOwnProperty";
   "__lookupGetter__"; "__lookupSetter__"; "isPrototypeOf";
   "propertyIsEnumerable"; "toString"; "valueOf"; "__proto__";
   "toLocaleString"]%string.

(** The model of the device, [meta.mapped.model]; [meta.mapped] is an array
    when the target is a group. *)
Inductive mapped : Type :=
| Group
| Device (model : string).

(** [{S1: 2, S2: 3, D1: 2, J1: 2, C4: 1}[model]] for the models of the
    definitions below in the source file. *)
Definition firstEndpoint (model : string) : JS.value :=
  default JS.Undefined
    (lookup_key model
       [("S1", 2 : JS.value); ("S2", 3 : JS.value); ("D1", 2 : JS.value);
        ("J1", 2 : JS.value); ("C4", 1 : JS.value)]%string).

(** The variables of the template loop. *)
Record cursor : Type := Cursor {
  cur_input : JS.value;
  cur_endpoint : JS.value;
  cur_groupId : JS.value;
  resultingInputActions : list (list JS.value)
}.

Definition result (A : Type) : Type := (error + A)%type.

(** The variable [input] at the end of a round: a number, or the array of a
    double-input template. *)
Inductive input_var : Type :=
| One (input : JS.value)
| Many (inputs : list JS.value).

(** What the log line of a round reports, [Using input(s) ${input} and
    endpoint ${endpoint}], together with the round's [inputActions]. *)
Record used : Type := Used {
  used_input : input_var;
  used_endpoint : JS.value;
  inputActions : list (list JS.value)
}.

(** One round of [for (const template of templates)], up to the point where
    [inputActions] is known: what the round used and the group id it leaves. *)
Definition expand (model : string) (c : cursor) (t : template) : result (used * JS.value) :=
  match lookup_key (type t) templateTypes with
  | None =>
      if existsb (String.eqb (type t)) inherited_names
      then inl (TypeError "templateType.getInputActions is not a function")
      else inl (Error ("input_action_templates: Template type '" ++ type t ++
                       "' is not valid (valid types: " ++ join_keys templateTypes ++ ")"))
  | Some templateType =>
      let input := if JS.is_defined (input t) then input t else cur_input c in
      let endpoint := if JS.is_defined (endpoint t) then endpoint t else cur_endpoint c in
      (* C4 cover endpoints only start at 5 *)
      let endpoint :=
        if cover templateType && String.eqb model "C4" && JS.lt endpoint 5
        then JS.add endpoint 4 else endpoint in
      match templateType with
      | SingleInput _ getInputActions =>
          (* single input, no scene(s) *)
          inr (Used (One input) endpoint (getInputActions input endpoint t), cur_groupId c)
      | Scene getInputActions getInputActions2 =>
          (* scene(s) (always single input) *)
          if negb (JS.is_defined (scene_id t)) then
            inl (Error ("input_action_templates: Need an attribute 'scene_id' for '" ++
                        type t ++ "'"))
          else
            let groupId := if JS.is_defined (group_id t) then group_id t else cur_groupId c in
            let inputActions := getInputActions input endpoint groupId (scene_id t) in
            if JS.is_defined (scene_id_2 t) then
              let groupId := if JS.is_defined (group_id_2 t) then group_id_2 t else groupId in
              inr (Used (One input) endpoint
                     (inputActions ++ getInputActions2 input endpoint groupId (scene_id_2 t)),
                   groupId)
            else inr (Used (One input) endpoint inputActions, groupId)
      | DoubleInputs _ getInputActions =>
          (* double inputs *)
          let input :=
            match inputs t with
            | Some given => given
            | None => [|input; JS.add input 1|]
            end in
          inr (Used (Many input) endpoint (getInputActions input endpoint t), cur_groupId c)
      end
  end.

(** [(Array.isArray(input) ? Math.max(...input) : input)] *)
Definition highest (i : input_var) : JS.value :=
  match i with
  | Many inputs => JS.Math_max inputs
  | One input => input
  end.

(** The end of the round: the actions are appended and the cursor moves on,
    [input = (...) + 1; endpoint += 1;]. *)
Definition advance (c : cursor) (u : used) (groupId : JS.value) : cursor :=
  Cursor
    (JS.add (highest (used_input u)) 1)
    (JS.add (used_endpoint u) 1)
    groupId
    (resultingInputActions c ++ inputActions u).

Definition step (model : string) (c : cursor) (t : template) : result cursor :=
  match expand model c t with
  | inl e => inl e
  | inr (u, groupId) => inr (advance c u groupId)
  end.

Fixpoint loop (model : string) (c : cursor) (templates : list template) : result cursor :=
  match templates with
  | [] => inr c
  | t :: rest =>
      match step model c t with
      | inl e => inl e
      | inr c' => loop model c' rest
      end
  end.

(** [let input = 0; let endpoint = {...}[model]; let groupId = 0;
     let resultingInputActions = [];] *)
Definition initial (model : string) : cursor :=
  Cursor 0 (firstEndpoint model) 0 [].

(** From [// first input] to the end of the loop. *)
Definition compile (m : mapped) (templates : list template) : result (list (list JS.value)) :=
  match m with
  | Group => inl (Error "Not supported for groups")
  | Device model =>
      match loop model (initial model) templates with
      | inl e => inl e
      | inr c => inr (resultingInputActions c)
      end
  end.

(** [value.input_action_templates]: an array of templates or a single one. *)
Inductive templates_arg : Type :=
| OneTemplate (t : template)
| Templates (ts : list template).

(** [Array.isArray(x) ? x : [x]] *)
Definition as_array (a : templates_arg) : list template :=
  match a with
  | OneTemplate t => [t]
  | Templates ts => ts
  end.

(** The payload of the request; a key that is absent or [null] is [None]. *)
Record request : Type := Request {
  input_configurations : option (list JS.value);
  input_actions : option (list (list JS.value));
  input_action_templates : option templates_arg
}.

Section convertSet.

(** [useWriteStruct]: whether the firmware's [softwareBuildID] is a valid
    version at or above 1.9.0. *)
Variable useWriteStruct : bool.
Variable meta_mapped : mapped.
Variable value : request.

(** The write of an array attribute, structured or not. *)
Definition writeArray (attribute : string) (t : elementType) (els : elements) : M unit :=
  if useWriteStruct
  then writeStructured cluster attribute t els UbisysNull
  else write cluster [(attribute, Envelope t els)] UbisysNull.

Definition convertGet : M unit :=
  read cluster ["inputConfigurations"%string] UbisysNull;;
  read cluster ["inputActions"%string] UbisysNull;;
  mret tt.

Definition convertSet : M unit :=
  match input_configurations value with
  | Some configurations => writeArray "inputConfigurations" DATA8 (Bytes configurations)
  | None => mret tt
  end;;
  match input_actions value with
  | Some actions => writeArray "inputActions" OCTET_STR (Rows actions)
  | None => mret tt
  end;;
  match input_action_templates value with
  | Some templates =>
      match compile meta_mapped (as_array templates) with
      | inl e => throw e
      | inr resultingInputActions => writeArray "inputActions" OCTET_STR (Rows resultingInputActions)
      end
  | None => mret tt
  end;;
  (* re-read effective settings and dump them to the log *)
  convertGet.

End convertSet.

(** The run of one request on a link that loses no call unless [l] says so. *)
Definition run (useWriteStruct : bool) (m : mapped) (value : request) (l : option nat)
    : outcome unit * list event :=
  let (o, w) := convertSet useWriteStruct m value (start JS.Undefined [] l) in (o, trace w).

End DeviceSetup.

(* ===================================================================== *)
(** * ubisys.fz.dimmer_setup *)
(* ===================================================================== *)

Module DimmerSetup.

(** [a >>> b]: the unsigned 32-bit integer of [a], shifted right. *)
Definition ushr (a b : JS.value) : JS.value :=
  JS.of_Z (Z.shiftr (JS.ToInt32 a mod 2 ^ 32) (JS.ToInt32 b mod 32)).

(** [msg.data], as far as the converter looks at it; an attribute that the
    message does not carry is [undefined]. *)
Record data : Type := Data {
  capabilities : JS.value;
  status : JS.value;
  mode : JS.value
}.

Record capabilities_flags : Type := CapabilitiesFlags {
  capabilities_forward_phase_control : bool;
  capabilities_reverse_phase_control : bool;
  capabilities_reactance_discriminator : bool;
  capabilities_configurable_curve : bool;
  capabilities_overload_detection : bool
}.

Record status_flags : Type := StatusFlags {
  status_forward_phase_control : bool;
  status_reverse_phase_control : bool;
  status_overload : bool;
  status_capacitive_load : bool;
  status_inductive_load : bool
}.

(** [{0: "automatic", 1: "forward", 2: "reverse"}] *)
Definition phaseControlValues : list (Z * string) :=
  [(0, "automatic"); (1, "forward"); (2, "reverse")]%string.

(** [utils.getFromLookup(value, lookup)], a helper of [lib/utils], which
    this file imports: for a number it returns [lookup[value]], and it
    throws when the table has no such key and no default is passed, as in
    the call below. [None] stands for the throw. *)
Fixpoint getFromLookup (value : JS.value) (lookup : list (Z * string)) : option string :=
  match lookup with
  | [] => None
  | (key, name) :: rest =>
      if JS.strict_eq value (JS.of_Z key) then Some name else getFromLookup value rest
  end.

(** How [convert] ends: it returns one of the three objects or nothing, or
    the lookup of the phase control throws. *)
Inductive published : Type :=
| PublishCapabilities (flags : capabilities_flags)
| PublishStatus (flags : status_flags)
| PublishMode (mode_phase_control : string)
| LookupThrows (phaseControl : JS.value)
| PublishNothing.

Definition convert (msg_data : data) : published :=
  if JS.is_defined (capabilities msg_data) then
    let capabilities := capabilities msg_data in
    let forwardPhaseControl := JS.bit_and capabilities 1 in
    let reversePhaseControl := ushr (JS.bit_and capabilities 2) 1 in
    let reactanceDiscriminator := ushr (JS.bit_and capabilities 0x20) 5 in
    let configurableCurve := ushr (JS.bit_and capabilities 0x40) 6 in
    let overloadDetection := ushr (JS.bit_and capabilities 0x80) 7 in
    PublishCapabilities
      (CapabilitiesFlags
         (JS.ToBoolean forwardPhaseControl)
         (JS.ToBoolean reversePhaseControl)
         (JS.ToBoolean reactanceDiscriminator)
         (JS.ToBoolean configurableCurve)
         (JS.ToBoolean overloadDetection))
  else if JS.is_defined (status msg_data) then
    let status := status msg_data in
    let forwardPhaseControl := JS.bit_and status 1 in
    let reversePhaseControl := ushr (JS.bit_and status 2) 1 in
    let overload := ushr (JS.bit_and status 8) 3 in
    let capacitiveLoad := ushr (JS.bit_and status 0x40) 6 in
    let inductiveLoad := ushr (JS.bit_and status 0x80) 7 in
    PublishStatus
      (StatusFlags
         (JS.ToBoolean forwardPhaseControl)
         (JS.ToBoolean reversePhaseControl)
         (JS.ToBoolean overload)
         (JS.ToBoolean capacitiveLoad)
         (JS.ToBoolean inductiveLoad))
  else if JS.is_defined (mode msg_data) then
    let mode := mode msg_data in
    let phaseControl := JS.bit_and mode 3 in
    match getFromLookup phaseControl phaseControlValues with
    | Some mode_phase_control => PublishMode mode_phase_control
    | None => LookupThrows phaseControl
    end
  else PublishNothing.

End DimmerSetup.

(* ===================================================================== *)
(** * Vocabulary of the statements *)
(* ===================================================================== *)

Import DeviceSetup.

(** The models the table of first endpoints knows. *)
Definition known_models : list string := ["S1"; "S2"; "D1"; "J1"; "C4"]%string.

(** A template the loop accepts: its type is in [templateTypes] and, for a
    scene type, it has a [scene_id]. *)
Definition accepted (t : template) : bool :=
  match lookup_key (type t) templateTypes with
  | None => false
  | Some (Scene _ _) => JS.is_defined (scene_id t)
  | Some _ => true
  end.

Definition is_scene_type (t : template) : Prop :=
  type t = "scene"%string \/ type t = "scene_switch"%string.

(** The endpoint a round starts from: the template's own, or the cursor's. *)
Definition resolved_endpoint (c : cursor) (t : template) : JS.value :=
  if JS.is_defined (endpoint t) then endpoint t else cur_endpoint c.

(** The input a round starts from: the template's own, or the cursor's. *)
Definition resolved_input (c : cursor) (t : template) : JS.value :=
  if JS.is_defined (input t) then input t else cur_input c.

(** A scene template with the given ids and nothing else. *)
Definition scene_template (ty : string) (group_id group_id_2 scene_id scene_id_2 : JS.value)
    : template :=
  Template ty JS.Undefined None JS.Undefined JS.Undefined JS.Undefined JS.Undefined
    JS.Undefined group_id group_id_2 scene_id scene_id_2.

(** A template that leaves the group id as it found it. *)
Definition keeps_group (t : template) : Prop :=
  is_scene_type t ->
  group_id t = JS.Undefined /\
  (scene_id_2 t = JS.Undefined \/ group_id_2 t = JS.Undefined).

(** A tuple that carries group [g] as low byte and high byte. *)
Definition encodes_group (g : JS.value) (tuple : list JS.value) : Prop :=
  JS.index tuple 6 = JS.bit_and g 0xff /\ JS.index tuple 7 = JS.shr g 8.

(** The event of writing an array attribute. *)
Definition array_event (useWriteStruct : bool) (attribute : string)
    (t : elementType) (els : elements) : event :=
  if useWriteStruct
  then WriteStructured DeviceSetup.cluster attribute t els UbisysNull
  else Write DeviceSetup.cluster [(attribute, Envelope t els)] UbisysNull.

(** The writes of the raw keys of a request, which come before the
    templates are looked at. *)
Definition raw_writes (useWriteStruct : bool) (value : request) : list event :=
  match input_configurations value with
  | Some configurations =>
      [array_event useWriteStruct "inputConfigurations" DATA8 (Bytes configurations)]
  | None => []
  end ++
  match input_actions value with
  | Some actions => [array_event useWriteStruct "inputActions" OCTET_STR (Rows actions)]
  | None => []
  end.

Definition setup_reads : list event :=
  [Read DeviceSetup.cluster ["inputConfigurations"%string] UbisysNull;
   Read DeviceSetup.cluster ["inputActions"%string] UbisysNull].

(** ** Calibration: what a trace shows *)

Definition is_command (ev : event) : bool :=
  match ev with Command _ _ => true | _ => false end.

(** A read that asks for [operationalStatus]. *)
Definition polls_status (ev : event) : bool :=
  match ev with Read _ attributes _ => asks "operationalStatus" attributes | _ => false end.

(** What a request without calibration may do: read the mode, write, sleep. *)
Definition quiet (ev : event) : Prop :=
  match ev with
  | Read _ attributes _ => attributes = ["windowCoveringMode"%string]
  | Write _ _ _ | Sleep _ => True
  | _ => False
  end.

(** The values written to one attribute, oldest first. *)
Definition writes_to (attribute : string) (tr : list event) : list attribute_value :=
  flat_map (fun ev =>
    match ev with
    | Write _ attributes _ =>
        flat_map (fun entry => if String.eqb (fst entry) attribute then [snd entry] else [])
          attributes
    | _ => []
    end) tr.

(** The calibration-mode bit, [0x02], of a written mode. *)
Definition calibration_bit (v : attribute_value) : bool :=
  match v with
  | Plain mode => Z.testbit (JS.ToInt32 mode) 1
  | Envelope _ _ => false
  end.

(** The events of the phases of a calibration request that returns, as
    lists: [polls] is how many times a wait read the status. *)

Definition sleep_events (delaySecondsAfter : option Z) : list event :=
  match delaySecondsAfter with
  | Some s => if Z.eqb s 0 then [] else [Sleep s]
  | None => []
  end.

Definition attr_events (value : gmap string JS.value) (attr : string)
    (jsonAttr : option string) (converterFunc : option (JS.value -> JS.value))
    (delaySecondsAfter : option Z) : list event :=
  let key := ConfigureJ1.jsonKey attr jsonAttr in
  if JS.is_defined (get value key) then
    Write ConfigureJ1.cluster
      [(attr, Plain match converterFunc with
                    | Some f => f (get value key)
                    | None => get value key
                    end)] Ubisys
    :: sleep_events delaySecondsAfter
  else [].

Definition mode_write (mode : JS.value) : event :=
  Write ConfigureJ1.cluster [("windowCoveringMode"%string, Plain mode)] NoOptions.

Definition settle_events (mode : JS.value) : list event :=
  if JS.ToBoolean (JS.bit_and mode ConfigureJ1.modeCalibrationBitMask)
  then [mode_write (JS.bit_and mode (JS.bit_not ConfigureJ1.modeCalibrationBitMask)); Sleep 2]
  else [].

Definition baseConfig_events (value : gmap string JS.value) : list event :=
  attr_events value "windowCoveringType" None None (Some 2) ++
  attr_events value "configStatus" None None (Some 2) ++
  attr_events value "windowCoveringMode" None None (Some 2).

Fixpoint polling (polls : nat) : list event :=
  match polls with
  | O => []
  | S n => Sleep 2 :: Read ConfigureJ1.cluster ["operationalStatus"%string] NoOptions :: polling n
  end.

Definition wait_events (polls : nat) : list event := polling polls ++ [Sleep 2].

Definition calibrate_events (mode : JS.value) (p1 p2 p3 p4 : nat) : list event :=
  Command ConfigureJ1.cluster "upOpen" :: wait_events p1 ++
  Write ConfigureJ1.cluster ConfigureJ1.resetAttributes Ubisys ::
  Sleep 2 ::
  mode_write (JS.bit_or mode ConfigureJ1.modeCalibrationBitMask) ::
  Sleep 2 ::
  Command ConfigureJ1.cluster "downClose" ::
  Sleep 5 ::
  Command ConfigureJ1.cluster "stop" ::
  Sleep 2 ::
  Command ConfigureJ1.cluster "upOpen" :: wait_events p2 ++
  Command ConfigureJ1.cluster "downClose" :: wait_events p3 ++
  Command ConfigureJ1.cluster "upOpen" :: wait_events p4.

Definition attribute_names : list string :=
  ["installedOpenLimitLiftCm"; "installedClosedLimitLiftCm";
   "installedOpenLimitTiltDdegree"; "installedClosedLimitTiltDdegree";
   "ubisysTurnaroundGuardTime"; "ubisysLiftToTiltTransitionSteps"; "ubisysTotalSteps";
   "ubisysLiftToTiltTransitionSteps2"; "ubisysTotalSteps2"; "ubisysAdditionalSteps";
   "ubisysInactivePowerThreshold"; "ubisysStartupSteps"]%string.

Definition writeAttributes_events (value : gmap string JS.value) : list event :=
  flat_map (fun attr => attr_events value attr None None None) attribute_names.

Definition writeConvenience_events (value : gmap string JS.value) : list event :=
  attr_events value "ubisysTotalSteps" (Some "open_to_closed_s"%string)
    (Some (fun s => JS.mul s (ConfigureJ1.stepsPerSecond value))) None ++
  attr_events value "ubisysTotalSteps2" (Some "closed_to_open_s"%string)
    (Some (fun s => JS.mul s (ConfigureJ1.stepsPerSecond value))) None ++
  attr_events value "ubisysLiftToTiltTransitionSteps"
    (Some "lift_to_tilt_transition_ms"%string)
    (Some (fun s => JS.div (JS.mul s (ConfigureJ1.stepsPerSecond value)) 1000)) None ++
  attr_events value "ubisysLiftToTiltTransitionSteps2"
    (Some "lift_to_tilt_transition_ms"%string)
    (Some (fun s => JS.div (JS.mul s (ConfigureJ1.stepsPerSecond value)) 1000)) None.

Definition convertGet_events : list event :=
  [Read ConfigureJ1.cluster
     ["windowCoveringType"; "physicalClosedLimitLiftCm"; "physicalClosedLimitTiltDdegree";
      "installedOpenLimitLiftCm"; "installedClosedLimitLiftCm";
      "installedOpenLimitTiltDdegree"; "installedClosedLimitTiltDdegree"]%string NoOptions;
   Read ConfigureJ1.cluster
     ["configStatus"; "windowCoveringMode"; "currentPositionLiftPercentage";
      "currentPositionLiftCm"; "currentPositionTiltPercentage";
      "currentPositionTiltDdegree"; "operationalStatus"]%string NoOptions;
   Read ConfigureJ1.cluster
     ["ubisysTurnaroundGuardTime"; "ubisysLiftToTiltTransitionSteps"; "ubisysTotalSteps";
      "ubisysLiftToTiltTransitionSteps2"; "ubisysTotalSteps2"; "ubisysAdditionalSteps";
      "ubisysInactivePowerThreshold"; "ubisysStartupSteps"]%string Ubisys].

Definition finalize_events (mode : JS.value) : list event :=
  Sleep 2 ::
  mode_write (JS.bit_and mode (JS.bit_not ConfigureJ1.modeCalibrationBitMask)) ::
  Sleep 2 :: convertGet_events.

(** The whole request, for the mode the device reported at the start. *)
Definition session_events (value : gmap string JS.value) (mode : JS.value)
    (p1 p2 p3 p4 : nat) : list event :=
  Read ConfigureJ1.cluster ["windowCoveringMode"%string] NoOptions ::
  settle_events mode ++
  baseConfig_events value ++
  (if ConfigureJ1.hasCalibrate value then calibrate_events mode p1 p2 p3 p4 else []) ++
  writeAttributes_events value ++
  writeConvenience_events value ++
  (if ConfigureJ1.hasCalibrate value then finalize_events mode else []).

(** An answer to a read of [operationalStatus]: not moving, or moving. *)
Definition stopped (status : JS.value) : Prop := JS.strict_eq status 0 = true.
Definition moving (status : JS.value) : Prop := JS.strict_eq status 0 = false.

(** ** Reasoning about runs

    [returns m Q]: when [m] returns [a], the events it added satisfy [Q a].
    [always P m]: however [m] ends, every event it added satisfies [P]. *)

Definition returns {A} (m : M A) (Q : A -> list event -> Prop) : Prop :=
  forall w a w', m w = (Returned a, w') ->
    exists evs, trace w' = trace w ++ evs /\ Q a evs.

Definition always (P : event -> Prop) {A} (m : M A) : Prop :=
  forall w o w', m w = (o, w') ->
    exists evs, trace w' = trace w ++ evs /\ Forall P evs.

(** ** More of what a calibration trace shows *)

(** The attributes that [convertGet] asks for, in its three reads. *)
Definition read_back_attributes : list string :=
  flat_map (fun ev => match ev with Read _ attributes _ => attributes | _ => [] end)
    convertGet_events.

(** A write whose attributes are all among those read back. *)
Definition is_read_back (ev : event) : bool :=
  match ev with
  | Write _ attributes _ =>
      forallb (fun entry => existsb (String.eqb (fst entry)) read_back_attributes) attributes
  | _ => true
  end.

(** The names of the commands of a trace, oldest first. *)
Definition commands_of (tr : list event) : list string :=
  flat_map (fun ev => match ev with Command _ name => [name] | _ => [] end) tr.

(** The reads of [operationalStatus] alone, which are the polls. *)
Definition is_poll (ev : event) : bool :=
  match ev with
  | Read _ ["operationalStatus"%string] _ => true
  | _ => false
  end.

Definition polls_of (tr : list event) : nat := length (List.filter is_poll tr).

(** The attributes of the basic configuration, whose writes the source
    follows with a delay. *)
Definition basic_attributes : list string :=
  ["windowCoveringType"; "configStatus"; "windowCoveringMode"]%string.

Definition is_basic_write (ev : event) : bool :=
  match ev with
  | Write _ attributes _ =>
      existsb (fun entry => existsb (String.eqb (fst entry)) basic_attributes) attributes
  | _ => false
  end.

Definition is_delay (ev : event) : bool :=
  match ev with Sleep s => Z.eqb s 2 | _ => false end.

(** [delayed false tr]: every write of a basic attribute in [tr] is directly
    followed by a sleep of two seconds. [pending] says that the event before
    was such a write. *)
Fixpoint delayed (pending : bool) (tr : list event) : bool :=
  match tr with
  | [] => negb pending
  | ev :: rest =>
      if pending then is_delay ev && delayed false rest
      else delayed (is_basic_write ev) rest
  end.

(** The transport calls of a trace: everything but the sleeps. *)
Definition is_call (ev : event) : bool :=
  match ev with Sleep _ => false | _ => true end.

Fixpoint calls (tr : list event) : nat :=
  match tr with
  | [] => O
  | ev :: rest => if is_call ev then S (calls rest) else calls rest
  end.

(** [cut k tr]: [tr] up to, and without, its call number [k + 1]. *)
Fixpoint cut (k : nat) (tr : list event) : list event :=
  match tr with
  | [] => []
  | ev :: rest =>
      if is_call ev then
        match k with
        | O => []
        | S k' => ev :: cut k' rest
        end
      else ev :: cut k rest
  end.

(** The session up to the write that enables calibration, and from there to
    the write that ends it. *)
Definition enabling_events (value : gmap string JS.value) (mode : JS.value) (p1 : nat)
    : list event :=
  Read ConfigureJ1.cluster ["windowCoveringMode"%string] NoOptions ::
  settle_events mode ++
  baseConfig_events value ++
  Command ConfigureJ1.cluster "upOpen" :: wait_events p1 ++
  [Write ConfigureJ1.cluster ConfigureJ1.resetAttributes Ubisys;
   Sleep 2;
   mode_write (JS.bit_or mode ConfigureJ1.modeCalibrationBitMask)].

Definition learning_events (value : gmap string JS.value) (p2 p3 p4 : nat) : list event :=
  Sleep 2 ::
  Command ConfigureJ1.cluster "downClose" ::
  Sleep 5 ::
  Command ConfigureJ1.cluster "stop" ::
  Sleep 2 ::
  Command ConfigureJ1.cluster "upOpen" :: wait_events p2 ++
  Command ConfigureJ1.cluster "downClose" :: wait_events p3 ++
  Command ConfigureJ1.cluster "upOpen" :: wait_events p4 ++
  writeAttributes_events value ++
  writeConvenience_events value.

(** Whether a run is still polling when the recorded answers end. *)
Definition polling_on {A} (o : outcome A) : bool :=
  match o with StillPolling => true | _ => false end.

(** [truncates m]: a link that fails after [k] calls cuts the run of [m]
    short and changes nothing else. A run that is still polling when the
    recorded answers end, on a link that carries just its calls, sleeps once
    more and fails at the read of the next round. *)
Definition truncates {A} (m : M A) : Prop :=
  forall mode feed tr0, exists o feed1 evs,
    m (World mode feed None tr0) = (o, World mode feed1 None (tr0 ++ evs)) /\
    forall k,
      ((k < calls evs)%nat ->
       exists feed2,
         m (World mode feed (Some k) tr0) =
           (Thrown TransportError, World mode feed2 (Some O) (tr0 ++ cut k evs))) /\
      (k = calls evs -> polling_on o = true ->
       exists feed2,
         m (World mode feed (Some k) tr0) =
           (Thrown TransportError, World mode feed2 (Some O) (tr0 ++ evs ++ [Sleep 2]))) /\
      ((calls evs <= k)%nat -> (k = calls evs -> polling_on o = false) ->
       m (World mode feed (Some k) tr0) =
         (o, World mode feed1 (Some (k - calls evs)%nat) (tr0 ++ evs))).

(** [paced m]: however [m] ends, every write of a basic attribute among the
    events it added is directly followed by a sleep of two seconds. *)
Definition paced {A} (m : M A) : Prop :=
  forall w o w', m w = (o, w') ->
    exists evs, trace w' = trace w ++ evs /\ delayed false evs = true.

(** ** Device setup: what a trace shows *)

(** The arrays written to one attribute, by either kind of write, oldest
    first. *)
Definition arrays_written_to (attribute : string) (tr : list event) : list elements :=
  flat_map (fun ev =>
    match ev with
    | Write _ attributes _ =>
        flat_map (fun entry =>
          match snd entry with
          | Envelope _ els => if String.eqb (fst entry) attribute then [els] else []
          | Plain _ => []
          end) attributes
    | WriteStructured _ a _ els _ => if String.eqb a attribute then [els] else []
    | _ => []
    end) tr.

(** The structured form of the write of one array attribute. *)
Definition structured (ev : event) : event :=
  match ev with
  | Write cluster [(attribute, Envelope t els)] o => WriteStructured cluster attribute t els o
  | _ => ev
  end.

(** A template of a single-input family that names neither its input nor
    its endpoint, and is not a cover on a C4. *)
Definition plain (model : string) (t : template) : bool :=
  negb (JS.is_defined (input t)) && negb (JS.is_defined (endpoint t)) &&
  match lookup_key (type t) templateTypes with
  | Some (SingleInput cv _) => negb (cv && String.eqb model "C4")
  | _ => false
  end.

(* ===================================================================== *)
(** * Whole numbers as doubles *)
(* ===================================================================== *)

(** A whole number of magnitude up to [2 ^ 53] is a double, and sums,
    products and exact quotients that stay within that range are computed
    without rounding. *)

Lemma Qred_inject_Z z : Qred (inject_Z z) = inject_Z z.
Proof.
  unfold Qred, inject_Z.
  pose proof (Z.ggcd_gcd z 1) as Hg.
  pose proof (Z.ggcd_correct_divisors z 1) as Hd.
  destruct (Z.ggcd z 1) as [g [q1 q2]]. cbn [fst snd] in *.
  rewrite Z.gcd_1_r in Hg. subst g.
  destruct Hd as [H1 H2]. rewrite Z.mul_1_l in H1, H2. subst. reflexivity.
Qed.

Lemma nearest_even_1 n : JS.nearest_even n 1 = n.
Proof.
  unfold JS.nearest_even. rewrite Z.div_1_r, Z.mod_1_r. reflexivity.
Qed.

Lemma Qred_scaled a k : 0 <= k -> Qred (a * 2 ^ k # Z.to_pos (2 ^ k)) = inject_Z a.
Proof.
  intros Hk. rewrite <- (Qred_inject_Z a). apply Qred_complete.
  unfold Qeq, inject_Z. cbn [Qnum Qden].
  rewrite Z2Pos.id by (apply Z.pow_pos_nonneg; lia). lia.
Qed.

Lemma round64_inject_Z z :
  Z.abs z <= 2 ^ 53 -> JS.round64 (inject_Z z) = JS.Fin (inject_Z z).
Proof.
  intros Hz. unfold JS.round64. rewrite Qred_inject_Z. cbn [Qnum Qden inject_Z].
  cbv zeta.
  destruct (Z.eqb_spec (Z.abs z) 0) as [H0 | H0].
  - assert (z = 0) by lia. subst. reflexivity.
  - assert (0 < Z.abs z) as Hpos by lia.
    change (Z.log2 1) with 0. rewrite Z.sub_0_r.
    pose proof (Z.log2_spec (Z.abs z) Hpos) as [Hlo Hhi].
    pose proof (Z.log2_nonneg (Z.abs z)) as Hnn.
    assert (Z.log2 (Z.abs z) <= 53) as H53.
    { rewrite <- (Z.log2_pow2 53) by lia. apply Z.log2_le_mono. exact Hz. }
    replace (0 <=? Z.log2 (Z.abs z)) with true by (symmetry; apply Z.leb_le; lia).
    replace (1 * 2 ^ Z.log2 (Z.abs z) <=? Z.abs z) with true
      by (symmetry; apply Z.leb_le; lia).
    rewrite Z.max_l by lia.
    destruct (Z.ltb_spec 0 (Z.log2 (Z.abs z) - 52)) as [Hx | Hx].
    + assert (Z.log2 (Z.abs z) = 53) as E by lia. rewrite E in *.
      assert (Z.abs z = 2 ^ 53) as En by lia. rewrite En.
      assert (z = 2 ^ 53 \/ z = - 2 ^ 53) as [-> | ->] by lia; reflexivity.
    + rewrite nearest_even_1.
      replace (Z.sgn z * (Z.abs z * 2 ^ (- (Z.log2 (Z.abs z) - 52))))
        with (z * 2 ^ (- (Z.log2 (Z.abs z) - 52))) by nia.
      rewrite Qred_scaled by lia. reflexivity.
Qed.

Lemma round64_Qeq p q : p == q -> JS.round64 p = JS.round64 q.
Proof. intros H. unfold JS.round64. rewrite (Qred_complete _ _ H). reflexivity. Qed.

Lemma add_of_Z a b :
  Z.abs (a + b) <= 2 ^ 53 -> JS.add (JS.of_Z a) (JS.of_Z b) = JS.of_Z (a + b).
Proof.
  intros H. unfold JS.add, JS.of_Z. cbn [JS.ToNumber JS.number_add].
  rewrite <- inject_Z_plus, round64_inject_Z by exact H. reflexivity.
Qed.

Lemma mul_of_Z a b :
  Z.abs (a * b) <= 2 ^ 53 -> JS.mul (JS.of_Z a) (JS.of_Z b) = JS.of_Z (a * b).
Proof.
  intros H. unfold JS.mul, JS.of_Z. cbn [JS.ToNumber JS.number_mul].
  rewrite <- inject_Z_mult, round64_inject_Z by exact H. reflexivity.
Qed.

Lemma div_of_Z a b c :
  b <> 0 -> a = b * c -> Z.abs c <= 2 ^ 53 ->
  JS.div (JS.of_Z a) (JS.of_Z b) = JS.of_Z c.
Proof.
  intros Hb Ha Hc. unfold JS.div, JS.of_Z. cbn [JS.ToNumber JS.number_div].
  assert (JS.is_zero (inject_Z b) = false) as ->.
  { unfold JS.is_zero. destruct (Qeq_bool (inject_Z b) 0) eqn:E; [ | reflexivity].
    apply Qeq_bool_eq in E. unfold Qeq, inject_Z in E. cbn in E. lia. }
  rewrite (round64_Qeq _ (inject_Z c)).
  - rewrite round64_inject_Z by exact Hc. reflexivity.
  - subst a. rewrite inject_Z_mult. field.
    intros E. unfold Qeq, inject_Z in E. cbn in E. lia.
Qed.

Lemma Math_max_of_Z z zs :
  JS.Math_max (map JS.of_Z (z :: zs)) = JS.of_Z (fold_left Z.max zs z).
Proof.
  unfold JS.Math_max. cbn [map fold_left JS.of_Z JS.ToNumber JS.number_max JS.number_ltb].
  unfold JS.of_Z. f_equal. revert z.
  induction zs as [ | y zs IH]; intros z; [reflexivity | ].
  cbn [map fold_left JS.ToNumber]. rewrite <- IH. f_equal.
  unfold JS.number_max, JS.number_ltb, Qcompare, inject_Z. cbn [Qnum Qden].
  rewrite !Z.mul_1_r. unfold Z.max.
  destruct (z ?= y) eqn:E; reflexivity.
Qed.

(* ===================================================================== *)
(** * The template loop *)
(* ===================================================================== *)

Lemma templateTypes_inv key tt :
  lookup_key key templateTypes = Some tt ->
  In (key, tt) templateTypes.
Proof.
  unfold templateTypes. cbn [lookup_key].
  repeat match goal with
  | |- context [String.eqb key ?k] =>
      let E := fresh "E" in
      destruct (String.eqb key k) eqn:E; [apply String.eqb_eq in E | clear E]
  end; intros H; inversion H; subst; cbn; tauto.
Qed.

(** Case analysis on the entry of [templateTypes] that a lookup found. *)
Ltac each_templateType H :=
  apply templateTypes_inv in H; cbn in H;
  unfold toggle, toggle_switch, on_off_switch, on, off, dimmer_single, dimmer_double,
    cover_, cover_switch, cover_up, cover_down, scene_, scene_switch in H;
  repeat (destruct H as [H | H]; [inversion H; clear H; subst | ]);
  [.. | contradiction].

Section TemplateLoop.

Lemma expand_accepted model c t :
  accepted t = true -> exists u g, expand model c t = inr (u, g).
Proof.
  unfold accepted, expand.
  destruct (lookup_key (type t) templateTypes) as [[cv f | f f2 | cv f] | ]; try discriminate.
  - eauto.
  - intros ->. cbn. destruct (JS.is_defined (scene_id_2 t)); eauto.
  - eauto.
Qed.

Lemma expand_rejected model c t :
  accepted t = false -> exists e, expand model c t = inl e.
Proof.
  unfold accepted, expand.
  destruct (lookup_key (type t) templateTypes) as [[cv f | f f2 | cv f] | ]; try discriminate.
  - intros ->. cbn. eauto.
  - intros _. destruct (existsb _ _); eauto.
Qed.

Lemma step_accepted model c t :
  accepted t = true -> exists c', step model c t = inr c'.
Proof.
  intros H. destruct (expand_accepted model c t H) as (u & g & E).
  unfold step. rewrite E. eauto.
Qed.

Lemma step_rejected model c t :
  accepted t = false -> exists e, step model c t = inl e.
Proof.
  intros H. destruct (expand_rejected model c t H) as (e & E).
  unfold step. rewrite E. eauto.
Qed.

Lemma loop_accepted model ts : forall c,
  forallb accepted ts = true -> exists c', loop model c ts = inr c'.
Proof.
  induction ts as [ | t ts IH]; intros c H; cbn in *.
  - eauto.
  - apply andb_prop in H as [Ht Hts].
    destruct (step_accepted model c t Ht) as (c' & ->). auto.
Qed.

Lemma loop_rejected model ts : forall c,
  forallb accepted ts = false -> exists e, loop model c ts = inl e.
Proof.
  induction ts as [ | t ts IH]; intros c H; cbn in *.
  - discriminate.
  - destruct (accepted t) eqn:Ht; cbn in H.
    + destruct (step_accepted model c t Ht) as (c' & ->). auto.
    + destruct (step_rejected model c t Ht) as (e & ->). eauto.
Qed.

Lemma loop_app model pre : forall c c1 post,
  loop model c pre = inr c1 ->
  loop model c (pre ++ post) = loop model c1 post.
Proof.
  induction pre as [ | t pre IH]; intros c c1 post H; cbn in *.
  - congruence.
  - destruct (step model c t); [discriminate | eauto].
Qed.

Lemma expand_double model c t cv f :
  lookup_key (type t) templateTypes = Some (DoubleInputs cv f) ->
  expand model c t =
    let given :=
      match inputs t with
      | Some given => given
      | None => [|resolved_input c t; JS.add (resolved_input c t) 1|]
      end in
    let endpoint :=
      if cv && String.eqb model "C4" && JS.lt (resolved_endpoint c t) 5
      then JS.add (resolved_endpoint c t) 4 else resolved_endpoint c t in
    inr (Used (Many given) endpoint (f given endpoint t), cur_groupId c).
Proof. unfold expand. intros ->. reflexivity. Qed.

Lemma scene_lookup t :
  is_scene_type t ->
  lookup_key (type t) templateTypes = Some scene_ \/
  lookup_key (type t) templateTypes = Some scene_switch.
Proof. intros [E | E]; rewrite E; cbn; auto. Qed.

Lemma lookup_scene t f f2 :
  lookup_key (type t) templateTypes = Some (Scene f f2) -> is_scene_type t.
Proof.
  intros H. unfold is_scene_type.
  apply templateTypes_inv in H; cbn in H.
  repeat (destruct H as [H | H]; [inversion H; auto | ]). contradiction.
Qed.

(** The endpoint of a round, after the fix-up for covers on the C4. *)
Lemma expand_endpoint model c t u g :
  expand model c t = inr (u, g) ->
  exists tt, lookup_key (type t) templateTypes = Some tt /\
    used_endpoint u =
      if cover tt && String.eqb model "C4" && JS.lt (resolved_endpoint c t) 5
      then JS.add (resolved_endpoint c t) 4 else resolved_endpoint c t.
Proof.
  unfold expand, resolved_endpoint.
  destruct (lookup_key (type t) templateTypes) as [tt | ]; [ | destruct (existsb _ _); discriminate].
  intros H. exists tt. split; [reflexivity | ].
  destruct tt as [cv f | f f2 | cv f]; cbn [cover] in *.
  - inversion H; reflexivity.
  - destruct (JS.is_defined (scene_id t)); [ | discriminate]. cbn in H.
    destruct (JS.is_defined (scene_id_2 t)); inversion H; reflexivity.
  - inversion H; reflexivity.
Qed.

(** Every tuple a round produces names the round's endpoint in third place. *)
Lemma expand_tuples_endpoint model c t u g :
  expand model c t = inr (u, g) ->
  Forall (fun tuple => JS.index tuple 2 = used_endpoint u) (inputActions u).
Proof.
  unfold expand.
  destruct (lookup_key (type t) templateTypes) as [tt | ] eqn:E;
    [ | destruct (existsb _ _); discriminate].
  each_templateType E; cbn;
    repeat match goal with
    | |- context [if negb (JS.is_defined ?x) then _ else _] => destruct (JS.is_defined x); cbn
    | |- context [if JS.is_defined (scene_id_2 t) then _ else _] =>
        destruct (JS.is_defined (scene_id_2 t)); cbn
    end;
    intros H; inversion H; subst; cbn; try discriminate;
    repeat constructor.
Qed.

(** ... and the round's input in first place: the input of a single-input
    template, the first or second entry of the array of a double one. *)
Lemma expand_tuples_input model c t u g :
  expand model c t = inr (u, g) ->
  match used_input u with
  | One i => Forall (fun tuple => JS.index tuple 0 = i) (inputActions u)
  | Many given =>
      Forall (fun tuple => JS.index tuple 0 = JS.index given 0 \/
                           JS.index tuple 0 = JS.index given 1) (inputActions u)
  end.
Proof.
  unfold expand.
  destruct (lookup_key (type t) templateTypes) as [tt | ] eqn:E;
    [ | destruct (existsb _ _); discriminate].
  each_templateType E; cbn;
    repeat match goal with
    | |- context [if negb (JS.is_defined ?x) then _ else _] => destruct (JS.is_defined x); cbn
    | |- context [if JS.is_defined (scene_id_2 t) then _ else _] =>
        destruct (JS.is_defined (scene_id_2 t)); cbn
    end;
    intros H; inversion H; subst; cbn; try discriminate;
    repeat match goal with
    | |- Forall _ [] => constructor
    | |- Forall _ (_ :: _) =>
        constructor; [solve [reflexivity | left; reflexivity | right; reflexivity] | ]
    end.
Qed.

(** A template that keeps the group leaves the cursor's group id alone. *)
Lemma step_keeps_group model c t c' :
  keeps_group t -> step model c t = inr c' -> cur_groupId c' = cur_groupId c.
Proof.
  unfold keeps_group, step, expand. intros K.
  destruct (lookup_key (type t) templateTypes) as [tt | ] eqn:E;
    [ | destruct (existsb _ _); discriminate].
  destruct tt as [cv f | f f2 | cv f].
  - intros H; inversion H; reflexivity.
  - destruct (K (lookup_scene _ _ _ E)) as [G1 G2]. rewrite G1. cbn.
    destruct (JS.is_defined (scene_id t)); cbn; [ | discriminate].
    destruct G2 as [G2 | G2]; rewrite G2; cbn.
    + intros H; inversion H; reflexivity.
    + destruct (JS.is_defined (scene_id_2 t)); intros H; inversion H; reflexivity.
  - intros H; inversion H; reflexivity.
Qed.

Lemma loop_keeps_group model ts : forall c c',
  Forall keeps_group ts -> loop model c ts = inr c' -> cur_groupId c' = cur_groupId c.
Proof.
  induction ts as [ | t ts IH]; intros c c' K H; cbn in H.
  - inversion H; reflexivity.
  - inversion K as [ | ? ? Kt Kts]; subst.
    destruct (step model c t) as [e | c1] eqn:E; [discriminate | ].
    rewrite (IH _ _ Kts H). eapply step_keeps_group; eauto.
Qed.

End TemplateLoop.


Lemma is_defined_false v : JS.is_defined v = false <-> v = JS.Undefined.
Proof. destruct v; cbn; split; congruence. Qed.

Lemma is_defined_true v : JS.is_defined v = true <-> v <> JS.Undefined.
Proof. destruct v; cbn; split; congruence. Qed.

Lemma loop_fails_on model ts t : forall c,
  In t ts -> accepted t = false -> exists e, loop model c ts = inl e.
Proof.
  intros c Hin Hbad. apply loop_rejected.
  destruct (forallb accepted ts) eqn:E; [ | reflexivity].
  rewrite forallb_forall in E. rewrite (E t Hin) in Hbad. discriminate.
Qed.

Lemma expand_nonempty model c t u g :
  expand model c t = inr (u, g) -> inputActions u <> [].
Proof.
  unfold expand.
  destruct (lookup_key (type t) templateTypes) as [tt | ] eqn:E;
    [ | destruct (existsb _ _); discriminate].
  each_templateType E; cbn;
    repeat match goal with
    | |- context [if negb (JS.is_defined ?x) then _ else _] => destruct (JS.is_defined x); cbn
    | |- context [if JS.is_defined (scene_id_2 t) then _ else _] =>
        destruct (JS.is_defined (scene_id_2 t)); cbn
    end;
    intros H; inversion H; subst; cbn; discriminate.
Qed.

(* ===================================================================== *)
(** * The request as a whole: what reaches the endpoint *)
(* ===================================================================== *)

(** When the templates do not compile, the run throws, and what it has
    written by then is at most the raw keys of the request. *)
Lemma convertSet_compile_error useWriteStruct m value a e l :
  input_action_templates value = Some a ->
  compile m (as_array a) = inl e ->
  exists e' tr,
    DeviceSetup.run useWriteStruct m value l = (Thrown e', tr) /\
    tr `prefix_of` raw_writes useWriteStruct value.
Proof.
  intros Ha Hc.
  unfold DeviceSetup.run, DeviceSetup.convertSet, raw_writes, writeArray, array_event.
  rewrite Ha, Hc.
  destruct (input_configurations value), (input_actions value), useWriteStruct,
    l as [[ | [ | k]] | ]; cbn;
    (eexists _, _; split; [reflexivity | ]; eexists; cbn; reflexivity).
Qed.

(** On a working link the error is the compiler's, and the raw keys have
    been written. *)
Lemma convertSet_compile_error_working_link useWriteStruct m value a e :
  input_action_templates value = Some a ->
  compile m (as_array a) = inl e ->
  DeviceSetup.run useWriteStruct m value None =
    (Thrown e, raw_writes useWriteStruct value).
Proof.
  intros Ha Hc.
  unfold DeviceSetup.run, DeviceSetup.convertSet, raw_writes, writeArray, array_event.
  rewrite Ha, Hc.
  destruct (input_configurations value), (input_actions value), useWriteStruct;
    reflexivity.
Qed.

(** When they compile and the link holds, the rows are written after the
    raw keys, and the two attributes are read back. *)
Lemma convertSet_compiled useWriteStruct m value a rows :
  input_action_templates value = Some a ->
  compile m (as_array a) = inr rows ->
  DeviceSetup.run useWriteStruct m value None =
    (Returned tt,
     raw_writes useWriteStruct value ++
     [array_event useWriteStruct "inputActions" OCTET_STR (Rows rows)] ++ setup_reads).
Proof.
  intros Ha Hc.
  unfold DeviceSetup.run, DeviceSetup.convertSet, raw_writes, writeArray, array_event.
  rewrite Ha, Hc.
  destruct (input_configurations value), (input_actions value), useWriteStruct;
    reflexivity.
Qed.

(* ===================================================================== *)
(** * The template compiler: endpoints, cursor, scenes, groups, models *)
(* ===================================================================== *)

(** C8. For a template whose family has the cover flag, compiled for the
    model C4, a resolved endpoint below 5 is shifted up by 4 in every tuple
    the template emits; for an endpoint that is not below 5, for a family
    without the flag, or for another model, every tuple carries the resolved
    endpoint unchanged. The template always emits at least one tuple. *)
Theorem cover_endpoint_on_C4 model c t tt u g :
  lookup_key (type t) templateTypes = Some tt ->
  expand model c t = inr (u, g) ->
  inputActions u <> [] /\
  (cover tt = true -> model = "C4"%string -> JS.lt (resolved_endpoint c t) 5 = true ->
   Forall (fun tuple => JS.index tuple 2 = JS.add (resolved_endpoint c t) 4) (inputActions u)) /\
  (cover tt = false \/ model <> "C4"%string \/ JS.lt (resolved_endpoint c t) 5 = false ->
   Forall (fun tuple => JS.index tuple 2 = resolved_endpoint c t) (inputActions u)).
Proof.
  intros Htt H.
  pose proof (expand_tuples_endpoint _ _ _ _ _ H) as Htuples.
  destruct (expand_endpoint _ _ _ _ _ H) as (tt' & Htt' & Hend).
  rewrite Htt in Htt'. inversion Htt'; subst tt'. clear Htt'.
  split; [eapply expand_nonempty; eauto | ]. split.
  - intros Hc -> Hlt. rewrite Hc, Hlt in Hend. cbn in Hend.
    rewrite <- Hend. exact Htuples.
  - intros Hcases.
    assert (cover tt && String.eqb model "C4" && JS.lt (resolved_endpoint c t) 5 = false) as E.
    { destruct Hcases as [Hc | [Hm | Hlt]].
      - rewrite Hc. reflexivity.
      - apply String.eqb_neq in Hm. rewrite Hm. apply andb_false_intro1, andb_false_r.
      - rewrite Hlt. apply andb_false_r. }
    rewrite E in Hend. rewrite <- Hend. exact Htuples.
Qed.

Lemma cover_endpoint_on_C4_witness :
  let c := initial "C4" in
  let t := of_type "cover" in
  exists u g,
    expand "C4" c t = inr (u, g) /\
    inputActions u <> [] /\
    Forall (fun tuple => JS.index tuple 2 = 5) (inputActions u).
Proof.
  intros c t.
  destruct (expand "C4" c t) as [e | [u g]] eqn:E; [discriminate | ].
  exists u, g. split; [reflexivity | ].
  destruct (cover_endpoint_on_C4 "C4" c t cover_ u g eq_refl E) as (Hne & Hshift & _).
  split; [exact Hne | ].
  exact (Hshift eq_refl eq_refl eq_refl).
Defined.

(** Finds in a list of tuples one that satisfies the property at hand. *)
Ltac find_tuple :=
  first [apply Exists_cons_hd; reflexivity | apply Exists_cons_tl; find_tuple].

(** C6. Wherever a template stands in the list, once the templates before
    it and the template itself are processed, the cursor for the rest of the
    list is fixed whatever follows: its input is one more than the highest
    input the template used, its endpoint one more than the endpoint the
    template used; the template's tuples name that endpoint and those inputs.
    The highest input is the input itself for a single-input template and
    the greatest entry of the array for a double-input one, wherever it
    stands in the array; the array is the template's [inputs], or the pair
    of the resolved input and the next one. (For whole numbers within
    [2 ^ 53], where a double counts without rounding.) A double-input family
    without [inputs] that starts from input 2 uses the inputs 2 and 3, both,
    and nothing else, and leaves the cursor at 4. *)
Theorem cursor_advances model c pre t post c1 u g :
  loop model c pre = inr c1 ->
  expand model c1 t = inr (u, g) ->
  let c2 :=
    Cursor (JS.add (highest (used_input u)) 1) (JS.add (used_endpoint u) 1) g
      (resultingInputActions c1 ++ inputActions u) in
  loop model c (pre ++ [t]) = inr c2 /\
  loop model c (pre ++ t :: post) = loop model c2 post /\
  Forall (fun tuple => JS.index tuple 2 = used_endpoint u) (inputActions u) /\
  match used_input u with
  | One i => Forall (fun tuple => JS.index tuple 0 = i) (inputActions u)
  | Many given =>
      Forall (fun tuple => JS.index tuple 0 = JS.index given 0 \/
                           JS.index tuple 0 = JS.index given 1) (inputActions u)
  end /\
  (forall cv f,
     lookup_key (type t) templateTypes = Some (DoubleInputs cv f) ->
     inputs t = None ->
     resolved_input c1 t = 2 ->
     used_input u = Many [|2; 3|] /\
     Forall (fun tuple => JS.index tuple 0 = 2 \/ JS.index tuple 0 = 3) (inputActions u) /\
     Exists (fun tuple => JS.index tuple 0 = 2) (inputActions u) /\
     Exists (fun tuple => JS.index tuple 0 = 3) (inputActions u) /\
     cur_input c2 = 4) /\
  (forall i : Z,
     used_input u = One (JS.of_Z i) -> Z.abs (i + 1) <= 2 ^ 53 ->
     cur_input c2 = JS.of_Z (i + 1)) /\
  (forall z zs,
     used_input u = Many (map JS.of_Z (z :: zs)) ->
     Z.abs (fold_left Z.max zs z + 1) <= 2 ^ 53 ->
     cur_input c2 = JS.of_Z (fold_left Z.max zs z + 1)) /\
  (forall e : Z,
     used_endpoint u = JS.of_Z e -> Z.abs (e + 1) <= 2 ^ 53 ->
     cur_endpoint c2 = JS.of_Z (e + 1)) /\
  (forall tt, lookup_key (type t) templateTypes = Some tt ->
     used_input u =
       if doubleInputs tt then
         match inputs t with
         | Some given => Many given
         | None => Many [|resolved_input c1 t; JS.add (resolved_input c1 t) 1|]
         end
       else One (resolved_input c1 t)).
Proof.
  intros Hpre H c2.
  assert (step model c1 t = inr c2) as Hstep by (unfold step; rewrite H; reflexivity).
  split; [ | split; [ | split; [ | split; [ | split; [ | split; [ | split; [ | split]]]]]]].
  - rewrite (loop_app _ _ _ _ _ Hpre). cbn. rewrite Hstep. reflexivity.
  - rewrite (loop_app _ _ _ _ _ Hpre). cbn. rewrite Hstep. reflexivity.
  - eapply expand_tuples_endpoint; eauto.
  - eapply expand_tuples_input; eauto.
  - intros cv f Htt Hnone Hin. subst c2. cbn [cur_input].
    rewrite (expand_double _ _ _ _ _ Htt), Hnone, Hin in H.
    cbv zeta in H. inversion H; subst u g; clear H.
    cbn [used_input inputActions highest].
    each_templateType Htt;
      (split; [reflexivity | ]);
      (split; [repeat (constructor; [solve [left; reflexivity | right; reflexivity] | ]);
               constructor | ]);
      (split; [find_tuple | ]);
      (split; [find_tuple | reflexivity]).
  - intros i Hi Hsafe. subst c2. cbn [cur_input]. rewrite Hi. cbn [highest].
    change (1 : JS.value) with (JS.of_Z 1). apply add_of_Z. exact Hsafe.
  - intros z zs Hzs Hsafe. subst c2. cbn [cur_input]. rewrite Hzs. cbn [highest].
    rewrite Math_max_of_Z.
    change (1 : JS.value) with (JS.of_Z 1). apply add_of_Z. exact Hsafe.
  - intros e He Hsafe. subst c2. cbn [cur_endpoint]. rewrite He.
    change (1 : JS.value) with (JS.of_Z 1). apply add_of_Z. exact Hsafe.
  - intros tt Htt. unfold expand in H. rewrite Htt in H. unfold resolved_input.
    destruct tt as [cv f | f f2 | cv f]; cbn [doubleInputs].
    + inversion H; reflexivity.
    + destruct (JS.is_defined (scene_id t)); cbn [negb] in H; [ | discriminate].
      destruct (JS.is_defined (scene_id_2 t)); inversion H; reflexivity.
    + destruct (inputs t); inversion H; reflexivity.
Qed.

Lemma cursor_advances_witness :
  (let c1 := Cursor 2 3 0 [] in
   let t := of_type "dimmer_double" in
   exists u g,
     expand "S2" c1 t = inr (u, g) /\
     loop "S2" c1 [t; of_type "toggle"] =
       loop "S2" (Cursor 4 4 g (inputActions u)) [of_type "toggle"] /\
     used_input u = Many [|2; 3|]) /\
  (let t :=
     Template "cover_switch" JS.Undefined (Some [|5; 2; 9|]) JS.Undefined JS.Undefined
       JS.Undefined JS.Undefined JS.Undefined JS.Undefined JS.Undefined JS.Undefined
       JS.Undefined in
   exists c2, loop "J1" (initial "J1") [t] = inr c2 /\ cur_input c2 = 10).
Proof.
  split.
  - intros c1 t.
    destruct (expand "S2" c1 t) as [e | [u g]] eqn:E; [discriminate | ].
    exists u, g. split; [reflexivity | ].
    destruct (cursor_advances "S2" c1 [] t [of_type "toggle"] c1 u g eq_refl E)
      as (_ & Hrest & _ & _ & Hdouble & _).
    destruct (Hdouble false _ eq_refl eq_refl eq_refl) as (Hused & _).
    split; [ | exact Hused].
    inversion E; subst. exact Hrest.
  - intros t.
    destruct (expand "J1" (initial "J1") t) as [e | [u g]] eqn:E; [discriminate | ].
    destruct (cursor_advances "J1" (initial "J1") [] t [] (initial "J1") u g eq_refl E)
      as (Hloop & _ & _ & _ & _ & _ & Hmax & _).
    eexists. split; [exact Hloop | ].
    inversion E; subst.
    exact (Hmax 5 [2; 9] eq_refl ltac:(cbn; lia)).
Defined.

Lemma scene_not_accepted t :
  is_scene_type t -> scene_id t = JS.Undefined -> accepted t = false.
Proof.
  intros Hs Hid. unfold accepted.
  destruct (scene_lookup t Hs) as [-> | ->]; cbn; rewrite Hid; reflexivity.
Qed.

(** C7. For a [scene] or [scene_switch] template: without [scene_id] the
    round throws the error that asks for it, and a request whose templates
    include it throws the compiler's error on a working link, and on any
    link throws with nothing written but, at most, the raw keys of the
    request (no write of compiled rows, no read-back); with [scene_id] and
    without [scene_id_2] the round appends exactly one tuple; with both it
    appends exactly two. *)
Theorem scene_template_tuples model c t :
  is_scene_type t ->
  (scene_id t = JS.Undefined ->
     step model c t =
       inl (Error ("input_action_templates: Need an attribute 'scene_id' for '" ++
                   type t ++ "'")) /\
     forall useWriteStruct value a,
       input_action_templates value = Some a ->
       In t (as_array a) ->
       (exists e,
          compile (Device model) (as_array a) = inl e /\
          DeviceSetup.run useWriteStruct (Device model) value None =
            (Thrown e, raw_writes useWriteStruct value)) /\
       forall l, exists e tr,
         DeviceSetup.run useWriteStruct (Device model) value l = (Thrown e, tr) /\
         tr `prefix_of` raw_writes useWriteStruct value) /\
  (scene_id t <> JS.Undefined -> scene_id_2 t = JS.Undefined ->
     exists tuple c',
       step model c t = inr c' /\
       resultingInputActions c' = resultingInputActions c ++ [tuple]) /\
  (scene_id t <> JS.Undefined -> scene_id_2 t <> JS.Undefined ->
     exists tuple tuple2 c',
       step model c t = inr c' /\
       resultingInputActions c' = resultingInputActions c ++ [tuple; tuple2]).
Proof.
  intros Hs. split; [ | split].
  - intros Hid. split.
    + unfold step, expand.
      destruct (scene_lookup t Hs) as [-> | ->]; cbn; rewrite Hid; reflexivity.
    + intros useWriteStruct value a Ha Hin.
      destruct (loop_fails_on model (as_array a) t (initial model) Hin
                  (scene_not_accepted t Hs Hid)) as (e & He).
      assert (compile (Device model) (as_array a) = inl e) as Hc
        by (unfold compile; rewrite He; reflexivity).
      split.
      * exists e. split; [exact Hc | ].
        apply convertSet_compile_error_working_link with (a := a); assumption.
      * intros l. eapply convertSet_compile_error; eassumption.
  - intros Hid Hid2. apply is_defined_true in Hid.
    unfold step, expand.
    destruct (scene_lookup t Hs) as [-> | ->]; cbn; rewrite Hid, Hid2; cbn;
      eexists _, _; (split; [reflexivity | reflexivity]).
  - intros Hid Hid2. apply is_defined_true in Hid. apply is_defined_true in Hid2.
    unfold step, expand.
    destruct (scene_lookup t Hs) as [-> | ->]; cbn; rewrite Hid, Hid2; cbn;
      eexists _, _, _; (split; [reflexivity | reflexivity]).
Qed.

Lemma scene_template_tuples_witness :
  (exists e tr,
     DeviceSetup.run false (Device "C4")
       (Request (Some [|0; 0; 0; 0|]) None
          (Some (Templates [of_type "toggle"; of_type "scene"]))) None = (Thrown e, tr) /\
     tr `prefix_of` [array_event false "inputConfigurations" DATA8 (Bytes [|0; 0; 0; 0|])]) /\
  (exists tuple c',
     step "C4" (initial "C4") (scene_template "scene" 5 JS.Undefined 1 JS.Undefined) = inr c' /\
     resultingInputActions c' = [tuple]) /\
  (exists tuple tuple2 c',
     step "C4" (initial "C4") (scene_template "scene_switch" 5 JS.Undefined 1 2) = inr c' /\
     resultingInputActions c' = [tuple; tuple2]).
Proof.
  split; [ | split].
  - destruct (scene_template_tuples "C4" (initial "C4") (of_type "scene") (or_introl eq_refl))
      as (Hmissing & _).
    destruct (Hmissing eq_refl) as (_ & Hrun).
    exact (proj2 (Hrun false
             (Request (Some [|0; 0; 0; 0|]) None
                (Some (Templates [of_type "toggle"; of_type "scene"])))
             (Templates [of_type "toggle"; of_type "scene"]) eq_refl
             (or_intror (or_introl eq_refl))) None).
  - destruct (scene_template_tuples "C4" (initial "C4")
                (scene_template "scene" 5 JS.Undefined 1 JS.Undefined) (or_introl eq_refl))
      as (_ & Hone & _).
    apply Hone; [discriminate | reflexivity].
  - destruct (scene_template_tuples "C4" (initial "C4")
                (scene_template "scene_switch" 5 JS.Undefined 1 2) (or_intror eq_refl))
      as (_ & _ & Htwo).
    apply Htwo; discriminate.
Defined.

(** C10, as stated, fails: a scene template with [group_id_2] but without
    [scene_id_2] does not touch the group id. Here the first template has
    [group_id: 5, group_id_2: 7, scene_id: 1]; the second, with only
    [scene_id: 2], carries group 5, the earlier [group_id], and not 7. *)
Lemma group_id_2_needs_scene_id_2 :
  let first := scene_template "scene" 5 7 1 JS.Undefined in
  let second := scene_template "scene" JS.Undefined JS.Undefined 2 JS.Undefined in
  is_scene_type first /\ group_id_2 first = 7 /\
  is_scene_type second /\ group_id second = JS.Undefined /\
  compile (Device "S1") [first; second] =
    inr [ [|0; 0x07; 2; 0x05; 0x00; 0x05; 5; 0; 1|];
          [|1; 0x07; 3; 0x05; 0x00; 0x05; 5; 0; 2|] ] /\
  ~ encodes_group 7 [|1; 0x07; 3; 0x05; 0x00; 0x05; 5; 0; 2|].
Proof.
  cbv zeta. repeat split; try (left; reflexivity).
  intros [H _]. vm_compute in H. discriminate.
Qed.

(** C10, amended. The loop keeps one group id for primary and secondary
    scene bindings alike. After a scene template that has a [scene_id_2] and
    a [group_id_2], the group id is that [group_id_2]; it stays so across
    templates that do not set it; and a later scene template without
    [group_id] carries it, low byte then high byte, in its first tuple, and
    in all its tuples unless it sets a [group_id_2] of its own for a second
    scene. *)
Theorem group_register_shared model c t mid t' c1 c2 u g' :
  is_scene_type t ->
  scene_id_2 t <> JS.Undefined ->
  group_id_2 t <> JS.Undefined ->
  step model c t = inr c1 ->
  Forall keeps_group mid ->
  loop model c1 mid = inr c2 ->
  is_scene_type t' ->
  group_id t' = JS.Undefined ->
  expand model c2 t' = inr (u, g') ->
  cur_groupId c2 = group_id_2 t /\
  (exists first rest,
     inputActions u = first :: rest /\ encodes_group (group_id_2 t) first) /\
  (scene_id_2 t' = JS.Undefined \/ group_id_2 t' = JS.Undefined ->
   Forall (encodes_group (group_id_2 t)) (inputActions u) /\ g' = group_id_2 t).
Proof.
  intros Hs Hid2 Hg2 Hstep Hmid Hloop Hs' Hg' Hexp.
  apply is_defined_true in Hid2. apply is_defined_true in Hg2.
  assert (cur_groupId c1 = group_id_2 t) as Hc1.
  { revert Hstep. unfold step, expand.
    destruct (scene_lookup t Hs) as [-> | ->]; cbn;
      destruct (JS.is_defined (scene_id t)); cbn; try discriminate;
      rewrite Hid2, Hg2; intros H; inversion H; reflexivity. }
  assert (cur_groupId c2 = group_id_2 t) as Hc2.
  { rewrite <- Hc1. eapply loop_keeps_group; eauto. }
  split; [exact Hc2 | ].
  revert Hexp. unfold expand. rewrite Hg', Hc2.
  destruct (scene_lookup t' Hs') as [-> | ->]; cbn;
    destruct (JS.is_defined (scene_id t')); cbn; try discriminate;
    destruct (JS.is_defined (scene_id_2 t')) eqn:E2; cbn;
    intros H; inversion H; subst; cbn;
    (split; [eexists _, _; split; [reflexivity | split; reflexivity] | ]);
    intros [H2 | H2];
    try (apply is_defined_false in H2; rewrite H2 in E2; discriminate);
    try rewrite H2; cbn;
    (split; [repeat constructor | reflexivity]).
Qed.

Lemma group_register_shared_witness :
  let t := scene_template "scene" 5 7 1 2 in
  let t' := scene_template "scene_switch" JS.Undefined JS.Undefined 3 JS.Undefined in
  compile (Device "S1") [t; of_type "toggle"; t'] =
    inr [ [|0; 0x07; 2; 0x05; 0x00; 0x05; 5; 0; 1|];
          [|0; 0x06; 2; 0x05; 0x00; 0x05; 7; 0; 2|];
          [|1; 0x0d; 3; 0x06; 0x00; 0x02|];
          [|2; 0x0d; 4; 0x05; 0x00; 0x05; 7; 0; 3|] ] /\
  exists c1 c2 u g',
    step "S1" (initial "S1") t = inr c1 /\
    loop "S1" c1 [of_type "toggle"] = inr c2 /\
    expand "S1" c2 t' = inr (u, g') /\
    Forall (encodes_group 7) (inputActions u).
Proof.
  intros t t'. split; [reflexivity | ].
  assert (Forall keeps_group [of_type "toggle"]) as Hmid.
  { constructor; [ | constructor]. intros [H | H]; discriminate. }
  assert (is_scene_type t) as Hs by (left; reflexivity).
  assert (scene_id_2 t <> JS.Undefined) as Hid2 by discriminate.
  assert (group_id_2 t <> JS.Undefined) as Hg2 by discriminate.
  assert (is_scene_type t') as Hs' by (right; reflexivity).
  eexists _, _, _, _.
  split; [reflexivity | ]. split; [reflexivity | ]. split; [reflexivity | ].
  refine (proj1 (proj2 (proj2
    (group_register_shared "S1" (initial "S1") t [of_type "toggle"] t' _ _ _ _
       Hs Hid2 Hg2 eq_refl Hmid eq_refl Hs' eq_refl eq_refl)) (or_introl eq_refl))).
Defined.

(** S1-R, a model of this file that is not in the table, gets no error. Its
    first endpoint is [undefined], the tuple is emitted with it, and the
    write goes out. *)
Lemma unknown_model_is_compiled :
  ~ In "S1-R"%string known_models /\
  compile (Device "S1-R") [of_type "toggle"] =
    inr [ [|0; 0x0d; JS.Undefined; 0x06; 0x00; 0x02|] ] /\
  DeviceSetup.run false (Device "S1-R")
    (Request None None (Some (Templates [of_type "toggle"]))) None =
    (Returned tt,
     [Write DeviceSetup.cluster
        [("inputActions"%string,
          Envelope OCTET_STR (Rows [ [|0; 0x0d; JS.Undefined; 0x06; 0x00; 0x02|] ]))]
        UbisysNull;
      Read DeviceSetup.cluster ["inputConfigurations"%string] UbisysNull;
      Read DeviceSetup.cluster ["inputActions"%string] UbisysNull]).
Proof.
  split; [ | split; reflexivity].
  cbn. intros H. repeat (destruct H as [H | H]; [discriminate | ]). exact H.
Qed.

Lemma firstEndpoint_unknown model :
  ~ In model known_models -> firstEndpoint model = JS.Undefined.
Proof.
  unfold known_models, firstEndpoint. cbn. intros H.
  repeat match goal with
  | |- context [String.eqb model ?k] =>
      let E := fresh "E" in
      destruct (String.eqb model k) eqn:E;
        [apply String.eqb_eq in E; exfalso; apply H; rewrite E; tauto | clear E]
  end.
  reflexivity.
Qed.

Lemma unknown_is_not_C4 model :
  ~ In model known_models -> String.eqb model "C4" = false.
Proof.
  intros H. destruct (String.eqb model "C4") eqn:E; [ | reflexivity].
  apply String.eqb_eq in E. exfalso. apply H. rewrite E. cbn. tauto.
Qed.

(** The errors of the loop depend on the templates alone, not on the model
    and not on the cursor. *)
Lemma expand_error_any model c model' c' t e :
  expand model c t = inl e -> expand model' c' t = inl e.
Proof.
  unfold expand.
  destruct (lookup_key (type t) templateTypes) as [[cv f | f f2 | cv f] | ].
  - discriminate.
  - destruct (JS.is_defined (scene_id t)); cbn [negb].
    + destruct (JS.is_defined (scene_id_2 t)); discriminate.
    + auto.
  - discriminate.
  - auto.
Qed.

Lemma expand_accepts model c t x : expand model c t = inr x -> accepted t = true.
Proof.
  intros H. destruct (accepted t) eqn:E; [reflexivity | ].
  destruct (expand_rejected model c t E) as (e & He). congruence.
Qed.

Lemma loop_error_any model model' ts : forall c c' e,
  loop model c ts = inl e -> loop model' c' ts = inl e.
Proof.
  induction ts as [ | t ts IH]; intros c c' e H; cbn in *; [discriminate | ].
  unfold step in *.
  destruct (expand model c t) as [e1 | [u g]] eqn:E.
  - rewrite (expand_error_any _ _ model' c' _ _ E). exact H.
  - destruct (expand_accepted model' c' t (expand_accepts _ _ _ _ E)) as (u' & g' & ->).
    eapply IH. exact H.
Qed.

(** The endpoint of the rows of a template without one of its own, for a
    model outside the table. *)
Lemma unknown_model_endpoint model c t :
  ~ In model known_models ->
  accepted t = true -> endpoint t = JS.Undefined ->
  exists u g,
    expand model c t = inr (u, g) /\
    inputActions u <> [] /\
    used_endpoint u = cur_endpoint c /\
    Forall (fun tuple => JS.index tuple 2 = cur_endpoint c) (inputActions u).
Proof.
  intros Hunknown Hok Hep.
  destruct (expand_accepted model c t Hok) as (u & g & Hu).
  exists u, g. split; [exact Hu | ]. split; [exact (expand_nonempty _ _ _ _ _ Hu) | ].
  destruct (expand_endpoint _ _ _ _ _ Hu) as (tt & _ & Hused).
  rewrite (unknown_is_not_C4 _ Hunknown), andb_false_r in Hused. cbn [andb] in Hused.
  unfold resolved_endpoint in Hused. rewrite Hep in Hused. cbn [JS.is_defined] in Hused.
  split; [exact Hused | ].
  rewrite <- Hused. exact (expand_tuples_endpoint _ _ _ _ _ Hu).
Qed.

(** C5. The code diverges from the claim: a model outside the table of
    first endpoints raises no error. Whatever raw keys the request carries,
    the loop starts from input 0, an [undefined] endpoint and group 0; the
    templates give an error for this model exactly when they give it for any
    other model, and it is the same error; templates that the loop accepts
    compile to rows, which a request on a working link writes after the raw
    keys and reads back. The rows of a first template without an endpoint of
    its own carry [undefined] as their endpoint, and those of the template
    after it [NaN]. *)
Theorem unknown_model_starts_undefined model value a :
  ~ In model known_models ->
  input_action_templates value = Some a ->
  initial model = Cursor 0 JS.Undefined 0 [] /\
  (forall other e,
     compile (Device model) (as_array a) = inl e <->
     compile (Device other) (as_array a) = inl e) /\
  (forallb accepted (as_array a) = true ->
     exists rows,
       compile (Device model) (as_array a) = inr rows /\
       forall useWriteStruct,
         DeviceSetup.run useWriteStruct (Device model) value None =
           (Returned tt,
            raw_writes useWriteStruct value ++
            [array_event useWriteStruct "inputActions" OCTET_STR (Rows rows)] ++
            setup_reads)) /\
  (forall t rest,
     as_array a = t :: rest -> accepted t = true -> endpoint t = JS.Undefined ->
     exists u g,
       expand model (initial model) t = inr (u, g) /\
       inputActions u <> [] /\
       Forall (fun tuple => JS.index tuple 2 = JS.Undefined) (inputActions u) /\
       forall t2, accepted t2 = true -> endpoint t2 = JS.Undefined ->
         exists u2 g2,
           expand model (advance (initial model) u g) t2 = inr (u2, g2) /\
           inputActions u2 <> [] /\
           Forall (fun tuple => JS.index tuple 2 = JS.Number JS.NaN) (inputActions u2)).
Proof.
  intros Hunknown Ha.
  assert (initial model = Cursor 0 JS.Undefined 0 []) as Hinit.
  { unfold initial. rewrite (firstEndpoint_unknown _ Hunknown). reflexivity. }
  split; [exact Hinit | ]. split; [ | split].
  - intros other e. unfold compile. split; intros H.
    + destruct (loop model (initial model) (as_array a)) as [e1 | c1] eqn:E;
        [ | discriminate].
      rewrite (loop_error_any _ other _ _ (initial other) _ E). exact H.
    + destruct (loop other (initial other) (as_array a)) as [e1 | c1] eqn:E;
        [ | discriminate].
      rewrite (loop_error_any _ model _ _ (initial model) _ E). exact H.
  - intros Hok.
    destruct (loop_accepted model (as_array a) (initial model) Hok) as (c' & Hc').
    assert (compile (Device model) (as_array a) = inr (resultingInputActions c')) as Hrows.
    { unfold compile. rewrite Hc'. reflexivity. }
    exists (resultingInputActions c'). split; [exact Hrows | ].
    intros useWriteStruct.
    exact (convertSet_compiled useWriteStruct (Device model) value a _ Ha Hrows).
  - intros t rest _ Hok Hep.
    destruct (unknown_model_endpoint model (initial model) t Hunknown Hok Hep)
      as (u & g & Hu & Hne & Hused & Hrows).
    rewrite Hinit in Hused, Hrows. cbn [cur_endpoint] in Hused, Hrows.
    exists u, g. split; [exact Hu | ]. split; [exact Hne | ]. split; [exact Hrows | ].
    intros t2 Hok2 Hep2.
    destruct (unknown_model_endpoint model (advance (initial model) u g) t2
                Hunknown Hok2 Hep2) as (u2 & g2 & Hu2 & Hne2 & _ & Hrows2).
    exists u2, g2. split; [exact Hu2 | ]. split; [exact Hne2 | ].
    unfold advance in Hrows2. cbn [cur_endpoint] in Hrows2. rewrite Hused in Hrows2.
    exact Hrows2.
Qed.

Lemma unknown_model_starts_undefined_witness :
  initial "S1-R" = Cursor 0 JS.Undefined 0 [] /\
  DeviceSetup.run false (Device "S1-R")
    (Request (Some [|0; 0|]) None (Some (Templates [of_type "toggle"; of_type "on"]))) None =
    (Returned tt,
     [Write DeviceSetup.cluster
        [("inputConfigurations"%string, Envelope DATA8 (Bytes [|0; 0|]))] UbisysNull;
      Write DeviceSetup.cluster
        [("inputActions"%string,
          Envelope OCTET_STR
            (Rows [ [|0; 0x0d; JS.Undefined; 0x06; 0x00; 0x02|];
                    [|1; 0x0d; JS.Number JS.NaN; 0x06; 0x00; 0x01|] ]))] UbisysNull;
      Read DeviceSetup.cluster ["inputConfigurations"%string] UbisysNull;
      Read DeviceSetup.cluster ["inputActions"%string] UbisysNull]).
Proof.
  assert (~ In "S1-R"%string known_models) as Hunknown.
  { cbn. intros H. repeat (destruct H as [H | H]; [discriminate | ]). exact H. }
  destruct (unknown_model_starts_undefined "S1-R"
              (Request (Some [|0; 0|]) None
                 (Some (Templates [of_type "toggle"; of_type "on"])))
              (Templates [of_type "toggle"; of_type "on"]) Hunknown eq_refl)
    as (Hinit & _ & Hok & _).
  split; [exact Hinit | ].
  destruct (Hok eq_refl) as (rows & Hrows & Hrun).
  rewrite (Hrun false). inversion Hrows; subst. reflexivity.
Defined.

(* ===================================================================== *)
(** * Runs of the calibration request *)
(* ===================================================================== *)

Section Runs.

Context {A B : Type}.

Lemma returns_ret (a : A) (Q : A -> list event -> Prop) :
  Q a [] -> returns (mret a) Q.
Proof.
  intros HQ w a' w' H. inversion H; subst. exists []. rewrite app_nil_r. auto.
Qed.

Lemma returns_bind (m : M A) (f : A -> M B) (Q1 : A -> list event -> Prop)
    (Q : B -> list event -> Prop) :
  returns m Q1 ->
  (forall a e1, Q1 a e1 -> returns (f a) (fun b e2 => Q b (e1 ++ e2))) ->
  returns (m ≫= f) Q.
Proof.
  intros Hm Hf w b w'' H. unfold mbind, M_bind in H.
  destruct (m w) as [[a | e | ] w'] eqn:E; try discriminate.
  destruct (Hm _ _ _ E) as (e1 & T1 & Q1a).
  destruct (Hf a e1 Q1a _ _ _ H) as (e2 & T2 & Qb).
  exists (e1 ++ e2). rewrite T2, T1, app_assoc. auto.
Qed.

Lemma returns_conseq (m : M A) (Q Q' : A -> list event -> Prop) :
  returns m Q -> (forall a evs, Q a evs -> Q' a evs) -> returns m Q'.
Proof.
  intros Hm HQ w a w' H. destruct (Hm _ _ _ H) as (evs & T & Qa). eauto.
Qed.

Lemma always_ret (P : event -> Prop) (a : A) : always P (mret a).
Proof.
  intros w o w' H. inversion H; subst. exists []. rewrite app_nil_r. auto.
Qed.

Lemma always_bind (P : event -> Prop) (m : M A) (f : A -> M B) :
  always P m -> (forall a, always P (f a)) -> always P (m ≫= f).
Proof.
  intros Hm Hf w o w'' H. unfold mbind, M_bind in H.
  destruct (m w) as [[a | e | ] w'] eqn:E.
  - destruct (Hm _ _ _ E) as (e1 & T1 & P1).
    destruct (Hf a _ _ _ H) as (e2 & T2 & P2).
    exists (e1 ++ e2). rewrite T2, T1, app_assoc. split; [reflexivity | ].
    apply Forall_app; auto.
  - inversion H; subst. eauto.
  - inversion H; subst. eauto.
Qed.

End Runs.

Lemma call_inv ev w o w' :
  call ev w = (o, w') ->
  (o = Thrown TransportError /\ w' = w) \/
  (o = Returned tt /\ trace w' = trace w ++ [ev] /\
   windowCoveringMode w' = windowCoveringMode w /\
   operationalStatus w' = operationalStatus w).
Proof.
  unfold call, record. destruct (link w) as [[ | k] | ]; intros H; inversion H; subst; cbn; auto.
Qed.

Lemma returns_call ev (Q : unit -> list event -> Prop) :
  Q tt [ev] -> returns (call ev) Q.
Proof.
  intros HQ w a w' H.
  destruct (call_inv _ _ _ _ H) as [[E _] | (_ & T & _)]; [discriminate | ].
  destruct a. eauto.
Qed.

Lemma always_call (P : event -> Prop) ev : P ev -> always P (call ev).
Proof.
  intros HP w o w' H.
  destruct (call_inv _ _ _ _ H) as [[_ ->] | (_ & T & _)].
  - exists []. rewrite app_nil_r. auto.
  - exists [ev]. auto.
Qed.

Lemma returns_sleep s (Q : unit -> list event -> Prop) :
  Q tt [Sleep s] -> returns (sleepSeconds s) Q.
Proof. intros HQ w a w' H. inversion H; subst. cbn. eauto. Qed.

Lemma always_sleep (P : event -> Prop) s : P (Sleep s) -> always P (sleepSeconds s).
Proof. intros HP w o w' H. inversion H; subst. cbn. eauto. Qed.

Lemma read_inv c attributes o w out w' :
  read c attributes o w = (out, w') ->
  (out = Thrown TransportError /\ w' = w) \/
  (out = Returned (response w) /\ trace w' = trace w ++ [Read c attributes o] /\
   windowCoveringMode w' = windowCoveringMode w).
Proof.
  unfold read. destruct (call (Read c attributes o) w) as [[[] | e | ] w1] eqn:E; intros H.
  - destruct (call_inv _ _ _ _ E) as [[? _] | (_ & T & Hm & _)]; [discriminate | ].
    inversion H; subst. right. split; [reflexivity | ].
    destruct (asks _ _); cbn; split; assumption.
  - destruct (call_inv _ _ _ _ E) as [[He ->] | (? & _)]; [ | discriminate].
    inversion H; subst. inversion He; subst. left. split; reflexivity.
  - destruct (call_inv _ _ _ _ E) as [[? _] | (? & _)]; discriminate.
Qed.

Lemma returns_read c attributes o (Q : (string -> JS.value) -> list event -> Prop) :
  (forall r, Q r [Read c attributes o]) -> returns (read c attributes o) Q.
Proof.
  intros HQ w a w' H.
  destruct (read_inv _ _ _ _ _ _ H) as [[? _] | (E & T & _)]; [discriminate | ].
  eauto.
Qed.

Lemma always_read (P : event -> Prop) c attributes o :
  P (Read c attributes o) -> always P (read c attributes o).
Proof.
  intros HP w out w' H.
  destruct (read_inv _ _ _ _ _ _ H) as [[_ ->] | (_ & T & _)].
  - exists []. rewrite app_nil_r. auto.
  - exists [Read c attributes o]. auto.
Qed.

(** One step of a sequence: the first command adds exactly its events. *)
Ltac returns_step lemma :=
  eapply returns_bind; [apply lemma | cbv beta; intros ? ? ?; subst].

Section CalibrationRuns.

Variable value : gmap string JS.value.

Lemma returns_write attributes o :
  returns (write ConfigureJ1.cluster attributes o)
    (fun _ evs => evs = [Write ConfigureJ1.cluster attributes o]).
Proof. apply returns_call. reflexivity. Qed.

Lemma returns_command name :
  returns (command ConfigureJ1.cluster name)
    (fun _ evs => evs = [Command ConfigureJ1.cluster name]).
Proof. apply returns_call. reflexivity. Qed.

Lemma returns_sleepSeconds s :
  returns (sleepSeconds s) (fun _ evs => evs = [Sleep s]).
Proof. apply returns_sleep. reflexivity. Qed.

Lemma returns_skip : returns (mret tt) (fun _ evs => evs = []).
Proof. apply returns_ret. reflexivity. Qed.

(** [writeAttrFromJson] writes the attribute when the payload has the key
    it computed, and resolves to [undefined] either way. *)
Lemma returns_writeAttrFromJson attr jsonAttr converterFunc delaySecondsAfter :
  returns (ConfigureJ1.writeAttrFromJson value attr jsonAttr converterFunc delaySecondsAfter)
    (fun r evs =>
       evs = attr_events value attr jsonAttr converterFunc delaySecondsAfter /\
       r = JS.Undefined).
Proof.
  unfold ConfigureJ1.writeAttrFromJson, attr_events, sleep_events. cbv zeta.
  destruct (JS.is_defined (get value (ConfigureJ1.jsonKey attr jsonAttr))).
  - returns_step returns_write.
    destruct delaySecondsAfter as [s | ]; [destruct (Z.eqb s 0) | ].
    + returns_step returns_skip. apply returns_ret. auto.
    + returns_step returns_sleepSeconds. apply returns_ret. auto.
    + returns_step returns_skip. apply returns_ret. auto.
  - apply returns_ret. auto.
Qed.

Lemma returns_read_events attributes o :
  returns (read ConfigureJ1.cluster attributes o)
    (fun _ evs => evs = [Read ConfigureJ1.cluster attributes o]).
Proof. apply returns_read. reflexivity. Qed.

(** When the recorded answers are used up: still polling, or, on a link
    that is used up as well, the sleep of the next round and the error of
    its read. *)
Lemma poll_O_inv w o w' :
  ConfigureJ1.poll O w = (o, w') ->
  (o = StillPolling /\ w' = w) \/
  (link w = Some O /\ o = Thrown TransportError /\ trace w' = trace w ++ [Sleep 2]).
Proof.
  destruct w as [mode feed [[ | k] | ] tr]; cbn; intros H; inversion H; subst; auto.
Qed.

Lemma returns_poll answers :
  returns (ConfigureJ1.poll answers) (fun _ evs => exists polls, evs = polling polls).
Proof.
  induction answers as [ | n IH]; cbn [ConfigureJ1.poll].
  - intros w a w' H.
    destruct (poll_O_inv _ _ _ H) as [[Ho _] | (_ & Ho & _)]; discriminate.
  - returns_step returns_sleepSeconds.
    returns_step returns_read_events.
    destruct (negb _).
    + eapply returns_conseq; [exact IH | ].
      intros _ evs (polls & ->). exists (S polls). reflexivity.
    + apply returns_ret. exists 1%nat. reflexivity.
Qed.

Lemma returns_waitUntilStopped :
  returns ConfigureJ1.waitUntilStopped (fun _ evs => exists polls, evs = wait_events polls).
Proof.
  unfold ConfigureJ1.waitUntilStopped.
  eapply returns_bind.
  - intros w a w' H. exact (returns_poll _ _ _ _ H).
  - cbv beta. intros _ e1 (polls & ->).
    apply returns_sleep. exists polls. reflexivity.
Qed.

Lemma returns_settle mode :
  returns (ConfigureJ1.settle mode) (fun _ evs => evs = settle_events mode).
Proof.
  unfold ConfigureJ1.settle, settle_events, mode_write.
  destruct (JS.ToBoolean _).
  - returns_step returns_write. apply returns_sleep. reflexivity.
  - apply returns_ret. reflexivity.
Qed.

(** The mode in use after [baseConfig] is the one the device reported: the
    test on what [writeAttrFromJson] resolved to never passes. *)
Lemma returns_baseConfig mode :
  returns (ConfigureJ1.baseConfig value mode)
    (fun mode' evs => evs = baseConfig_events value /\ mode' = mode).
Proof.
  unfold ConfigureJ1.baseConfig, baseConfig_events.
  eapply returns_bind; [apply returns_writeAttrFromJson | cbv beta; intros ? ? [-> ->]].
  eapply returns_bind; [apply returns_writeAttrFromJson | cbv beta; intros ? ? [-> ->]].
  eapply returns_bind; [apply returns_writeAttrFromJson | cbv beta; intros ? ? [-> ->]].
  apply returns_ret. rewrite app_nil_r. split; reflexivity.
Qed.

Lemma returns_calibrate mode :
  returns (ConfigureJ1.calibrate mode)
    (fun _ evs => exists p1 p2 p3 p4, evs = calibrate_events mode p1 p2 p3 p4).
Proof.
  unfold ConfigureJ1.calibrate, calibrate_events.
  returns_step returns_command.
  eapply returns_bind; [apply returns_waitUntilStopped | cbv beta; intros _ ? (p1 & ->)].
  returns_step returns_write.
  returns_step returns_sleepSeconds.
  returns_step returns_write.
  returns_step returns_sleepSeconds.
  returns_step returns_command.
  returns_step returns_sleepSeconds.
  returns_step returns_command.
  returns_step returns_sleepSeconds.
  returns_step returns_command.
  eapply returns_bind; [apply returns_waitUntilStopped | cbv beta; intros _ ? (p2 & ->)].
  returns_step returns_command.
  eapply returns_bind; [apply returns_waitUntilStopped | cbv beta; intros _ ? (p3 & ->)].
  returns_step returns_command.
  eapply returns_conseq; [apply returns_waitUntilStopped | ].
  intros _ ? (p4 & ->). exists p1, p2, p3, p4.
  reflexivity.
Qed.

Lemma returns_writeAttributes :
  returns (ConfigureJ1.writeAttributes value) (fun _ evs => evs = writeAttributes_events value).
Proof.
  unfold ConfigureJ1.writeAttributes, writeAttributes_events, attribute_names.
  do 12 (eapply returns_bind;
         [apply returns_writeAttrFromJson | cbv beta; intros ? ? [-> ->]]).
  apply returns_ret. reflexivity.
Qed.

Lemma returns_writeConvenience :
  returns (ConfigureJ1.writeConvenience value)
    (fun _ evs => evs = writeConvenience_events value).
Proof.
  unfold ConfigureJ1.writeConvenience, writeConvenience_events.
  do 4 (eapply returns_bind;
        [apply returns_writeAttrFromJson | cbv beta; intros ? ? [-> ->]]).
  apply returns_ret. rewrite app_nil_r. reflexivity.
Qed.

Lemma returns_convertGet :
  returns ConfigureJ1.convertGet (fun _ evs => evs = convertGet_events).
Proof.
  unfold ConfigureJ1.convertGet, convertGet_events.
  do 3 returns_step returns_read_events.
  apply returns_ret. reflexivity.
Qed.

Lemma returns_finalize mode :
  returns (ConfigureJ1.finalize mode) (fun _ evs => evs = finalize_events mode).
Proof.
  unfold ConfigureJ1.finalize, finalize_events.
  returns_step returns_sleepSeconds.
  returns_step returns_write.
  returns_step returns_sleepSeconds.
  eapply returns_conseq; [apply returns_convertGet | ].
  intros _ ? ->. reflexivity.
Qed.

(** The trace of a request that returns: the session of the device's mode,
    for some numbers of polls. *)
Lemma convertSet_returns w w' :
  ConfigureJ1.convertSet value w = (Returned tt, w') ->
  exists p1 p2 p3 p4,
    trace w' = trace w ++ session_events value (windowCoveringMode w) p1 p2 p3 p4.
Proof.
  unfold ConfigureJ1.convertSet. intros H. unfold mbind at 1, M_bind at 1 in H.
  destruct (read _ _ _ w) as [[r | e | ] w1] eqn:E; try discriminate.
  destruct (read_inv _ _ _ _ _ _ E) as [[? _] | (Er & T & Hm)]; [discriminate | ].
  inversion Er; subst r. clear Er. cbn in H.
  revert H.
  set (mode := windowCoveringMode w).
  intros H.
  assert (returns
    (ConfigureJ1.settle mode;;
     mode' ← ConfigureJ1.baseConfig value mode;
     (if ConfigureJ1.hasCalibrate value then ConfigureJ1.calibrate mode' else mret tt);;
     ConfigureJ1.writeAttributes value;;
     ConfigureJ1.writeConvenience value;;
     (if ConfigureJ1.hasCalibrate value then ConfigureJ1.finalize mode' else mret tt))
    (fun _ evs => exists p1 p2 p3 p4,
       Read ConfigureJ1.cluster ["windowCoveringMode"%string] NoOptions :: evs =
       session_events value mode p1 p2 p3 p4)) as Hrest.
  { unfold session_events.
    returns_step returns_settle.
    eapply returns_bind; [apply returns_baseConfig | cbv beta; intros ? ? [-> ->]].
    destruct (ConfigureJ1.hasCalibrate value).
    - eapply returns_bind;
        [apply returns_calibrate | cbv beta; intros _ ? (p1 & p2 & p3 & p4 & ->)].
      returns_step returns_writeAttributes.
      returns_step returns_writeConvenience.
      eapply returns_conseq; [apply returns_finalize | ].
      intros _ ? ->. exists p1, p2, p3, p4. reflexivity.
    - returns_step returns_skip.
      returns_step returns_writeAttributes.
      returns_step returns_writeConvenience.
      apply returns_ret. exists 0%nat, 0%nat, 0%nat, 0%nat. reflexivity. }
  destruct (Hrest _ _ _ H) as (evs & T' & p1 & p2 & p3 & p4 & Hev).
  exists p1, p2, p3, p4. rewrite T', T, <- Hev, <- app_assoc. reflexivity.
Qed.

End CalibrationRuns.

(* ===================================================================== *)
(** * What a calibration trace writes *)
(* ===================================================================== *)

Lemma writes_to_app a tr1 tr2 :
  writes_to a (tr1 ++ tr2) = writes_to a tr1 ++ writes_to a tr2.
Proof. unfold writes_to. apply flat_map_app. Qed.

Lemma writes_to_cons a ev tr :
  writes_to a (ev :: tr) = writes_to a [ev] ++ writes_to a tr.
Proof. exact (writes_to_app a [ev] tr). Qed.

Lemma writes_to_sleep_events a d : writes_to a (sleep_events d) = [].
Proof. destruct d as [s | ]; cbn; [destruct (Z.eqb s 0) | ]; reflexivity. Qed.

Lemma writes_to_attr_events a value attr jsonAttr converterFunc d :
  writes_to a (attr_events value attr jsonAttr converterFunc d) =
    if String.eqb attr a && JS.is_defined (get value (ConfigureJ1.jsonKey attr jsonAttr))
    then [Plain match converterFunc with
                | Some f => f (get value (ConfigureJ1.jsonKey attr jsonAttr))
                | None => get value (ConfigureJ1.jsonKey attr jsonAttr)
                end]
    else [].
Proof.
  unfold attr_events. cbv zeta.
  destruct (JS.is_defined _); [ | rewrite andb_false_r; reflexivity].
  rewrite writes_to_cons, writes_to_sleep_events, app_nil_r, andb_true_r.
  cbn. destruct (String.eqb attr a); reflexivity.
Qed.

Lemma writes_to_polling a polls : writes_to a (polling polls) = [].
Proof. induction polls as [ | n IH]; cbn; auto. Qed.

Lemma writes_to_wait_events a polls : writes_to a (wait_events polls) = [].
Proof. unfold wait_events. rewrite writes_to_app, writes_to_polling. reflexivity. Qed.

Lemma writes_to_settle_events mode :
  writes_to "windowCoveringMode" (settle_events mode) =
    if JS.ToBoolean (JS.bit_and mode ConfigureJ1.modeCalibrationBitMask)
    then [Plain (JS.bit_and mode (JS.bit_not ConfigureJ1.modeCalibrationBitMask))]
    else [].
Proof. unfold settle_events. destruct (JS.ToBoolean _); reflexivity. Qed.

Lemma writes_to_calibrate_events a mode p1 p2 p3 p4 :
  writes_to a (calibrate_events mode p1 p2 p3 p4) =
    writes_to a [Write ConfigureJ1.cluster ConfigureJ1.resetAttributes Ubisys] ++
    writes_to a [mode_write (JS.bit_or mode ConfigureJ1.modeCalibrationBitMask)].
Proof.
  change (calibrate_events mode p1 p2 p3 p4) with
    ([Command ConfigureJ1.cluster "upOpen"] ++ wait_events p1 ++
     [Write ConfigureJ1.cluster ConfigureJ1.resetAttributes Ubisys;
      Sleep 2;
      mode_write (JS.bit_or mode ConfigureJ1.modeCalibrationBitMask);
      Sleep 2;
      Command ConfigureJ1.cluster "downClose";
      Sleep 5;
      Command ConfigureJ1.cluster "stop";
      Sleep 2;
      Command ConfigureJ1.cluster "upOpen"] ++ wait_events p2 ++
     [Command ConfigureJ1.cluster "downClose"] ++ wait_events p3 ++
     [Command ConfigureJ1.cluster "upOpen"] ++ wait_events p4).
  rewrite !writes_to_app, !writes_to_wait_events.
  unfold writes_to. cbn [flat_map app]. rewrite !app_nil_r. reflexivity.
Qed.

(** Rewrites the writes of a session into the writes of its phases. *)
Ltac split_writes :=
  unfold session_events, baseConfig_events, writeAttributes_events, attribute_names,
    writeConvenience_events, finalize_events, convertGet_events;
  cbn [flat_map];
  repeat first
    [ rewrite writes_to_app
    | rewrite writes_to_attr_events
    | rewrite writes_to_calibrate_events
    | rewrite (writes_to_cons _ _ (_ :: _))
    | rewrite (writes_to_cons _ _ (_ ++ _)) ].

(** ** The calibration bit of the modes the session computes *)

Lemma ToInt32_of_Z z : JS.ToInt32 (JS.of_Z z) = JS.wrap32 z.
Proof. unfold JS.ToInt32, JS.of_Z. cbn. rewrite Z.quot_1_r. reflexivity. Qed.

Lemma wrap32_testbit z i :
  0 <= i < 32 -> Z.testbit (JS.wrap32 z) i = Z.testbit z i.
Proof.
  intros Hi. unfold JS.wrap32.
  rewrite <- (Z.mod_pow2_bits_low _ 32 i) by lia.
  rewrite <- (Z.mod_pow2_bits_low z 32 i) by lia.
  f_equal.
  rewrite Zminus_mod_idemp_l.
  f_equal. lia.
Qed.

Lemma calibration_bit_cleared mode :
  calibration_bit
    (Plain (JS.bit_and mode (JS.bit_not ConfigureJ1.modeCalibrationBitMask))) = false.
Proof.
  unfold calibration_bit, JS.bit_and.
  rewrite ToInt32_of_Z, !wrap32_testbit, Z.land_spec by lia.
  replace (JS.ToInt32 (JS.bit_not ConfigureJ1.modeCalibrationBitMask)) with (-3)
    by reflexivity.
  apply andb_false_r.
Qed.

Lemma calibration_bit_set mode :
  calibration_bit (Plain (JS.bit_or mode ConfigureJ1.modeCalibrationBitMask)) = true.
Proof.
  unfold calibration_bit, JS.bit_or.
  rewrite ToInt32_of_Z, !wrap32_testbit, Z.lor_spec by lia.
  replace (JS.ToInt32 ConfigureJ1.modeCalibrationBitMask) with 2 by reflexivity.
  apply orb_true_r.
Qed.

(** The run of a request, through [convertSet_returns]. *)
Lemma run_returns value mode statuses l tr :
  ConfigureJ1.run value mode statuses l = (Returned tt, tr) ->
  exists p1 p2 p3 p4, tr = session_events value mode p1 p2 p3 p4.
Proof.
  unfold ConfigureJ1.run.
  destruct (ConfigureJ1.convertSet value (start mode statuses l)) as [o w'] eqn:E.
  intros H. inversion H; subst.
  destruct (convertSet_returns _ _ _ E) as (p1 & p2 & p3 & p4 & T).
  exists p1, p2, p3, p4. exact T.
Qed.

(** Evaluates the writes of the single events that are left. *)
Ltac eval_writes :=
  unfold writes_to, mode_write, ConfigureJ1.resetAttributes;
  cbn [flat_map app fst snd String.eqb Ascii.eqb Bool.eqb andb];
  rewrite ?app_nil_r.

(** The modes a calibrating session writes, in order. *)
Lemma mode_writes_of_session value mode p1 p2 p3 p4 :
  ConfigureJ1.hasCalibrate value = true ->
  writes_to "windowCoveringMode" (session_events value mode p1 p2 p3 p4) =
    (if JS.ToBoolean (JS.bit_and mode ConfigureJ1.modeCalibrationBitMask)
     then [Plain (JS.bit_and mode (JS.bit_not ConfigureJ1.modeCalibrationBitMask))]
     else []) ++
    (if JS.is_defined (get value "windowCoveringMode")
     then [Plain (get value "windowCoveringMode")]
     else []) ++
    [Plain (JS.bit_or mode ConfigureJ1.modeCalibrationBitMask);
     Plain (JS.bit_and mode (JS.bit_not ConfigureJ1.modeCalibrationBitMask))].
Proof.
  intros Hcal.
  split_writes. rewrite Hcal. split_writes.
  rewrite writes_to_settle_events.
  change (ConfigureJ1.jsonKey "windowCoveringMode" None) with "windowCoveringMode"%string.
  eval_writes. reflexivity.
Qed.

(** C4, as stated, fails in its second half: a [windowCoveringMode] that the
    caller supplies is written as it is, before calibration is enabled. With
    [{calibrate: true, windowCoveringMode: 2}] on a device that reports mode
    0, the second call of the run writes the mode 2, whose calibration bit is
    set, ahead of the sleep, the move to the top and the write that enables
    calibration. *)
Lemma supplied_mode_sets_bit_early :
  exists rest,
    ConfigureJ1.run
      (payload [("calibrate"%string, JS.Boolean true);
                ("windowCoveringMode"%string, 2 : JS.value)])
      0 [|0; 0; 0; 0|] None =
      (Returned tt,
       Read ConfigureJ1.cluster ["windowCoveringMode"%string] NoOptions ::
       Write ConfigureJ1.cluster [("windowCoveringMode"%string, Plain 2)] Ubisys ::
       Sleep 2 ::
       Command ConfigureJ1.cluster "upOpen" :: rest) /\
    calibration_bit (Plain 2) = true /\
    writes_to "windowCoveringMode" rest = [Plain 2; Plain 0].
Proof. eexists. split; [vm_compute; reflexivity | split; reflexivity]. Qed.

(** C4, amended. When [calibrate] is present and the request returns, the
    last mode written has the calibration bit cleared, whatever else the
    payload supplies. Of the modes the session computes, only the one that
    enables calibration has the bit set, and the write that clears it follows
    directly among the writes of the mode; the mode written to cancel a
    running calibration has it cleared. A mode the caller supplies is written
    in between as given, so its bit is the caller's. *)
Theorem calibration_ends_cleared value mode statuses l tr :
  ConfigureJ1.hasCalibrate value = true ->
  ConfigureJ1.run value mode statuses l = (Returned tt, tr) ->
  let cleared := Plain (JS.bit_and mode (JS.bit_not ConfigureJ1.modeCalibrationBitMask)) in
  let enabled := Plain (JS.bit_or mode ConfigureJ1.modeCalibrationBitMask) in
  writes_to "windowCoveringMode" tr =
    (if JS.ToBoolean (JS.bit_and mode ConfigureJ1.modeCalibrationBitMask)
     then [cleared] else []) ++
    (if JS.is_defined (get value "windowCoveringMode")
     then [Plain (get value "windowCoveringMode")] else []) ++
    [enabled; cleared] /\
  last (writes_to "windowCoveringMode" tr) = Some cleared /\
  calibration_bit cleared = false /\
  calibration_bit enabled = true.
Proof.
  intros Hcal Hrun cleared enabled.
  destruct (run_returns _ _ _ _ _ Hrun) as (p1 & p2 & p3 & p4 & ->).
  rewrite (mode_writes_of_session _ _ _ _ _ _ Hcal).
  fold cleared enabled.
  split; [reflexivity | ]. split.
  - rewrite !app_assoc.
    change [enabled; cleared] with ([enabled] ++ [cleared]).
    rewrite app_assoc. apply last_snoc.
  - split; [apply calibration_bit_cleared | apply calibration_bit_set].
Qed.

Lemma calibration_ends_cleared_witness :
  exists tr,
    ConfigureJ1.run
      (payload [("calibrate"%string, JS.Boolean true);
                ("installedClosedLimitLiftCm"%string, 200 : JS.value)])
      3 [|1; 0; 0; 1; 1; 0; 0|] None = (Returned tt, tr) /\
    writes_to "windowCoveringMode" tr = [Plain 1; Plain 3; Plain 1] /\
    last (writes_to "windowCoveringMode" tr) = Some (Plain 1).
Proof.
  eexists. split; [vm_compute; reflexivity | ].
  match goal with
  | |- writes_to _ ?tr = _ /\ _ =>
      destruct (calibration_ends_cleared
                  (payload [("calibrate"%string, JS.Boolean true);
                            ("installedClosedLimitLiftCm"%string, 200 : JS.value)])
                  3 [|1; 0; 0; 1; 1; 0; 0|] None tr eq_refl eq_refl)
        as (Hwrites & Hlast & _)
  end.
  split; [exact Hwrites | exact Hlast].
Defined.

(** C2, at the failing input. The payload asks to calibrate with
    [windowCoveringMode: 4] and the device reports mode 0. The mode 4 is
    written, but the session goes on with the mode it read: calibration is
    enabled by writing 2 (not 4 | 2 = 6) and ended by writing 0 (not 4). *)
Theorem supplied_mode_not_adopted :
  exists tr,
    ConfigureJ1.run
      (payload [("calibrate"%string, JS.Boolean true);
                ("windowCoveringMode"%string, 4 : JS.value)])
      0 [|0; 0; 0; 0|] None = (Returned tt, tr) /\
    writes_to "windowCoveringMode" tr = [Plain 4; Plain 2; Plain 0] /\
    JS.bit_or 4 ConfigureJ1.modeCalibrationBitMask = 6 /\
    JS.bit_and 4 (JS.bit_not ConfigureJ1.modeCalibrationBitMask) = 4.
Proof.
  eexists. split; [vm_compute; reflexivity | ].
  split; [reflexivity | split; reflexivity].
Qed.

(** What the loop over the twelve attributes does write: an attribute of
    the list whose computed key is in the payload is written with the value
    found there. *)
Lemma listed_attribute_written value mode statuses l tr attr :
  ConfigureJ1.run value mode statuses l = (Returned tt, tr) ->
  In attr attribute_names ->
  get value (ConfigureJ1.jsonKey attr None) <> JS.Undefined ->
  In (Write ConfigureJ1.cluster
        [(attr, Plain (get value (ConfigureJ1.jsonKey attr None)))] Ubisys) tr.
Proof.
  intros Hrun Hattr Hdef. apply is_defined_true in Hdef.
  destruct (run_returns _ _ _ _ _ Hrun) as (p1 & p2 & p3 & p4 & ->).
  unfold session_events. right.
  apply in_or_app. right. apply in_or_app. right. apply in_or_app. right.
  apply in_or_app. left.
  unfold writeAttributes_events. apply in_flat_map. exists attr. split; [exact Hattr | ].
  unfold attr_events. cbv zeta. rewrite Hdef. left. reflexivity.
Qed.

(** C3, at the failing inputs. For an attribute whose name starts with
    [ubisys], the key looked up in the payload is the text of the function
    [toLowerCase] followed by the name from its eighth character on: neither
    the attribute name nor the name without its prefix. A payload that
    supplies all eight such attributes under their names, or under their
    names without the prefix, gets none of them written; the four [installed]
    attributes are written. *)
Theorem ubisys_attributes_dropped :
  ConfigureJ1.jsonKey "ubisysTotalSteps" None =
    "function toLowerCase() { [native code] }otalSteps"%string /\
  Forall (fun attr =>
            String.prefix "ubisys" attr = true ->
            String.prefix "function" (ConfigureJ1.jsonKey attr None) = true)
    attribute_names /\
  ConfigureJ1.run
    (payload [("ubisysTurnaroundGuardTime"%string, 10 : JS.value);
              ("ubisysLiftToTiltTransitionSteps"%string, 20 : JS.value);
              ("ubisysTotalSteps"%string, 100 : JS.value);
              ("ubisysLiftToTiltTransitionSteps2"%string, 20 : JS.value);
              ("ubisysTotalSteps2"%string, 100 : JS.value);
              ("ubisysAdditionalSteps"%string, 5 : JS.value);
              ("ubisysInactivePowerThreshold"%string, 4096 : JS.value);
              ("ubisysStartupSteps"%string, 3 : JS.value);
              ("turnaroundGuardTime"%string, 10 : JS.value);
              ("totalSteps"%string, 100 : JS.value);
              ("TotalSteps"%string, 100 : JS.value)])
    0 [] None =
    (Returned tt, [Read ConfigureJ1.cluster ["windowCoveringMode"%string] NoOptions]) /\
  ConfigureJ1.run
    (payload [("installedOpenLimitLiftCm"%string, 0 : JS.value);
              ("installedClosedLimitLiftCm"%string, 240 : JS.value);
              ("installedOpenLimitTiltDdegree"%string, 0 : JS.value);
              ("installedClosedLimitTiltDdegree"%string, 900 : JS.value);
              ("ubisysTotalSteps"%string, 100 : JS.value)])
    0 [] None =
    (Returned tt,
     [Read ConfigureJ1.cluster ["windowCoveringMode"%string] NoOptions;
      Write ConfigureJ1.cluster [("installedOpenLimitLiftCm"%string, Plain 0)] Ubisys;
      Write ConfigureJ1.cluster [("installedClosedLimitLiftCm"%string, Plain 240)] Ubisys;
      Write ConfigureJ1.cluster [("installedOpenLimitTiltDdegree"%string, Plain 0)] Ubisys;
      Write ConfigureJ1.cluster [("installedClosedLimitTiltDdegree"%string, Plain 900)] Ubisys]).
Proof.
  split; [reflexivity | ]. split.
  - unfold attribute_names.
    repeat (constructor; [vm_compute; intros H; first [reflexivity | discriminate H] | ]).
    constructor.
  - split; vm_compute; reflexivity.
Qed.

(** ** The convenience keys *)

Lemma writes_to_finalize_events a mode :
  String.eqb "windowCoveringMode" a = false -> writes_to a (finalize_events mode) = [].
Proof.
  intros H. unfold finalize_events, convertGet_events, mode_write, writes_to.
  cbn [flat_map fst snd app]. rewrite H. reflexivity.
Qed.

(** For an attribute other than the mode, the writes of the convenience keys
    are the last ones of a session. *)
Lemma session_ends_with_convenience value mode p1 p2 p3 p4 a :
  String.eqb "windowCoveringMode" a = false ->
  exists before,
    writes_to a (session_events value mode p1 p2 p3 p4) =
      before ++ writes_to a (writeConvenience_events value).
Proof.
  intros H. unfold session_events.
  rewrite writes_to_cons, !writes_to_app.
  assert (writes_to a (if ConfigureJ1.hasCalibrate value then finalize_events mode else []) = [])
    as ->.
  { destruct (ConfigureJ1.hasCalibrate value);
      [apply writes_to_finalize_events; exact H | reflexivity]. }
  rewrite app_nil_r, !app_assoc. eexists. reflexivity.
Qed.

Lemma get_lookup (value : gmap string JS.value) key v :
  value !! key = Some v -> get value key = v.
Proof. unfold get. intros ->. reflexivity. Qed.

Lemma get_absent (value : gmap string JS.value) key :
  value !! key = None -> get value key = JS.Undefined.
Proof. unfold get. intros ->. reflexivity. Qed.

(** The writes of the convenience keys, attribute by attribute. *)
Lemma convenience_writes value :
  let sps := ConfigureJ1.stepsPerSecond value in
  let steps key :=
    if JS.is_defined (get value key) then [Plain (JS.mul (get value key) sps)] else [] in
  let transition :=
    if JS.is_defined (get value "lift_to_tilt_transition_ms")
    then [Plain (JS.div (JS.mul (get value "lift_to_tilt_transition_ms") sps) 1000)]
    else [] in
  writes_to "ubisysTotalSteps" (writeConvenience_events value) = steps "open_to_closed_s"%string /\
  writes_to "ubisysTotalSteps2" (writeConvenience_events value) = steps "closed_to_open_s"%string /\
  writes_to "ubisysLiftToTiltTransitionSteps" (writeConvenience_events value) = transition /\
  writes_to "ubisysLiftToTiltTransitionSteps2" (writeConvenience_events value) = transition.
Proof.
  cbv zeta. unfold writeConvenience_events.
  rewrite !writes_to_app, !writes_to_attr_events.
  change (ConfigureJ1.jsonKey "ubisysTotalSteps" (Some "open_to_closed_s"%string))
    with "open_to_closed_s"%string.
  change (ConfigureJ1.jsonKey "ubisysTotalSteps2" (Some "closed_to_open_s"%string))
    with "closed_to_open_s"%string.
  change (ConfigureJ1.jsonKey "ubisysLiftToTiltTransitionSteps"
            (Some "lift_to_tilt_transition_ms"%string))
    with "lift_to_tilt_transition_ms"%string.
  change (ConfigureJ1.jsonKey "ubisysLiftToTiltTransitionSteps2"
            (Some "lift_to_tilt_transition_ms"%string))
    with "lift_to_tilt_transition_ms"%string.
  cbn [String.eqb Ascii.eqb Bool.eqb andb app].
  rewrite !app_nil_r. repeat split; reflexivity.
Qed.

Lemma ToBoolean_of_Z n : JS.ToBoolean (JS.of_Z n) = negb (n =? 0).
Proof.
  unfold JS.ToBoolean, JS.of_Z, JS.is_zero, Qeq_bool, inject_Z. cbn [Qnum Qden].
  rewrite Z.mul_1_r. destruct n; reflexivity.
Qed.

(** [value.steps_per_second || 50] *)
Lemma stepsPerSecond_of_payload (value : gmap string JS.value) :
  (forall v, value !! "steps_per_second"%string = Some v ->
     ConfigureJ1.stepsPerSecond value = if JS.ToBoolean v then v else 50) /\
  (value !! "steps_per_second"%string = None -> ConfigureJ1.stepsPerSecond value = 50).
Proof.
  unfold ConfigureJ1.stepsPerSecond, JS.or. split.
  - intros v Hv. rewrite (get_lookup _ _ _ Hv). reflexivity.
  - intros Hv. rewrite (get_absent _ _ Hv). reflexivity.
Qed.

(** C9. When the request returns: if the payload supplies [open_to_closed_s],
    the value written last to [ubisysTotalSteps] is that value times
    [stepsPerSecond]; [closed_to_open_s] likewise for [ubisysTotalSteps2];
    [lift_to_tilt_transition_ms] times [stepsPerSecond] divided by 1000 for
    both lift-to-tilt transition attributes. [stepsPerSecond] is the
    payload's [steps_per_second] when that is truthy, and 50 when it is
    absent, zero or otherwise falsy. In whole numbers: [s] seconds at [n]
    steps per second write [s * n], [s] seconds without [steps_per_second]
    write [s * 50], and [ms] milliseconds at [n] steps per second write
    [ms * n / 1000] when that is whole (products within [2 ^ 53]); a
    quotient that is not whole is written as the double nearest to it. With
    [steps_per_second: 50] and [open_to_closed_s: 10] the value is 500. *)
Theorem convenience_conversions value mode statuses l tr :
  ConfigureJ1.run value mode statuses l = (Returned tt, tr) ->
  let sps := ConfigureJ1.stepsPerSecond value in
  (forall s, value !! "open_to_closed_s"%string = Some s -> s <> JS.Undefined ->
     last (writes_to "ubisysTotalSteps" tr) = Some (Plain (JS.mul s sps))) /\
  (forall s, value !! "closed_to_open_s"%string = Some s -> s <> JS.Undefined ->
     last (writes_to "ubisysTotalSteps2" tr) = Some (Plain (JS.mul s sps))) /\
  (forall ms, value !! "lift_to_tilt_transition_ms"%string = Some ms -> ms <> JS.Undefined ->
     last (writes_to "ubisysLiftToTiltTransitionSteps" tr) =
       Some (Plain (JS.div (JS.mul ms sps) 1000)) /\
     last (writes_to "ubisysLiftToTiltTransitionSteps2" tr) =
       Some (Plain (JS.div (JS.mul ms sps) 1000))) /\
  (value !! "steps_per_second"%string = None -> sps = 50) /\
  (value !! "steps_per_second"%string = Some (50 : JS.value) ->
   value !! "open_to_closed_s"%string = Some (10 : JS.value) ->
   last (writes_to "ubisysTotalSteps" tr) = Some (Plain 500)) /\
  (forall v, value !! "steps_per_second"%string = Some v ->
     sps = if JS.ToBoolean v then v else 50) /\
  (forall s n : Z,
     value !! "steps_per_second"%string = Some (JS.of_Z n) -> n <> 0 ->
     Z.abs (s * n) <= 2 ^ 53 ->
     (value !! "open_to_closed_s"%string = Some (JS.of_Z s) ->
      last (writes_to "ubisysTotalSteps" tr) = Some (Plain (JS.of_Z (s * n)))) /\
     (value !! "closed_to_open_s"%string = Some (JS.of_Z s) ->
      last (writes_to "ubisysTotalSteps2" tr) = Some (Plain (JS.of_Z (s * n))))) /\
  (forall s : Z,
     value !! "steps_per_second"%string = None ->
     Z.abs (s * 50) <= 2 ^ 53 ->
     (value !! "open_to_closed_s"%string = Some (JS.of_Z s) ->
      last (writes_to "ubisysTotalSteps" tr) = Some (Plain (JS.of_Z (s * 50)))) /\
     (value !! "closed_to_open_s"%string = Some (JS.of_Z s) ->
      last (writes_to "ubisysTotalSteps2" tr) = Some (Plain (JS.of_Z (s * 50))))) /\
  (forall ms n steps : Z,
     value !! "steps_per_second"%string = Some (JS.of_Z n) -> n <> 0 ->
     value !! "lift_to_tilt_transition_ms"%string = Some (JS.of_Z ms) ->
     ms * n = 1000 * steps -> Z.abs (ms * n) <= 2 ^ 53 ->
     last (writes_to "ubisysLiftToTiltTransitionSteps" tr) = Some (Plain (JS.of_Z steps)) /\
     last (writes_to "ubisysLiftToTiltTransitionSteps2" tr) = Some (Plain (JS.of_Z steps))).
Proof.
  intros Hrun sps.
  destruct (run_returns _ _ _ _ _ Hrun) as (p1 & p2 & p3 & p4 & ->).
  destruct (convenience_writes value) as (H1 & H2 & H3 & H4). fold sps in H1, H2, H3, H4.
  destruct (stepsPerSecond_of_payload value) as (Hsome & Hnone). fold sps in Hsome, Hnone.
  assert (forall s, value !! "open_to_closed_s"%string = Some s -> s <> JS.Undefined ->
     last (writes_to "ubisysTotalSteps" (session_events value mode p1 p2 p3 p4)) =
       Some (Plain (JS.mul s sps))) as Hopen.
  { intros s Hs Hdef. apply is_defined_true in Hdef.
    destruct (session_ends_with_convenience value mode p1 p2 p3 p4 "ubisysTotalSteps" eq_refl)
      as (before & ->).
    rewrite H1, (get_lookup _ _ _ Hs), Hdef. apply last_snoc. }
  assert (forall s, value !! "closed_to_open_s"%string = Some s -> s <> JS.Undefined ->
     last (writes_to "ubisysTotalSteps2" (session_events value mode p1 p2 p3 p4)) =
       Some (Plain (JS.mul s sps))) as Hclose.
  { intros s Hs Hdef. apply is_defined_true in Hdef.
    destruct (session_ends_with_convenience value mode p1 p2 p3 p4 "ubisysTotalSteps2" eq_refl)
      as (before & ->).
    rewrite H2, (get_lookup _ _ _ Hs), Hdef. apply last_snoc. }
  assert (forall ms, value !! "lift_to_tilt_transition_ms"%string = Some ms ->
     ms <> JS.Undefined ->
     last (writes_to "ubisysLiftToTiltTransitionSteps" (session_events value mode p1 p2 p3 p4)) =
       Some (Plain (JS.div (JS.mul ms sps) 1000)) /\
     last (writes_to "ubisysLiftToTiltTransitionSteps2" (session_events value mode p1 p2 p3 p4)) =
       Some (Plain (JS.div (JS.mul ms sps) 1000))) as Hms.
  { intros ms Hs Hdef. apply is_defined_true in Hdef. split.
    - destruct (session_ends_with_convenience value mode p1 p2 p3 p4
                  "ubisysLiftToTiltTransitionSteps" eq_refl) as (before & ->).
      rewrite H3, (get_lookup _ _ _ Hs), Hdef. apply last_snoc.
    - destruct (session_ends_with_convenience value mode p1 p2 p3 p4
                  "ubisysLiftToTiltTransitionSteps2" eq_refl) as (before & ->).
      rewrite H4, (get_lookup _ _ _ Hs), Hdef. apply last_snoc. }
  assert (forall n, value !! "steps_per_second"%string = Some (JS.of_Z n) -> n <> 0 ->
            sps = JS.of_Z n) as Hn.
  { intros n Hv Hn0. rewrite (Hsome _ Hv), ToBoolean_of_Z.
    destruct (Z.eqb_spec n 0); [contradiction | reflexivity]. }
  split; [exact Hopen | ]. split; [exact Hclose | ]. split; [exact Hms | ].
  split; [exact Hnone | ].
  split; [ | split; [exact Hsome | split; [ | split]]].
  - intros Hsps Hs. rewrite (Hopen _ Hs) by discriminate.
    subst sps. unfold ConfigureJ1.stepsPerSecond. rewrite (get_lookup _ _ _ Hsps).
    reflexivity.
  - intros s n Hv Hn0 Hsafe. split; intros Hs.
    + rewrite (Hopen _ Hs) by discriminate. rewrite (Hn n Hv Hn0), mul_of_Z by exact Hsafe.
      reflexivity.
    + rewrite (Hclose _ Hs) by discriminate. rewrite (Hn n Hv Hn0), mul_of_Z by exact Hsafe.
      reflexivity.
  - intros s Hv Hsafe. split; intros Hs.
    + rewrite (Hopen _ Hs) by discriminate. rewrite (Hnone Hv).
      change (50 : JS.value) with (JS.of_Z 50). rewrite mul_of_Z by exact Hsafe. reflexivity.
    + rewrite (Hclose _ Hs) by discriminate. rewrite (Hnone Hv).
      change (50 : JS.value) with (JS.of_Z 50). rewrite mul_of_Z by exact Hsafe. reflexivity.
  - intros ms n steps Hv Hn0 Hs Hdiv Hsafe.
    destruct (Hms _ Hs ltac:(discriminate)) as (Ha & Hb).
    rewrite Ha, Hb, (Hn n Hv Hn0), mul_of_Z by exact Hsafe.
    change (1000 : JS.value) with (JS.of_Z 1000).
    rewrite (div_of_Z (ms * n) 1000 steps) by lia. split; reflexivity.
Qed.

Lemma convenience_conversions_witness :
  exists tr,
    ConfigureJ1.run
      (payload [("steps_per_second"%string, 20 : JS.value);
                ("open_to_closed_s"%string, 10 : JS.value);
                ("lift_to_tilt_transition_ms"%string, 1500 : JS.value)])
      0 [] None = (Returned tt, tr) /\
    last (writes_to "ubisysTotalSteps" tr) = Some (Plain 200) /\
    last (writes_to "ubisysLiftToTiltTransitionSteps" tr) = Some (Plain 30).
Proof.
  eexists. split; [vm_compute; reflexivity | ].
  match goal with
  | |- last (writes_to _ ?tr) = _ /\ _ =>
      destruct (convenience_conversions
                  (payload [("steps_per_second"%string, 20 : JS.value);
                            ("open_to_closed_s"%string, 10 : JS.value);
                            ("lift_to_tilt_transition_ms"%string, 1500 : JS.value)])
                  0 [] None tr eq_refl)
        as (_ & _ & _ & _ & _ & _ & Hsteps & _ & Hms)
  end.
  split.
  - exact (proj1 (Hsteps 10 20 eq_refl ltac:(lia) ltac:(cbn; lia)) eq_refl).
  - exact (proj1 (Hms 1500 20 30 eq_refl ltac:(lia) eq_refl ltac:(lia) ltac:(cbn; lia))).
Defined.

(** ** Requests without calibration *)

Section QuietRuns.

Variable value : gmap string JS.value.

Lemma always_writeAttrFromJson attr jsonAttr converterFunc delaySecondsAfter :
  always quiet
    (ConfigureJ1.writeAttrFromJson value attr jsonAttr converterFunc delaySecondsAfter).
Proof.
  unfold ConfigureJ1.writeAttrFromJson. cbv zeta.
  destruct (JS.is_defined _); [ | apply always_ret].
  apply always_bind; [apply always_call; exact I | intros _].
  apply always_bind; [ | intros _; apply always_ret].
  destruct delaySecondsAfter as [s | ]; [destruct (Z.eqb s 0) | ];
    first [apply always_ret | apply always_sleep; exact I].
Qed.

Lemma always_settle mode : always quiet (ConfigureJ1.settle mode).
Proof.
  unfold ConfigureJ1.settle. destruct (JS.ToBoolean _); [ | apply always_ret].
  apply always_bind; [apply always_call; exact I | intros _].
  apply always_sleep. exact I.
Qed.

(** A step of a sequence of [writeAttrFromJson]. *)
Ltac quiet_step :=
  apply always_bind; [apply always_writeAttrFromJson | intros ?].

Lemma always_baseConfig mode : always quiet (ConfigureJ1.baseConfig value mode).
Proof. unfold ConfigureJ1.baseConfig. do 3 quiet_step. apply always_ret. Qed.

Lemma always_writeAttributes : always quiet (ConfigureJ1.writeAttributes value).
Proof. unfold ConfigureJ1.writeAttributes. do 12 quiet_step. apply always_ret. Qed.

Lemma always_writeConvenience : always quiet (ConfigureJ1.writeConvenience value).
Proof. unfold ConfigureJ1.writeConvenience. do 4 quiet_step. apply always_ret. Qed.

Lemma always_convertSet :
  ConfigureJ1.hasCalibrate value = false -> always quiet (ConfigureJ1.convertSet value).
Proof.
  intros Hcal. unfold ConfigureJ1.convertSet. rewrite Hcal.
  apply always_bind; [apply always_read; reflexivity | intros response].
  apply always_bind; [apply always_settle | intros _].
  apply always_bind; [apply always_baseConfig | intros mode'].
  apply always_bind; [apply always_ret | intros _].
  apply always_bind; [apply always_writeAttributes | intros _].
  apply always_bind; [apply always_writeConvenience | intros _].
  apply always_ret.
Qed.

End QuietRuns.

Lemma quiet_no_motion ev : quiet ev -> is_command ev = false /\ polls_status ev = false.
Proof.
  destruct ev as [c attributes o | | | | ]; cbn; try tauto.
  intros ->. split; reflexivity.
Qed.

Lemma hasCalibrate_absent (value : gmap string JS.value) :
  value !! "calibrate"%string = None \/ value !! "calibrate"%string = Some JS.Null ->
  ConfigureJ1.hasCalibrate value = false.
Proof.
  unfold ConfigureJ1.hasCalibrate, get. intros [-> | ->]; reflexivity.
Qed.

(** C1, as stated, fails: [calibrate: false] is a key that is present, and
    presence is what the converter tests. With
    [{calibrate: false, installedOpenLimitLiftCm: 50}] the cover is moved
    before the attribute is written: six commands, and five reads of
    [operationalStatus] (four polls and the read-back at the end). *)
Lemma calibrate_false_calibrates :
  exists tr,
    ConfigureJ1.run
      (payload [("calibrate"%string, JS.Boolean false);
                ("installedOpenLimitLiftCm"%string, 50 : JS.value)])
      0 [|0; 0; 0; 0|] None = (Returned tt, tr) /\
    ConfigureJ1.hasCalibrate
      (payload [("calibrate"%string, JS.Boolean false);
                ("installedOpenLimitLiftCm"%string, 50 : JS.value)]) = true /\
    filter (fun ev => is_command ev = true) tr =
      [Command ConfigureJ1.cluster "upOpen"; Command ConfigureJ1.cluster "downClose";
       Command ConfigureJ1.cluster "stop"; Command ConfigureJ1.cluster "upOpen";
       Command ConfigureJ1.cluster "downClose"; Command ConfigureJ1.cluster "upOpen"] /\
    length (filter (fun ev => polls_status ev = true) tr) = 5%nat.
Proof.
  eexists. split; [vm_compute; reflexivity | ].
  split; [reflexivity | split; reflexivity].
Qed.

(* ===================================================================== *)
(** * On a working link the request returns *)
(* ===================================================================== *)

(** Unfolds the first [≫=] of a run and rewrites with what its first
    command does. *)
Ltac run_step lemma :=
  unfold mbind at 1, M_bind at 1; rewrite lemma.

(** Runs the transport calls and sleeps at the head of a run on a link
    that does not fail. *)
Ltac run_prims :=
  unfold mbind, M_bind, mret, M_ret, write, command, call, sleepSeconds, record;
  cbn [link windowCoveringMode operationalStatus trace].

Section WorkingLink.

Variable value : gmap string JS.value.
Variable mode : JS.value.

Lemma write_ok attributes o feed tr :
  write ConfigureJ1.cluster attributes o (World mode feed None tr) =
    (Returned tt, World mode feed None (tr ++ [Write ConfigureJ1.cluster attributes o])).
Proof. reflexivity. Qed.

Lemma command_ok name feed tr :
  command ConfigureJ1.cluster name (World mode feed None tr) =
    (Returned tt, World mode feed None (tr ++ [Command ConfigureJ1.cluster name])).
Proof. reflexivity. Qed.

Lemma sleep_ok s feed tr :
  sleepSeconds s (World mode feed None tr) =
    (Returned tt, World mode feed None (tr ++ [Sleep s])).
Proof. reflexivity. Qed.

Lemma writeAttrFromJson_ok attr jsonAttr converterFunc delaySecondsAfter feed tr :
  ConfigureJ1.writeAttrFromJson value attr jsonAttr converterFunc delaySecondsAfter
    (World mode feed None tr) =
    (Returned JS.Undefined,
     World mode feed None
       (tr ++ attr_events value attr jsonAttr converterFunc delaySecondsAfter)).
Proof.
  unfold ConfigureJ1.writeAttrFromJson, attr_events, sleep_events. cbv zeta.
  destruct (JS.is_defined _); [ | run_prims; rewrite app_nil_r; reflexivity].
  destruct delaySecondsAfter as [s | ]; [destruct (Z.eqb s 0) | ];
    run_prims; rewrite <- ?app_assoc; reflexivity.
Qed.

Lemma settle_ok feed tr :
  ConfigureJ1.settle mode (World mode feed None tr) =
    (Returned tt, World mode feed None (tr ++ settle_events mode)).
Proof.
  unfold ConfigureJ1.settle, settle_events.
  destruct (JS.ToBoolean _); run_prims; rewrite <- ?app_assoc, ?app_nil_r; reflexivity.
Qed.

Lemma baseConfig_ok feed tr :
  ConfigureJ1.baseConfig value mode (World mode feed None tr) =
    (Returned mode, World mode feed None (tr ++ baseConfig_events value)).
Proof.
  unfold ConfigureJ1.baseConfig, baseConfig_events.
  do 3 run_step writeAttrFromJson_ok.
  run_prims. rewrite <- !app_assoc. reflexivity.
Qed.

Lemma writeAttributes_ok feed tr :
  ConfigureJ1.writeAttributes value (World mode feed None tr) =
    (Returned tt, World mode feed None (tr ++ writeAttributes_events value)).
Proof.
  unfold ConfigureJ1.writeAttributes, writeAttributes_events, attribute_names.
  do 12 run_step writeAttrFromJson_ok.
  run_prims. cbn [flat_map]. rewrite <- !app_assoc, app_nil_r. reflexivity.
Qed.

Lemma writeConvenience_ok feed tr :
  ConfigureJ1.writeConvenience value (World mode feed None tr) =
    (Returned tt, World mode feed None (tr ++ writeConvenience_events value)).
Proof.
  unfold ConfigureJ1.writeConvenience, writeConvenience_events.
  do 4 run_step writeAttrFromJson_ok.
  run_prims. rewrite <- !app_assoc, ?app_nil_r. reflexivity.
Qed.

(** A request without calibration returns, whatever the device is doing. *)
Lemma convertSet_without_calibrate feed tr :
  ConfigureJ1.hasCalibrate value = false ->
  ConfigureJ1.convertSet value (World mode feed None tr) =
    (Returned tt, World mode feed None (tr ++ session_events value mode 0 0 0 0)).
Proof.
  intros Hcal. unfold ConfigureJ1.convertSet, session_events. rewrite Hcal.
  unfold mbind at 1, M_bind at 1. cbn [read call link asks existsb String.eqb Ascii.eqb
    Bool.eqb orb record windowCoveringMode operationalStatus trace response].
  unfold record. cbn [windowCoveringMode operationalStatus trace link].
  run_step settle_ok.
  run_step baseConfig_ok.
  unfold mbind at 1, M_bind at 1. cbn [mret M_ret].
  run_step writeAttributes_ok.
  run_step writeConvenience_ok.
  cbn [mret M_ret]. rewrite <- !app_assoc, app_nil_r. reflexivity.
Qed.

Lemma read_status_ok status feed tr :
  read ConfigureJ1.cluster ["operationalStatus"%string] NoOptions
    (World mode (status :: feed) None tr) =
    (Returned (response (World mode (status :: feed) None tr)),
     World mode feed None
       (tr ++ [Read ConfigureJ1.cluster ["operationalStatus"%string] NoOptions])).
Proof. reflexivity. Qed.

(** The loop reads on while the cover moves and leaves at the first answer
    "not moving". *)
Lemma poll_S answers :
  ConfigureJ1.poll (S answers) =
    (sleepSeconds 2;;
     response ← read ConfigureJ1.cluster ["operationalStatus"%string] NoOptions;
     if negb (JS.strict_eq (response "operationalStatus"%string) 0)
     then ConfigureJ1.poll answers else mret tt).
Proof. reflexivity. Qed.

Lemma poll_ok on_the_move : forall status rest spare tr,
  Forall moving on_the_move ->
  stopped status ->
  ConfigureJ1.poll (S (length on_the_move + spare))
    (World mode (on_the_move ++ status :: rest) None tr) =
    (Returned tt, World mode rest None (tr ++ polling (S (length on_the_move)))).
Proof.
  induction on_the_move as [ | m ms IH]; intros status rest spare tr Hmoving Hstopped;
    rewrite poll_S; cbn [length Nat.add app].
  - run_step sleep_ok. run_step read_status_ok.
    cbn [response String.eqb Ascii.eqb Bool.eqb operationalStatus hd].
    rewrite Hstopped. cbn [negb mret M_ret polling].
    rewrite <- app_assoc. reflexivity.
  - inversion Hmoving as [ | ? ? Hm Hms]; subst.
    run_step sleep_ok. run_step read_status_ok.
    cbn [response String.eqb Ascii.eqb Bool.eqb operationalStatus hd].
    rewrite Hm. cbn [negb].
    rewrite (IH status rest spare _ Hms Hstopped).
    cbn [polling]. rewrite <- !app_assoc. reflexivity.
Qed.

Lemma waitUntilStopped_ok on_the_move status :
  Forall moving on_the_move ->
  stopped status ->
  forall rest tr,
  ConfigureJ1.waitUntilStopped (World mode (on_the_move ++ status :: rest) None tr) =
    (Returned tt, World mode rest None (tr ++ wait_events (S (length on_the_move)))).
Proof.
  intros Hmoving Hstopped rest tr. unfold ConfigureJ1.waitUntilStopped, wait_events.
  unfold mbind at 1, M_bind at 1. cbn [operationalStatus].
  replace (length (on_the_move ++ status :: rest))
    with (S (length on_the_move + length rest))
    by (rewrite length_app; cbn [length]; lia).
  rewrite (poll_ok _ _ _ _ _ Hmoving Hstopped).
  run_prims. rewrite <- app_assoc. reflexivity.
Qed.

(** The learning sequence returns when the cover comes to rest four times. *)
Lemma calibrate_ok session_mode m1 s1 m2 s2 m3 s3 m4 s4 :
  Forall moving m1 -> stopped s1 ->
  Forall moving m2 -> stopped s2 ->
  Forall moving m3 -> stopped s3 ->
  Forall moving m4 -> stopped s4 ->
  forall rest tr,
  ConfigureJ1.calibrate session_mode
    (World mode (m1 ++ s1 :: m2 ++ s2 :: m3 ++ s3 :: m4 ++ s4 :: rest) None tr) =
    (Returned tt,
     World mode rest None
       (tr ++ calibrate_events session_mode
                (S (length m1)) (S (length m2)) (S (length m3)) (S (length m4)))).
Proof.
  intros Hm1 Hs1 Hm2 Hs2 Hm3 Hs3 Hm4 Hs4 rest tr.
  unfold ConfigureJ1.calibrate, calibrate_events.
  run_step command_ok.
  run_step (waitUntilStopped_ok m1 s1 Hm1 Hs1).
  run_step write_ok. run_step sleep_ok. run_step write_ok. run_step sleep_ok.
  run_step command_ok. run_step sleep_ok. run_step command_ok. run_step sleep_ok.
  run_step command_ok.
  run_step (waitUntilStopped_ok m2 s2 Hm2 Hs2).
  run_step command_ok.
  run_step (waitUntilStopped_ok m3 s3 Hm3 Hs3).
  run_step command_ok.
  rewrite (waitUntilStopped_ok m4 s4 Hm4 Hs4).
  unfold mode_write. rewrite <- !app_assoc. reflexivity.
Qed.

Lemma convertGet_ok feed tr :
  ConfigureJ1.convertGet (World mode feed None tr) =
    (Returned tt, World mode (tl feed) None (tr ++ convertGet_events)).
Proof.
  unfold ConfigureJ1.convertGet, convertGet_events.
  unfold mbind, M_bind, mret, M_ret, read, call, record.
  cbn [link windowCoveringMode operationalStatus trace asks existsb String.eqb Ascii.eqb
    Bool.eqb orb].
  rewrite <- !app_assoc. reflexivity.
Qed.

Lemma finalize_ok session_mode feed tr :
  ConfigureJ1.finalize session_mode (World mode feed None tr) =
    (Returned tt, World mode (tl feed) None (tr ++ finalize_events session_mode)).
Proof.
  unfold ConfigureJ1.finalize, finalize_events.
  run_step sleep_ok. run_step write_ok. run_step sleep_ok.
  rewrite convertGet_ok.
  unfold mode_write. rewrite <- !app_assoc. reflexivity.
Qed.

(** A request with calibration returns when the cover comes to rest four
    times. *)
Lemma convertSet_with_calibrate m1 s1 m2 s2 m3 s3 m4 s4 rest tr :
  ConfigureJ1.hasCalibrate value = true ->
  Forall moving m1 -> stopped s1 ->
  Forall moving m2 -> stopped s2 ->
  Forall moving m3 -> stopped s3 ->
  Forall moving m4 -> stopped s4 ->
  ConfigureJ1.convertSet value
    (World mode (m1 ++ s1 :: m2 ++ s2 :: m3 ++ s3 :: m4 ++ s4 :: rest) None tr) =
    (Returned tt,
     World mode (tl rest) None
       (tr ++ session_events value mode
                (S (length m1)) (S (length m2)) (S (length m3)) (S (length m4)))).
Proof.
  intros Hcal Hm1 Hs1 Hm2 Hs2 Hm3 Hs3 Hm4 Hs4.
  unfold ConfigureJ1.convertSet, session_events. rewrite Hcal.
  unfold mbind at 1, M_bind at 1. cbn [read call link asks existsb String.eqb Ascii.eqb
    Bool.eqb orb record windowCoveringMode operationalStatus trace response].
  unfold record. cbn [windowCoveringMode operationalStatus trace link].
  run_step settle_ok.
  run_step baseConfig_ok.
  run_step (calibrate_ok mode m1 s1 m2 s2 m3 s3 m4 s4 Hm1 Hs1 Hm2 Hs2 Hm3 Hs3 Hm4 Hs4).
  run_step writeAttributes_ok.
  run_step writeConvenience_ok.
  rewrite finalize_ok.
  rewrite <- !app_assoc. reflexivity.
Qed.

End WorkingLink.

(** The run of a request on a working link. *)
Lemma run_without_calibrate value mode statuses :
  ConfigureJ1.hasCalibrate value = false ->
  ConfigureJ1.run value mode statuses None =
    (Returned tt, session_events value mode 0 0 0 0).
Proof.
  intros Hcal. unfold ConfigureJ1.run, start.
  rewrite (convertSet_without_calibrate value mode statuses [] Hcal). reflexivity.
Qed.

Lemma run_with_calibrate value mode m1 s1 m2 s2 m3 s3 m4 s4 rest :
  ConfigureJ1.hasCalibrate value = true ->
  Forall moving m1 -> stopped s1 ->
  Forall moving m2 -> stopped s2 ->
  Forall moving m3 -> stopped s3 ->
  Forall moving m4 -> stopped s4 ->
  ConfigureJ1.run value mode (m1 ++ s1 :: m2 ++ s2 :: m3 ++ s3 :: m4 ++ s4 :: rest) None =
    (Returned tt,
     session_events value mode
       (S (length m1)) (S (length m2)) (S (length m3)) (S (length m4))).
Proof.
  intros Hcal Hm1 Hs1 Hm2 Hs2 Hm3 Hs3 Hm4 Hs4. unfold ConfigureJ1.run, start.
  rewrite (convertSet_with_calibrate value mode m1 s1 m2 s2 m3 s3 m4 s4 rest [] Hcal
             Hm1 Hs1 Hm2 Hs2 Hm3 Hs3 Hm4 Hs4).
  reflexivity.
Qed.

(** C1, amended. When the payload has no [calibrate] key, or has it [null],
    the request sends no command and never reads [operationalStatus],
    however the link behaves: every call is the read of the mode, a write or
    a sleep. On a working link it returns, having cancelled a running
    calibration if the device reported one and written the attributes that
    the payload supplies; for the payload [{installedOpenLimitLiftCm: 50}] on
    a device that is not calibrating that is the read of the mode and exactly
    one write. *)
Theorem without_calibrate_only_overrides value mode statuses l :
  value !! "calibrate"%string = None \/ value !! "calibrate"%string = Some JS.Null ->
  Forall quiet (ConfigureJ1.run value mode statuses l).2 /\
  Forall (fun ev => is_command ev = false /\ polls_status ev = false)
    (ConfigureJ1.run value mode statuses l).2 /\
  ConfigureJ1.run value mode statuses None =
    (Returned tt,
     Read ConfigureJ1.cluster ["windowCoveringMode"%string] NoOptions ::
     settle_events mode ++ baseConfig_events value ++
     writeAttributes_events value ++ writeConvenience_events value) /\
  (value = payload [("installedOpenLimitLiftCm"%string, 50 : JS.value)] ->
   JS.ToBoolean (JS.bit_and mode ConfigureJ1.modeCalibrationBitMask) = false ->
   ConfigureJ1.run value mode statuses None =
     (Returned tt,
      [Read ConfigureJ1.cluster ["windowCoveringMode"%string] NoOptions;
       Write ConfigureJ1.cluster [("installedOpenLimitLiftCm"%string, Plain 50)] Ubisys])).
Proof.
  intros Habsent. pose proof (hasCalibrate_absent value Habsent) as Hcal.
  assert (Forall quiet (ConfigureJ1.run value mode statuses l).2) as Hquiet.
  { unfold ConfigureJ1.run.
    destruct (ConfigureJ1.convertSet value (start mode statuses l)) as [o w'] eqn:E.
    destruct (always_convertSet value Hcal _ _ _ E) as (evs & T & Hevs).
    cbn in *. rewrite T. exact Hevs. }
  assert (ConfigureJ1.run value mode statuses None =
    (Returned tt,
     Read ConfigureJ1.cluster ["windowCoveringMode"%string] NoOptions ::
     settle_events mode ++ baseConfig_events value ++
     writeAttributes_events value ++ writeConvenience_events value)) as Hrun.
  { rewrite (run_without_calibrate value mode statuses Hcal).
    unfold session_events. rewrite Hcal, app_nil_r. reflexivity. }
  split; [exact Hquiet | ]. split; [ | split; [exact Hrun | ]].
  - eapply Forall_impl; [exact Hquiet | exact quiet_no_motion].
  - intros -> Hmode. rewrite Hrun. unfold settle_events. rewrite Hmode.
    vm_compute. reflexivity.
Qed.

Lemma without_calibrate_only_overrides_witness :
  ConfigureJ1.run (payload [("installedOpenLimitLiftCm"%string, 50 : JS.value)])
    5 [|1; 1; 1|] None =
    (Returned tt,
     [Read ConfigureJ1.cluster ["windowCoveringMode"%string] NoOptions;
      Write ConfigureJ1.cluster [("installedOpenLimitLiftCm"%string, Plain 50)] Ubisys]) /\
  Forall quiet
    (ConfigureJ1.run (payload [("installedOpenLimitLiftCm"%string, 50 : JS.value)])
       5 [|1; 1; 1|] (Some 1%nat)).2.
Proof.
  split.
  - destruct (without_calibrate_only_overrides
                (payload [("installedOpenLimitLiftCm"%string, 50 : JS.value)])
                5 [|1; 1; 1|] None (or_introl eq_refl)) as (_ & _ & _ & Hone).
    exact (Hone eq_refl eq_refl).
  - destruct (without_calibrate_only_overrides
                (payload [("installedOpenLimitLiftCm"%string, 50 : JS.value)])
                5 [|1; 1; 1|] (Some 1%nat) (or_introl eq_refl)) as (Hquiet & _).
    exact Hquiet.
Defined.

(* ===================================================================== *)
(** * Further properties of the calibration request *)
(* ===================================================================== *)

(** ** What every call of the request looks like *)

Section AnyRun.

Variable value : gmap string JS.value.
Variable P : event -> Prop.

Hypothesis P_sleep : forall s, P (Sleep s).
Hypothesis P_read : forall attributes o, P (Read ConfigureJ1.cluster attributes o).
Hypothesis P_command : forall name, P (Command ConfigureJ1.cluster name).
Hypothesis P_attribute : forall attr v,
  In attr (basic_attributes ++ attribute_names) ->
  P (Write ConfigureJ1.cluster [(attr, Plain v)] Ubisys).
Hypothesis P_mode : forall mode, P (mode_write mode).
Hypothesis P_reset : P (Write ConfigureJ1.cluster ConfigureJ1.resetAttributes Ubisys).

Lemma any_writeAttrFromJson attr jsonAttr converterFunc delaySecondsAfter :
  In attr (basic_attributes ++ attribute_names) ->
  always P (ConfigureJ1.writeAttrFromJson value attr jsonAttr converterFunc delaySecondsAfter).
Proof.
  intros Hattr. unfold ConfigureJ1.writeAttrFromJson. cbv zeta.
  destruct (JS.is_defined _); [ | apply always_ret].
  apply always_bind; [apply always_call; apply P_attribute; exact Hattr | intros _].
  apply always_bind; [ | intros _; apply always_ret].
  destruct delaySecondsAfter as [s | ]; [destruct (Z.eqb s 0) | ];
    first [apply always_ret | apply always_sleep; apply P_sleep].
Qed.

Lemma any_poll answers : always P (ConfigureJ1.poll answers).
Proof.
  induction answers as [ | n IH]; cbn [ConfigureJ1.poll].
  - intros w o w' H. destruct (poll_O_inv _ _ _ H) as [[_ ->] | (_ & _ & T)].
    + exists []. rewrite app_nil_r. auto.
    + exists [Sleep 2]. split; [exact T | ]. constructor; [apply P_sleep | constructor].
  - apply always_bind; [apply always_sleep; apply P_sleep | intros _].
    apply always_bind; [apply always_read; apply P_read | intros response].
    destruct (negb _); [exact IH | apply always_ret].
Qed.

Lemma any_waitUntilStopped : always P ConfigureJ1.waitUntilStopped.
Proof.
  unfold ConfigureJ1.waitUntilStopped.
  apply always_bind; [ | intros _; apply always_sleep; apply P_sleep].
  intros w o w' H. exact (any_poll _ _ _ _ H).
Qed.

Lemma any_convertGet : always P ConfigureJ1.convertGet.
Proof.
  unfold ConfigureJ1.convertGet.
  do 3 (apply always_bind; [apply always_read; apply P_read | intros ?]).
  apply always_ret.
Qed.

(** One step of a sequence of calls, with the property of its event left
    to the hypotheses. *)
Ltac any_step :=
  apply always_bind;
  [ first
      [ apply any_waitUntilStopped
      | apply any_writeAttrFromJson; cbn; tauto
      | apply always_sleep; apply P_sleep
      | apply always_call; first [apply P_command | apply P_mode | apply P_reset]
      | apply always_ret ]
  | intros ? ].

Lemma any_calibrate mode : always P (ConfigureJ1.calibrate mode).
Proof.
  unfold ConfigureJ1.calibrate, command, write. do 15 any_step.
  apply any_waitUntilStopped.
Qed.

Lemma any_convertSet : always P (ConfigureJ1.convertSet value).
Proof.
  unfold ConfigureJ1.convertSet.
  apply always_bind; [apply always_read; apply P_read | intros response].
  apply always_bind.
  { unfold ConfigureJ1.settle, write. destruct (JS.ToBoolean _); [ | apply always_ret].
    any_step. apply always_sleep; apply P_sleep. }
  intros _. apply always_bind.
  { unfold ConfigureJ1.baseConfig. do 3 any_step. apply always_ret. }
  intros mode'. apply always_bind.
  { destruct (ConfigureJ1.hasCalibrate value); [apply any_calibrate | apply always_ret]. }
  intros _. apply always_bind.
  { unfold ConfigureJ1.writeAttributes. do 12 any_step. apply always_ret. }
  intros _. apply always_bind.
  { unfold ConfigureJ1.writeConvenience. do 4 any_step. apply always_ret. }
  intros _. destruct (ConfigureJ1.hasCalibrate value); [ | apply always_ret].
  unfold ConfigureJ1.finalize, write. do 3 any_step. apply any_convertGet.
Qed.

End AnyRun.

(** X1. Whatever the payload, the device and the link, every attribute that
    a calibration request writes is one of those that [convertGet] reads
    back: the read-back at the end of a calibration shows everything the
    request may have changed. *)
Theorem written_attributes_are_read_back value mode statuses l :
  Forall (fun ev => is_read_back ev = true) (ConfigureJ1.run value mode statuses l).2.
Proof.
  unfold ConfigureJ1.run.
  destruct (ConfigureJ1.convertSet value (start mode statuses l)) as [o w'] eqn:E.
  assert (always (fun ev => is_read_back ev = true) (ConfigureJ1.convertSet value)) as H.
  { apply any_convertSet; try reflexivity.
    intros attr v Hattr. cbn in Hattr.
    repeat (destruct Hattr as [<- | Hattr]; [reflexivity | ]). contradiction. }
  destruct (H _ _ _ E) as (evs & T & Hevs). cbn in *. rewrite T. exact Hevs.
Qed.

(** ** Commands, polls and delays of a session *)

Lemma commands_of_app tr1 tr2 :
  commands_of (tr1 ++ tr2) = commands_of tr1 ++ commands_of tr2.
Proof. unfold commands_of. apply flat_map_app. Qed.

Lemma polls_of_app tr1 tr2 : polls_of (tr1 ++ tr2) = (polls_of tr1 + polls_of tr2)%nat.
Proof. unfold polls_of. rewrite List.filter_app, length_app. reflexivity. Qed.

Lemma no_command_no_poll tr :
  Forall (fun ev => is_command ev = false /\ is_poll ev = false) tr ->
  commands_of tr = [] /\ polls_of tr = O.
Proof.
  induction 1 as [ | ev tr [Hc Hp] _ [IHc IHp]]; [split; reflexivity | ].
  unfold commands_of, polls_of in *. cbn. rewrite Hp, IHc, IHp.
  destruct ev; try discriminate; split; reflexivity.
Qed.

Lemma attr_events_plain value attr jsonAttr converterFunc d :
  Forall (fun ev => is_command ev = false /\ is_poll ev = false)
    (attr_events value attr jsonAttr converterFunc d).
Proof.
  unfold attr_events, sleep_events. cbv zeta.
  destruct (JS.is_defined _); [ | constructor].
  destruct d as [s | ]; [destruct (Z.eqb s 0) | ]; repeat constructor.
Qed.

Lemma settle_events_plain mode :
  Forall (fun ev => is_command ev = false /\ is_poll ev = false) (settle_events mode).
Proof. unfold settle_events. destruct (JS.ToBoolean _); repeat constructor. Qed.

Lemma baseConfig_events_plain value :
  Forall (fun ev => is_command ev = false /\ is_poll ev = false) (baseConfig_events value).
Proof. unfold baseConfig_events. rewrite !Forall_app. auto using attr_events_plain. Qed.

Lemma writeAttributes_events_plain value :
  Forall (fun ev => is_command ev = false /\ is_poll ev = false)
    (writeAttributes_events value).
Proof.
  unfold writeAttributes_events. induction attribute_names as [ | attr names IH]; cbn.
  - constructor.
  - rewrite Forall_app. auto using attr_events_plain.
Qed.

Lemma writeConvenience_events_plain value :
  Forall (fun ev => is_command ev = false /\ is_poll ev = false)
    (writeConvenience_events value).
Proof. unfold writeConvenience_events. rewrite !Forall_app. auto using attr_events_plain. Qed.

Lemma finalize_events_plain mode :
  Forall (fun ev => is_command ev = false /\ is_poll ev = false) (finalize_events mode).
Proof. unfold finalize_events, convertGet_events. repeat constructor. Qed.

Lemma commands_of_polling polls : commands_of (polling polls) = [].
Proof. induction polls as [ | n IH]; cbn; auto. Qed.

Lemma polls_of_polling polls : polls_of (polling polls) = polls.
Proof.
  induction polls as [ | n IH]; [reflexivity | ].
  unfold polls_of in *. cbn. rewrite IH. reflexivity.
Qed.

Lemma commands_of_wait_events polls : commands_of (wait_events polls) = [].
Proof. unfold wait_events. rewrite commands_of_app, commands_of_polling. reflexivity. Qed.

Lemma polls_of_wait_events polls : polls_of (wait_events polls) = polls.
Proof.
  unfold wait_events. rewrite polls_of_app, polls_of_polling. cbn. lia.
Qed.

(** The learning sequence as a concatenation. *)
Lemma calibrate_events_split mode p1 p2 p3 p4 :
  calibrate_events mode p1 p2 p3 p4 =
    [Command ConfigureJ1.cluster "upOpen"] ++ wait_events p1 ++
    [Write ConfigureJ1.cluster ConfigureJ1.resetAttributes Ubisys;
     Sleep 2;
     mode_write (JS.bit_or mode ConfigureJ1.modeCalibrationBitMask);
     Sleep 2;
     Command ConfigureJ1.cluster "downClose";
     Sleep 5;
     Command ConfigureJ1.cluster "stop";
     Sleep 2;
     Command ConfigureJ1.cluster "upOpen"] ++ wait_events p2 ++
    [Command ConfigureJ1.cluster "downClose"] ++ wait_events p3 ++
    [Command ConfigureJ1.cluster "upOpen"] ++ wait_events p4.
Proof. reflexivity. Qed.

Lemma commands_of_calibrate_events mode p1 p2 p3 p4 :
  commands_of (calibrate_events mode p1 p2 p3 p4) =
    ["upOpen"; "downClose"; "stop"; "upOpen"; "downClose"; "upOpen"]%string.
Proof.
  rewrite calibrate_events_split, !commands_of_app, !commands_of_wait_events. reflexivity.
Qed.

Lemma polls_of_calibrate_events mode p1 p2 p3 p4 :
  polls_of (calibrate_events mode p1 p2 p3 p4) = (p1 + p2 + p3 + p4)%nat.
Proof.
  rewrite calibrate_events_split, !polls_of_app, !polls_of_wait_events. cbn. lia.
Qed.

Lemma commands_and_polls_of_session value mode p1 p2 p3 p4 :
  commands_of (session_events value mode p1 p2 p3 p4) =
    (if ConfigureJ1.hasCalibrate value
     then ["upOpen"; "downClose"; "stop"; "upOpen"; "downClose"; "upOpen"]%string
     else []) /\
  polls_of (session_events value mode p1 p2 p3 p4) =
    if ConfigureJ1.hasCalibrate value then (p1 + p2 + p3 + p4)%nat else O.
Proof.
  unfold session_events.
  change (Read ConfigureJ1.cluster ["windowCoveringMode"%string] NoOptions :: ?tr)
    with ([Read ConfigureJ1.cluster ["windowCoveringMode"%string] NoOptions] ++ tr).
  rewrite !commands_of_app, !polls_of_app.
  destruct (no_command_no_poll _ (settle_events_plain mode)) as [-> ->].
  destruct (no_command_no_poll _ (baseConfig_events_plain value)) as [-> ->].
  destruct (no_command_no_poll _ (writeAttributes_events_plain value)) as [-> ->].
  destruct (no_command_no_poll _ (writeConvenience_events_plain value)) as [-> ->].
  destruct (ConfigureJ1.hasCalibrate value).
  - destruct (no_command_no_poll _ (finalize_events_plain mode)) as [-> ->].
    rewrite commands_of_calibrate_events, polls_of_calibrate_events.
    split; [reflexivity | cbn; lia].
  - split; reflexivity.
Qed.

(** X2. A calibration request that returns has sent, whatever the payload
    and the link: with [calibrate] present, exactly the six commands open,
    close, stop, open, close, open, in this order, the last movement being
    the one that opens the cover; without it, no command at all. *)
Theorem commands_of_a_request value mode statuses l tr :
  ConfigureJ1.run value mode statuses l = (Returned tt, tr) ->
  commands_of tr =
    if ConfigureJ1.hasCalibrate value
    then ["upOpen"; "downClose"; "stop"; "upOpen"; "downClose"; "upOpen"]%string
    else [].
Proof.
  intros Hrun. destruct (run_returns _ _ _ _ _ Hrun) as (p1 & p2 & p3 & p4 & ->).
  apply commands_and_polls_of_session.
Qed.

Lemma commands_of_a_request_witness :
  exists tr,
    ConfigureJ1.run (payload [("calibrate"%string, 1 : JS.value)]) 0
      [|1; 0; 0; 1; 0; 0|] (Some 40%nat) = (Returned tt, tr) /\
    commands_of tr = ["upOpen"; "downClose"; "stop"; "upOpen"; "downClose"; "upOpen"]%string.
Proof.
  eexists. split; [vm_compute; reflexivity | ].
  match goal with
  | |- commands_of ?tr = _ =>
      exact (commands_of_a_request (payload [("calibrate"%string, 1 : JS.value)]) 0
               [|1; 0; 0; 1; 0; 0|] (Some 40%nat) tr eq_refl)
  end.
Defined.

(** X3. On a working link a request with [calibrate] returns as soon as the
    cover has come to rest four times (once per wait): the answers of the
    device are read up to the fourth "not moving", each wait polls once per
    "moving" answer plus once for the "not moving" one, and what the device
    would answer afterwards plays no part. *)
Theorem calibration_returns_when_cover_rests value mode m1 s1 m2 s2 m3 s3 m4 s4 rest :
  ConfigureJ1.hasCalibrate value = true ->
  Forall moving m1 -> stopped s1 ->
  Forall moving m2 -> stopped s2 ->
  Forall moving m3 -> stopped s3 ->
  Forall moving m4 -> stopped s4 ->
  exists tr,
    ConfigureJ1.run value mode (m1 ++ s1 :: m2 ++ s2 :: m3 ++ s3 :: m4 ++ s4 :: rest) None =
      (Returned tt, tr) /\
    ConfigureJ1.run value mode (m1 ++ s1 :: m2 ++ s2 :: m3 ++ s3 :: m4 ++ [s4]) None =
      (Returned tt, tr) /\
    polls_of tr = (length m1 + length m2 + length m3 + length m4 + 4)%nat.
Proof.
  intros Hcal Hm1 Hs1 Hm2 Hs2 Hm3 Hs3 Hm4 Hs4.
  exists (session_events value mode
            (S (length m1)) (S (length m2)) (S (length m3)) (S (length m4))).
  split; [ | split].
  - apply run_with_calibrate; assumption.
  - apply (run_with_calibrate value mode m1 s1 m2 s2 m3 s3 m4 s4 []); assumption.
  - rewrite (proj2 (commands_and_polls_of_session _ _ _ _ _ _)), Hcal. lia.
Qed.

Lemma calibration_returns_when_cover_rests_witness :
  exists tr,
    ConfigureJ1.run (payload [("calibrate"%string, JS.Boolean true)]) 0
      [|1; 1; 0; 0; 4; 0; 0; 7; 7|] None = (Returned tt, tr) /\
    polls_of tr = 7%nat.
Proof.
  assert (stopped 0) as H0 by reflexivity.
  assert (moving 1) as H1 by reflexivity.
  assert (moving 4) as H4 by reflexivity.
  destruct (calibration_returns_when_cover_rests
              (payload [("calibrate"%string, JS.Boolean true)]) 0
              [|1; 1|] 0 [] 0 [|4|] 0 [] 0 [|7; 7|] eq_refl
              (List.Forall_cons _ _ _ H1 (List.Forall_cons _ _ _ H1 (List.Forall_nil _))) H0
              (List.Forall_nil _) H0
              (List.Forall_cons _ _ _ H4 (List.Forall_nil _)) H0
              (List.Forall_nil _) H0) as (tr & Hrun & _ & Hpolls).
  exists tr. split; [exact Hrun | exact Hpolls].
Defined.

(** While every answer says "moving", the first wait goes on. *)
Lemma poll_while_moving mode feed : forall tr,
  Forall moving feed ->
  ConfigureJ1.poll (length feed) (World mode feed None tr) =
    (StillPolling, World mode [] None (tr ++ polling (length feed))).
Proof.
  induction feed as [ | status feed IH]; intros tr Hmoving.
  - cbn. rewrite app_nil_r. reflexivity.
  - inversion Hmoving as [ | ? ? Hm Hms]; subst.
    cbn [length]. rewrite poll_S.
    run_step sleep_ok. run_step read_status_ok.
    cbn [response String.eqb Ascii.eqb Bool.eqb operationalStatus hd].
    rewrite Hm. cbn [negb]. rewrite (IH _ Hms).
    cbn [polling]. rewrite <- !app_assoc. reflexivity.
Qed.

(** X4. The wait has no limit of its own: on a working link, as long as
    every answer of the device says "moving", a request with [calibrate] is
    still polling, having sent the one command to open and read the status
    once per answer; calibration has not been enabled and no attribute of
    the learning sequence has been written. *)
Theorem calibration_waits_while_moving value mode statuses :
  ConfigureJ1.hasCalibrate value = true ->
  Forall moving statuses ->
  ConfigureJ1.run value mode statuses None =
    (StillPolling,
     Read ConfigureJ1.cluster ["windowCoveringMode"%string] NoOptions ::
     settle_events mode ++ baseConfig_events value ++
     Command ConfigureJ1.cluster "upOpen" :: polling (length statuses)).
Proof.
  intros Hcal Hmoving. unfold ConfigureJ1.run, start, ConfigureJ1.convertSet.
  rewrite Hcal.
  unfold mbind at 1, M_bind at 1. cbn [read call link asks existsb String.eqb Ascii.eqb
    Bool.eqb orb record windowCoveringMode operationalStatus trace response].
  unfold record. cbn [windowCoveringMode operationalStatus trace link].
  run_step settle_ok.
  run_step baseConfig_ok.
  unfold mbind at 1, M_bind at 1.
  unfold ConfigureJ1.calibrate.
  run_step command_ok.
  unfold mbind at 1, M_bind at 1.
  unfold ConfigureJ1.waitUntilStopped.
  unfold mbind at 1, M_bind at 1. cbn [operationalStatus].
  rewrite (poll_while_moving mode statuses _ Hmoving).
  cbn [trace app]. rewrite <- !app_assoc. reflexivity.
Qed.

Lemma calibration_waits_while_moving_witness :
  ConfigureJ1.run (payload [("calibrate"%string, JS.Boolean true)]) 0 [|1; 2; 1|] None =
    (StillPolling,
     [Read ConfigureJ1.cluster ["windowCoveringMode"%string] NoOptions;
      Command ConfigureJ1.cluster "upOpen";
      Sleep 2; Read ConfigureJ1.cluster ["operationalStatus"%string] NoOptions;
      Sleep 2; Read ConfigureJ1.cluster ["operationalStatus"%string] NoOptions;
      Sleep 2; Read ConfigureJ1.cluster ["operationalStatus"%string] NoOptions]).
Proof.
  assert (moving 1) as H1 by reflexivity.
  assert (moving 2) as H2 by reflexivity.
  exact (calibration_waits_while_moving
           (payload [("calibrate"%string, JS.Boolean true)]) 0 [|1; 2; 1|] eq_refl
           (List.Forall_cons _ _ _ H1 (List.Forall_cons _ _ _ H2
              (List.Forall_cons _ _ _ H1 (List.Forall_nil _))))).
Defined.


(** ** The pause after a write of the basic configuration *)

Lemma delayed_app tr1 tr2 : forall pending,
  delayed pending tr1 = true ->
  delayed pending (tr1 ++ tr2) = delayed false tr2.
Proof.
  induction tr1 as [ | ev tr1 IH]; intros pending H; cbn in *.
  - destruct pending; [discriminate | reflexivity].
  - destruct pending.
    + apply andb_prop in H as [Hd Hrest]. rewrite Hd, (IH _ Hrest). reflexivity.
    + apply IH. exact H.
Qed.

Section PacedRuns.

Variable value : gmap string JS.value.

Lemma paced_ret {A} (a : A) : paced (mret a).
Proof.
  intros w o w' H. inversion H; subst. exists []. rewrite app_nil_r. auto.
Qed.

Lemma paced_bind {A B} (m : M A) (f : A -> M B) :
  paced m -> (forall a, paced (f a)) -> paced (m ≫= f).
Proof.
  intros Hm Hf w o w' H. unfold mbind, M_bind in H.
  destruct (m w) as [[a | e | ] w1] eqn:E.
  - destruct (Hm _ _ _ E) as (evs1 & T1 & D1).
    destruct (Hf a _ _ _ H) as (evs2 & T2 & D2).
    exists (evs1 ++ evs2). rewrite T2, T1, app_assoc. split; [reflexivity | ].
    rewrite (delayed_app _ _ _ D1). exact D2.
  - inversion H; subst. exact (Hm _ _ _ E).
  - inversion H; subst. exact (Hm _ _ _ E).
Qed.

Lemma paced_call ev : is_basic_write ev = false -> paced (call ev).
Proof.
  intros Hev w o w' H. unfold call, record in H.
  destruct (link w) as [[ | k] | ]; inversion H; subst; cbn [trace].
  - exists []. rewrite app_nil_r. auto.
  - exists [ev]. cbn. rewrite Hev. auto.
  - exists [ev]. cbn. rewrite Hev. auto.
Qed.

Lemma paced_sleep s : paced (sleepSeconds s).
Proof.
  intros w o w' H. inversion H; subst. exists [Sleep s]. auto.
Qed.

Lemma paced_read attributes o : paced (read ConfigureJ1.cluster attributes o).
Proof.
  intros w out w' H. unfold read in H.
  destruct (call (Read ConfigureJ1.cluster attributes o) w) as [[[] | e | ] w1] eqn:E;
    destruct (paced_call (Read ConfigureJ1.cluster attributes o) eq_refl _ _ _ E)
      as (evs & T & D);
    inversion H; subst; exists evs; (split; [ | exact D]);
    first [exact T | destruct (asks "operationalStatus" attributes); exact T].
Qed.

(** A write that the source follows with [sleepSeconds(2)]. *)
Lemma paced_write_then_sleep {A} attributes o (k : M A) :
  paced k ->
  paced (write ConfigureJ1.cluster attributes o;; sleepSeconds 2;; k).
Proof.
  intros Hk w out w' H.
  unfold mbind at 1 2, M_bind at 1 2, write, call, sleepSeconds, record in H.
  destruct (link w) as [[ | n] | ]; cbn [trace windowCoveringMode operationalStatus link] in H.
  - inversion H; subst. exists []. rewrite app_nil_r. auto.
  - destruct (Hk _ _ _ H) as (evs & T & D). cbn [trace] in T.
    exists (Write ConfigureJ1.cluster attributes o :: Sleep 2 :: evs).
    split; [rewrite T, <- !app_assoc; reflexivity | ].
    cbn. destruct (existsb _ attributes); exact D.
  - destruct (Hk _ _ _ H) as (evs & T & D). cbn [trace] in T.
    exists (Write ConfigureJ1.cluster attributes o :: Sleep 2 :: evs).
    split; [rewrite T, <- !app_assoc; reflexivity | ].
    cbn. destruct (existsb _ attributes); exact D.
Qed.

Lemma paced_write_sleep attributes o :
  paced (write ConfigureJ1.cluster attributes o;; sleepSeconds 2).
Proof.
  intros w out w' H.
  unfold mbind, M_bind, write, call, sleepSeconds, record in H.
  destruct (link w) as [[ | n] | ]; cbn [trace windowCoveringMode operationalStatus link] in H;
    inversion H; subst; cbn [trace].
  - exists []. rewrite app_nil_r. auto.
  - exists [Write ConfigureJ1.cluster attributes o; Sleep 2].
    split; [rewrite <- !app_assoc; reflexivity | ].
    cbn. destruct (existsb _ attributes); reflexivity.
  - exists [Write ConfigureJ1.cluster attributes o; Sleep 2].
    split; [rewrite <- !app_assoc; reflexivity | ].
    cbn. destruct (existsb _ attributes); reflexivity.
Qed.

Lemma paced_writeAttrFromJson attr jsonAttr converterFunc delaySecondsAfter :
  existsb (String.eqb attr) basic_attributes = false \/ delaySecondsAfter = Some 2 ->
  paced (ConfigureJ1.writeAttrFromJson value attr jsonAttr converterFunc delaySecondsAfter).
Proof.
  intros Hd. unfold ConfigureJ1.writeAttrFromJson. cbv zeta.
  destruct (JS.is_defined _); [ | apply paced_ret].
  destruct Hd as [Hattr | ->].
  - apply paced_bind; [ | intros ?; apply paced_bind; [ | intros ?; apply paced_ret]].
    + apply paced_call.
      change (existsb (String.eqb attr) basic_attributes || false = false).
      rewrite Hattr. reflexivity.
    + destruct delaySecondsAfter as [s | ]; [destruct (Z.eqb s 0) | ];
        first [apply paced_ret | apply paced_sleep].
  - cbn [Z.eqb]. apply paced_write_then_sleep, paced_ret.
Qed.

Lemma paced_poll answers : paced (ConfigureJ1.poll answers).
Proof.
  induction answers as [ | n IH]; cbn [ConfigureJ1.poll].
  - intros w o w' H. destruct (poll_O_inv _ _ _ H) as [[_ ->] | (_ & _ & T)].
    + exists []. rewrite app_nil_r. auto.
    + exists [Sleep 2]. split; [exact T | reflexivity].
  - apply paced_bind; [apply paced_sleep | intros _].
    apply paced_bind; [apply paced_read | intros response].
    destruct (negb _); [exact IH | apply paced_ret].
Qed.

Lemma paced_waitUntilStopped : paced ConfigureJ1.waitUntilStopped.
Proof.
  unfold ConfigureJ1.waitUntilStopped.
  apply paced_bind; [ | intros _; apply paced_sleep].
  intros w o w' H. exact (paced_poll _ _ _ _ H).
Qed.

Lemma paced_convertGet : paced ConfigureJ1.convertGet.
Proof.
  unfold ConfigureJ1.convertGet.
  repeat (apply paced_bind; [apply paced_read | intros ?]). apply paced_ret.
Qed.

Lemma paced_convertSet : paced (ConfigureJ1.convertSet value).
Proof.
  unfold ConfigureJ1.convertSet.
  apply paced_bind; [apply paced_read | intros response].
  apply paced_bind.
  { unfold ConfigureJ1.settle. destruct (JS.ToBoolean _); [ | apply paced_ret].
    apply paced_write_sleep. }
  intros _. apply paced_bind.
  { unfold ConfigureJ1.baseConfig.
    repeat (apply paced_bind; [apply paced_writeAttrFromJson; right; reflexivity | intros ?]).
    apply paced_ret. }
  intros mode. apply paced_bind.
  { destruct (ConfigureJ1.hasCalibrate value); [ | apply paced_ret].
    unfold ConfigureJ1.calibrate.
    apply paced_bind; [apply paced_call; reflexivity | intros _].
    apply paced_bind; [apply paced_waitUntilStopped | intros _].
    apply paced_bind; [apply paced_call; reflexivity | intros _].
    apply paced_bind; [apply paced_sleep | intros _].
    apply paced_write_then_sleep.
    apply paced_bind; [apply paced_call; reflexivity | intros _].
    apply paced_bind; [apply paced_sleep | intros _].
    apply paced_bind; [apply paced_call; reflexivity | intros _].
    apply paced_bind; [apply paced_sleep | intros _].
    apply paced_bind; [apply paced_call; reflexivity | intros _].
    apply paced_bind; [apply paced_waitUntilStopped | intros _].
    apply paced_bind; [apply paced_call; reflexivity | intros _].
    apply paced_bind; [apply paced_waitUntilStopped | intros _].
    apply paced_bind; [apply paced_call; reflexivity | intros _].
    apply paced_waitUntilStopped. }
  intros _. apply paced_bind.
  { unfold ConfigureJ1.writeAttributes.
    repeat (apply paced_bind; [apply paced_writeAttrFromJson; left; reflexivity | intros ?]).
    apply paced_ret. }
  intros _. apply paced_bind.
  { unfold ConfigureJ1.writeConvenience.
    repeat (apply paced_bind; [apply paced_writeAttrFromJson; left; reflexivity | intros ?]).
    apply paced_ret. }
  intros _. destruct (ConfigureJ1.hasCalibrate value); [ | apply paced_ret].
  unfold ConfigureJ1.finalize.
  apply paced_bind; [apply paced_sleep | intros _].
  apply paced_write_then_sleep, paced_convertGet.
Qed.

End PacedRuns.

(** X5. However a request ends (it returns, the link fails, or the cover
    never comes to rest) and whatever the payload, every write of
    [windowCoveringType], [configStatus] or [windowCoveringMode] in its trace
    is directly followed by a pause of two seconds: no call reaches the
    device in between. *)
Theorem basic_writes_are_followed_by_a_pause value mode statuses l :
  delayed false (ConfigureJ1.run value mode statuses l).2 = true.
Proof.
  unfold ConfigureJ1.run.
  destruct (ConfigureJ1.convertSet value (start mode statuses l)) as [o w'] eqn:E.
  destruct (paced_convertSet value _ _ _ E) as (evs & T & D).
  cbn in T. cbn [snd]. rewrite T. exact D.
Qed.

(** ** Keys of the payload that start with [ubisys] *)

Lemma jsonKey_not_ubisys attr jsonAttr :
  String.prefix "ubisys" (ConfigureJ1.jsonKey attr jsonAttr) = false.
Proof.
  unfold ConfigureJ1.jsonKey. cbv zeta.
  match goal with
  | |- context [if String.prefix "ubisys" ?s then _ else _] =>
      destruct (String.prefix "ubisys" s) eqn:E; [reflexivity | exact E]
  end.
Qed.

Lemma get_insert_ubisys (value : gmap string JS.value) k v key :
  String.prefix "ubisys" k = true ->
  String.prefix "ubisys" key = false ->
  get (<[k := v]> value) key = get value key.
Proof.
  intros Hk Hkey. unfold get. rewrite lookup_insert_ne; [reflexivity | congruence].
Qed.

Lemma writeAttrFromJson_insert_ubisys value k v attr jsonAttr converterFunc d :
  String.prefix "ubisys" k = true ->
  ConfigureJ1.writeAttrFromJson (<[k := v]> value) attr jsonAttr converterFunc d =
  ConfigureJ1.writeAttrFromJson value attr jsonAttr converterFunc d.
Proof.
  intros Hk. unfold ConfigureJ1.writeAttrFromJson.
  rewrite (get_insert_ubisys value k v _ Hk (jsonKey_not_ubisys attr jsonAttr)).
  reflexivity.
Qed.

Lemma convertSet_insert_ubisys value k v :
  String.prefix "ubisys" k = true ->
  ConfigureJ1.convertSet (<[k := v]> value) = ConfigureJ1.convertSet value.
Proof.
  intros Hk.
  unfold ConfigureJ1.convertSet, ConfigureJ1.baseConfig, ConfigureJ1.writeAttributes,
    ConfigureJ1.writeConvenience, ConfigureJ1.hasCalibrate, ConfigureJ1.stepsPerSecond.
  rewrite !(writeAttrFromJson_insert_ubisys value k v) by exact Hk.
  rewrite (get_insert_ubisys value k v "windowCoveringMode" Hk eq_refl).
  rewrite (get_insert_ubisys value k v "calibrate" Hk eq_refl).
  rewrite (get_insert_ubisys value k v "steps_per_second" Hk eq_refl).
  reflexivity.
Qed.

(** X6. No key of the payload that starts with [ubisys] is ever read: adding
    such a key to a payload, or changing its value, changes neither the
    outcome of the request nor a single event of its trace, whatever the
    device answers and however the link behaves. *)
Theorem ubisys_keys_are_never_read value k v mode statuses l :
  String.prefix "ubisys" k = true ->
  ConfigureJ1.run (<[k := v]> value) mode statuses l = ConfigureJ1.run value mode statuses l.
Proof.
  intros Hk. unfold ConfigureJ1.run. rewrite (convertSet_insert_ubisys value k v Hk).
  reflexivity.
Qed.

Lemma ubisys_keys_are_never_read_witness :
  ConfigureJ1.run
    (<["ubisysStartupSteps"%string := JS.of_Z 40]>
       (payload [("installedClosedLimitLiftCm"%string, JS.of_Z 200)])) 0 [] None =
  ConfigureJ1.run (payload [("installedClosedLimitLiftCm"%string, JS.of_Z 200)]) 0 [] None.
Proof.
  exact (ubisys_keys_are_never_read
           (payload [("installedClosedLimitLiftCm"%string, JS.of_Z 200)])
           "ubisysStartupSteps" (JS.of_Z 40) 0 [] None eq_refl).
Defined.

(* ===================================================================== *)
(** * When the link fails *)
(* ===================================================================== *)

(** Nothing in the converters catches an exception of the endpoint: a run
    on a link that carries [k] calls is the run on a working link, cut before
    call [k + 1]. *)

Lemma calls_app tr1 tr2 : calls (tr1 ++ tr2) = (calls tr1 + calls tr2)%nat.
Proof.
  induction tr1 as [ | ev tr1 IH]; cbn; [reflexivity | ].
  destruct (is_call ev); rewrite IH; reflexivity.
Qed.

Lemma cut_app_lt tr1 tr2 : forall k,
  (k < calls tr1)%nat -> cut k (tr1 ++ tr2) = cut k tr1.
Proof.
  induction tr1 as [ | ev tr1 IH]; intros k Hk; cbn in *; [lia | ].
  destruct (is_call ev).
  - destruct k as [ | k]; [reflexivity | ]. rewrite IH by lia. reflexivity.
  - rewrite IH by lia. reflexivity.
Qed.

Lemma cut_app_ge tr1 tr2 : forall k,
  (calls tr1 <= k)%nat -> cut k (tr1 ++ tr2) = tr1 ++ cut (k - calls tr1) tr2.
Proof.
  induction tr1 as [ | ev tr1 IH]; intros k Hk; cbn in *.
  - rewrite Nat.sub_0_r. reflexivity.
  - destruct (is_call ev).
    + destruct k as [ | k]; [lia | ]. rewrite IH by lia. reflexivity.
    + rewrite IH by lia. reflexivity.
Qed.

Section FailingLink.

Lemma truncates_ret {A} (a : A) : truncates (mret a).
Proof.
  intros mode feed tr0. exists (Returned a), feed, [].
  rewrite app_nil_r. split; [reflexivity | ].
  intros k. split; [ | split].
  - cbn. lia.
  - discriminate.
  - intros _ _. cbn. rewrite Nat.sub_0_r. reflexivity.
Qed.

Lemma truncates_throw {A} e : truncates (@throw A e).
Proof.
  intros mode feed tr0. exists (Thrown e), feed, [].
  rewrite app_nil_r. split; [reflexivity | ].
  intros k. split; [ | split].
  - cbn. lia.
  - discriminate.
  - intros _ _. cbn. rewrite Nat.sub_0_r. reflexivity.
Qed.

Lemma truncates_sleep s : truncates (sleepSeconds s).
Proof.
  intros mode feed tr0. exists (Returned tt), feed, [Sleep s].
  split; [reflexivity | ].
  intros k. split; [ | split].
  - cbn. lia.
  - discriminate.
  - intros _ _. cbn. rewrite Nat.sub_0_r. reflexivity.
Qed.

Lemma truncates_call ev : is_call ev = true -> truncates (call ev).
Proof.
  intros Hev mode feed tr0. exists (Returned tt), feed, [ev].
  split; [reflexivity | ].
  intros k. cbn [calls]. rewrite Hev. split; [ | split].
  - intros Hk. destruct k as [ | k]; [ | lia].
    exists feed. cbn. rewrite Hev, app_nil_r. reflexivity.
  - discriminate.
  - intros Hk _. destruct k as [ | k]; [lia | ].
    cbn. rewrite Nat.sub_0_r. reflexivity.
Qed.

Lemma truncates_read cluster attributes o : truncates (read cluster attributes o).
Proof.
  intros mode feed tr0.
  exists (Returned (response (World mode feed None tr0))),
    (if asks "operationalStatus" attributes then tl feed else feed),
    [Read cluster attributes o].
  split.
  - unfold read, call, record. cbn. destruct (asks _ _); reflexivity.
  - intros k. cbn [calls is_call]. split; [ | split].
    + intros Hk. destruct k as [ | k]; [ | lia].
      exists feed. unfold read, call. cbn. rewrite app_nil_r. reflexivity.
    + discriminate.
    + intros Hk _. destruct k as [ | k]; [lia | ].
      unfold read, call. cbn. rewrite Nat.sub_0_r. destruct (asks _ _); reflexivity.
Qed.

Lemma truncates_bind {A B} (m : M A) (f : A -> M B) :
  truncates m -> (forall a, truncates (f a)) -> truncates (m ≫= f).
Proof.
  intros Hm Hf mode feed tr0.
  destruct (Hm mode feed tr0) as (o & feed1 & evs & Hnone & Hsome).
  destruct o as [a | e | ].
  - destruct (Hf a mode feed1 (tr0 ++ evs)) as (o' & feed1' & evs' & Hnone' & Hsome').
    exists o', feed1', (evs ++ evs'). split.
    + unfold mbind, M_bind. rewrite Hnone, Hnone', app_assoc. reflexivity.
    + intros k. rewrite calls_app.
      assert (forall j, (calls evs <= j)%nat ->
                m (World mode feed (Some j) tr0) =
                  (Returned a, World mode feed1 (Some (j - calls evs)%nat) (tr0 ++ evs)))
        as Hret.
      { intros j Hj. destruct (Hsome j) as (_ & _ & H3). apply H3; [exact Hj | reflexivity]. }
      split; [ | split].
      * intros Hk. destruct (le_lt_dec (calls evs) k) as [Hle | Hlt].
        -- destruct (Hsome' (k - calls evs)%nat) as (H1 & _ & _).
           destruct H1 as (feed2 & Hrun); [lia | ].
           exists feed2. unfold mbind, M_bind. rewrite (Hret k Hle), Hrun.
           rewrite cut_app_ge by lia. rewrite app_assoc. reflexivity.
        -- destruct (Hsome k) as (H1 & _ & _). destruct (H1 Hlt) as (feed2 & Hrun).
           exists feed2. unfold mbind, M_bind. rewrite Hrun.
           rewrite cut_app_lt by lia. reflexivity.
      * intros Hk Hpoll. destruct (Hsome' (k - calls evs)%nat) as (_ & H2 & _).
        destruct H2 as (feed2 & Hrun); [lia | exact Hpoll | ].
        exists feed2. unfold mbind, M_bind. rewrite (Hret k) by lia. rewrite Hrun.
        rewrite <- !app_assoc. reflexivity.
      * intros Hk Hpoll. destruct (Hsome' (k - calls evs)%nat) as (_ & _ & H3).
        unfold mbind, M_bind. rewrite (Hret k) by lia.
        rewrite H3; [ | lia | intros Heq; apply Hpoll; lia].
        rewrite app_assoc.
        replace (k - (calls evs + calls evs'))%nat with (k - calls evs - calls evs')%nat by lia.
        reflexivity.
  - exists (Thrown e), feed1, evs. split.
    + unfold mbind, M_bind. rewrite Hnone. reflexivity.
    + intros k. destruct (Hsome k) as (H1 & H2 & H3). split; [ | split].
      * intros Hk. destruct (H1 Hk) as (feed2 & Hrun).
        exists feed2. unfold mbind, M_bind. rewrite Hrun. reflexivity.
      * discriminate.
      * intros Hk Hpoll. unfold mbind, M_bind. rewrite (H3 Hk); [reflexivity | ].
        intros _. reflexivity.
  - exists StillPolling, feed1, evs. split.
    + unfold mbind, M_bind. rewrite Hnone. reflexivity.
    + intros k. destruct (Hsome k) as (H1 & H2 & H3). split; [ | split].
      * intros Hk. destruct (H1 Hk) as (feed2 & Hrun).
        exists feed2. unfold mbind, M_bind. rewrite Hrun. reflexivity.
      * intros Hk Hpoll. destruct (H2 Hk eq_refl) as (feed2 & Hrun).
        exists feed2. unfold mbind, M_bind. rewrite Hrun. reflexivity.
      * intros Hk Hpoll. unfold mbind, M_bind. rewrite (H3 Hk); [reflexivity | ].
        intros Heq. specialize (Hpoll Heq). discriminate.
Qed.

(** Takes a sequence of binds apart, down to the calls and sleeps. *)
Ltac truncation :=
  repeat first
    [ apply truncates_ret
    | apply truncates_throw
    | apply truncates_sleep
    | apply truncates_read
    | apply truncates_call; reflexivity
    | apply truncates_bind; [ | intros ? ] ].

Variable value : gmap string JS.value.

Lemma truncates_writeAttrFromJson attr jsonAttr converterFunc d :
  truncates (ConfigureJ1.writeAttrFromJson value attr jsonAttr converterFunc d).
Proof.
  unfold ConfigureJ1.writeAttrFromJson, write. cbv zeta.
  destruct (JS.is_defined _); [ | apply truncates_ret].
  destruct d as [s | ]; [destruct (Z.eqb s 0) | ]; truncation.
Qed.

Lemma truncates_poll answers : truncates (ConfigureJ1.poll answers).
Proof.
  induction answers as [ | n IH]; cbn [ConfigureJ1.poll].
  - intros mode feed tr0. exists StillPolling, feed, [].
    rewrite app_nil_r. split; [reflexivity | ].
    intros k. split; [ | split].
    + cbn. lia.
    + intros -> _. exists feed. reflexivity.
    + intros _ Hpoll. destruct k as [ | k]; [specialize (Hpoll eq_refl); discriminate | ].
      reflexivity.
  - apply truncates_bind; [apply truncates_sleep | intros _].
    apply truncates_bind; [apply truncates_read | intros response].
    destruct (negb _); [exact IH | apply truncates_ret].
Qed.

Lemma truncates_waitUntilStopped : truncates ConfigureJ1.waitUntilStopped.
Proof.
  unfold ConfigureJ1.waitUntilStopped.
  apply truncates_bind; [ | intros _; apply truncates_sleep].
  intros mode feed tr0. exact (truncates_poll (length feed) mode feed tr0).
Qed.

Lemma truncates_convertSet : truncates (ConfigureJ1.convertSet value).
Proof.
  unfold ConfigureJ1.convertSet.
  apply truncates_bind; [apply truncates_read | intros response].
  apply truncates_bind.
  { unfold ConfigureJ1.settle, write. destruct (JS.ToBoolean _); truncation. }
  intros _. apply truncates_bind.
  { unfold ConfigureJ1.baseConfig.
    repeat (apply truncates_bind; [apply truncates_writeAttrFromJson | intros ?]).
    apply truncates_ret. }
  intros mode. apply truncates_bind.
  { destruct (ConfigureJ1.hasCalibrate value); [ | apply truncates_ret].
    unfold ConfigureJ1.calibrate, write, command.
    repeat first
      [ apply truncates_waitUntilStopped
      | apply truncates_sleep
      | apply truncates_call; reflexivity
      | apply truncates_bind; [ | intros ? ] ]. }
  intros _. apply truncates_bind.
  { unfold ConfigureJ1.writeAttributes.
    repeat (apply truncates_bind; [apply truncates_writeAttrFromJson | intros ?]).
    apply truncates_ret. }
  intros _. apply truncates_bind.
  { unfold ConfigureJ1.writeConvenience.
    repeat (apply truncates_bind; [apply truncates_writeAttrFromJson | intros ?]).
    apply truncates_ret. }
  intros _. destruct (ConfigureJ1.hasCalibrate value); [ | apply truncates_ret].
  unfold ConfigureJ1.finalize, ConfigureJ1.convertGet, write. truncation.
Qed.

Lemma truncates_setup useWriteStruct m (request : DeviceSetup.request) :
  truncates (DeviceSetup.convertSet useWriteStruct m request).
Proof.
  unfold DeviceSetup.convertSet, DeviceSetup.convertGet, writeArray, write, writeStructured.
  apply truncates_bind.
  { destruct (input_configurations request), useWriteStruct; truncation. }
  intros _. apply truncates_bind.
  { destruct (input_actions request), useWriteStruct; truncation. }
  intros _. apply truncates_bind.
  { destruct (input_action_templates request) as [a | ]; [ | apply truncates_ret].
    destruct (compile m (as_array a)), useWriteStruct; truncation. }
  intros _. truncation.
Qed.

End FailingLink.

(** A device-setup request does no polling. *)
Lemma setup_settles useWriteStruct m request o tr :
  DeviceSetup.run useWriteStruct m request None = (o, tr) -> polling_on o = false.
Proof.
  unfold DeviceSetup.run, DeviceSetup.convertSet, writeArray.
  destruct (input_action_templates request) as [a | ];
    [destruct (compile m (as_array a)) | ];
    destruct (input_configurations request), (input_actions request), useWriteStruct;
    cbn; intros H; inversion H; reflexivity.
Qed.

(** The run of a calibration request on a link that carries [k] calls, when
    the run on a working link returns. *)
Lemma run_on_link value mode statuses k tr :
  ConfigureJ1.run value mode statuses None = (Returned tt, tr) ->
  ConfigureJ1.run value mode statuses (Some k) =
    if (calls tr <=? k)%nat then (Returned tt, tr) else (Thrown TransportError, cut k tr).
Proof.
  unfold ConfigureJ1.run, start.
  destruct (truncates_convertSet value mode statuses []) as (o' & feed1 & evs & Hnone & Hsome).
  rewrite Hnone. cbn [trace app]. intros H. inversion H; subst o' evs.
  destruct (Hsome k) as (Hlt & _ & Hge).
  destruct (Nat.leb_spec (calls tr) k) as [Hk | Hk].
  - rewrite (Hge Hk); reflexivity.
  - destruct (Hlt Hk) as (feed2 & ->). reflexivity.
Qed.

(** X7. A transport failure ends the calibration request where it happens:
    on a link that carries [k] calls, the request does what it does on a
    working link up to its call number [k], sleeps included, and throws the
    transport error at call [k + 1]; no call is made afterwards, and nothing
    already written is undone. When the working run needs no more than [k]
    calls, the run is the same, with one exception: a run that is still
    polling when the recorded answers end, on a link that carries exactly
    its calls, sleeps once more and throws at the read of the next round. *)
Theorem link_failure_cuts_the_request value mode statuses k o tr :
  ConfigureJ1.run value mode statuses None = (o, tr) ->
  ConfigureJ1.run value mode statuses (Some k) =
    if (k <? calls tr)%nat then (Thrown TransportError, cut k tr)
    else if polling_on o && (k =? calls tr)%nat
         then (Thrown TransportError, tr ++ [Sleep 2])
         else (o, tr).
Proof.
  unfold ConfigureJ1.run, start.
  destruct (truncates_convertSet value mode statuses []) as (o' & feed1 & evs & Hnone & Hsome).
  rewrite Hnone. cbn [trace app]. intros H. inversion H; subst o' evs.
  destruct (Hsome k) as (Hlt & Heq & Hge).
  destruct (Nat.ltb_spec k (calls tr)) as [Hk | Hk].
  - destruct (Hlt Hk) as (feed2 & Hcut). rewrite Hcut. reflexivity.
  - destruct (polling_on o) eqn:Hpoll; cbn [andb].
    + destruct (Nat.eqb_spec k (calls tr)) as [Hkeq | Hkne].
      * destruct (Heq Hkeq eq_refl) as (feed2 & Hrun). rewrite Hrun. reflexivity.
      * rewrite Hge; [reflexivity | exact Hk | intros Hkeq; contradiction].
    + rewrite Hge; [reflexivity | exact Hk | intros _; reflexivity].
Qed.

Lemma link_failure_cuts_the_request_witness :
  ConfigureJ1.run (payload [("calibrate"%string, JS.Boolean true)]) 0 [|1|] (Some 3%nat) =
    (Thrown TransportError,
     [Read ConfigureJ1.cluster ["windowCoveringMode"%string] NoOptions;
      Command ConfigureJ1.cluster "upOpen";
      Sleep 2;
      Read ConfigureJ1.cluster ["operationalStatus"%string] NoOptions;
      Sleep 2]).
Proof.
  exact (link_failure_cuts_the_request
           (payload [("calibrate"%string, JS.Boolean true)]) 0 [|1|] 3%nat
           StillPolling
           [Read ConfigureJ1.cluster ["windowCoveringMode"%string] NoOptions;
            Command ConfigureJ1.cluster "upOpen";
            Sleep 2;
            Read ConfigureJ1.cluster ["operationalStatus"%string] NoOptions]
           eq_refl).
Defined.

(** X8. The same for a device-setup request: on a link that carries [k]
    calls it makes the first [k] calls of the run on a working link and
    throws the transport error at the next one; an error of the template
    compiler is thrown only when the link has carried the writes of the raw
    keys before it. *)
Theorem link_failure_cuts_the_setup useWriteStruct m request k o tr :
  DeviceSetup.run useWriteStruct m request None = (o, tr) ->
  DeviceSetup.run useWriteStruct m request (Some k) =
    if (calls tr <=? k)%nat then (o, tr) else (Thrown TransportError, cut k tr).
Proof.
  intros Hrun. pose proof (setup_settles _ _ _ _ _ Hrun) as Hsettles. revert Hrun.
  unfold DeviceSetup.run, start.
  destruct (truncates_setup useWriteStruct m request JS.Undefined [] [])
    as (o' & feed1 & evs & Hnone & Hsome).
  rewrite Hnone. cbn [trace app]. intros H. inversion H; subst o' evs.
  destruct (Hsome k) as (Hlt & _ & Hge).
  destruct (Nat.leb_spec (calls tr) k) as [Hk | Hk].
  - rewrite (Hge Hk); [reflexivity | intros _; exact Hsettles].
  - destruct (Hlt Hk) as (feed2 & ->). reflexivity.
Qed.

Lemma link_failure_cuts_the_setup_witness :
  DeviceSetup.run false (Device "S1")
    (Request (Some [|0; 0|]) (Some [ [|0; 0x0d; 2; 0x06; 0x00; 0x02|] ])
       (Some (OneTemplate (of_type "nonsense")))) (Some 1%nat) =
    (Thrown TransportError,
     [Write DeviceSetup.cluster
        [("inputConfigurations"%string, Envelope DATA8 (Bytes [|0; 0|]))] UbisysNull]).
Proof.
  exact (link_failure_cuts_the_setup false (Device "S1")
           (Request (Some [|0; 0|]) (Some [ [|0; 0x0d; 2; 0x06; 0x00; 0x02|] ])
              (Some (OneTemplate (of_type "nonsense")))) 1%nat _ _ eq_refl).
Defined.

(** ** A failure while calibration is enabled *)

Lemma session_events_split value mode p1 p2 p3 p4 :
  ConfigureJ1.hasCalibrate value = true ->
  session_events value mode p1 p2 p3 p4 =
    enabling_events value mode p1 ++ learning_events value p2 p3 p4 ++ finalize_events mode.
Proof.
  intros Hcal. unfold session_events, enabling_events, learning_events, calibrate_events.
  rewrite Hcal.
  repeat (rewrite <- ?app_assoc, <- ?app_comm_cons; cbn [app]).
  reflexivity.
Qed.

Lemma writes_to_cut_nil a tr :
  writes_to a tr = [] -> forall k, writes_to a (cut k tr) = [].
Proof.
  induction tr as [ | ev tr IH]; intros H k; [reflexivity | ].
  rewrite writes_to_cons in H. apply app_eq_nil in H as [Hev Htr].
  cbn [cut]. destruct (is_call ev).
  - destruct k as [ | k]; [reflexivity | ].
    rewrite writes_to_cons, Hev, (IH Htr). reflexivity.
  - rewrite writes_to_cons, Hev, (IH Htr). reflexivity.
Qed.

Lemma mode_writes_of_learning_events value p2 p3 p4 :
  writes_to "windowCoveringMode" (learning_events value p2 p3 p4) = [].
Proof.
  change (learning_events value p2 p3 p4) with
    ([Sleep 2;
      Command ConfigureJ1.cluster "downClose";
      Sleep 5;
      Command ConfigureJ1.cluster "stop";
      Sleep 2;
      Command ConfigureJ1.cluster "upOpen"] ++ wait_events p2 ++
     [Command ConfigureJ1.cluster "downClose"] ++ wait_events p3 ++
     [Command ConfigureJ1.cluster "upOpen"] ++ wait_events p4 ++
     writeAttributes_events value ++ writeConvenience_events value).
  unfold writeAttributes_events, attribute_names, writeConvenience_events.
  cbn [flat_map].
  rewrite !writes_to_app, !writes_to_wait_events, !writes_to_attr_events.
  reflexivity.
Qed.

Lemma mode_writes_of_enabling_events value mode p1 :
  last (writes_to "windowCoveringMode" (enabling_events value mode p1)) =
    Some (Plain (JS.bit_or mode ConfigureJ1.modeCalibrationBitMask)).
Proof.
  unfold enabling_events.
  rewrite (writes_to_cons _ (Read _ _ _)), !writes_to_app,
    (writes_to_cons _ (Command _ _)), writes_to_app, writes_to_wait_events.
  change (writes_to "windowCoveringMode"
            [Write ConfigureJ1.cluster ConfigureJ1.resetAttributes Ubisys; Sleep 2;
             mode_write (JS.bit_or mode ConfigureJ1.modeCalibrationBitMask)])
    with [Plain (JS.bit_or mode ConfigureJ1.modeCalibrationBitMask)].
  rewrite !app_assoc. apply last_snoc.
Qed.

(** X9. Nothing ends a calibration that the link interrupts. When the link
    fails after the write that enables calibration and no later than the
    write that would end it, the request throws the transport error and the
    last mode it has written is the device's mode with the calibration bit
    set: the device is left in calibration mode. *)
Theorem interrupted_calibration_stays_enabled
    value mode m1 s1 m2 s2 m3 s3 m4 s4 rest k :
  ConfigureJ1.hasCalibrate value = true ->
  Forall moving m1 -> stopped s1 ->
  Forall moving m2 -> stopped s2 ->
  Forall moving m3 -> stopped s3 ->
  Forall moving m4 -> stopped s4 ->
  (calls (enabling_events value mode (S (length m1))) <= k)%nat ->
  (k <= calls (enabling_events value mode (S (length m1))) +
        calls (learning_events value (S (length m2)) (S (length m3)) (S (length m4))))%nat ->
  exists tr,
    ConfigureJ1.run value mode (m1 ++ s1 :: m2 ++ s2 :: m3 ++ s3 :: m4 ++ s4 :: rest)
      (Some k) = (Thrown TransportError, tr) /\
    last (writes_to "windowCoveringMode" tr) =
      Some (Plain (JS.bit_or mode ConfigureJ1.modeCalibrationBitMask)) /\
    calibration_bit (Plain (JS.bit_or mode ConfigureJ1.modeCalibrationBitMask)) = true.
Proof.
  intros Hcal Hm1 Hs1 Hm2 Hs2 Hm3 Hs3 Hm4 Hs4 Hlow Hhigh.
  pose proof (run_with_calibrate value mode m1 s1 m2 s2 m3 s3 m4 s4 rest Hcal
                Hm1 Hs1 Hm2 Hs2 Hm3 Hs3 Hm4 Hs4) as Hrun.
  rewrite (session_events_split _ _ _ _ _ _ Hcal) in Hrun.
  set (enabling := enabling_events value mode (S (length m1))) in *.
  set (learning :=
         learning_events value (S (length m2)) (S (length m3)) (S (length m4))) in *.
  assert (calls (finalize_events mode) = 4%nat) as Hfin by reflexivity.
  eexists. split; [ | split].
  - rewrite (run_on_link _ _ _ k _ Hrun).
    rewrite !calls_app, Hfin.
    destruct (Nat.leb_spec (calls enabling + (calls learning + 4)) k) as [Hk | Hk]; [lia | ].
    reflexivity.
  - rewrite cut_app_ge by exact Hlow.
    rewrite writes_to_app.
    assert (writes_to "windowCoveringMode"
              (cut (k - calls enabling) (learning ++ finalize_events mode)) = []) as ->.
    { destruct (le_lt_dec (calls learning) (k - calls enabling)) as [Hle | Hlt].
      - rewrite cut_app_ge by exact Hle.
        replace (k - calls enabling - calls learning)%nat with O by lia.
        rewrite writes_to_app.
        unfold learning. rewrite mode_writes_of_learning_events. reflexivity.
      - rewrite cut_app_lt by exact Hlt.
        apply writes_to_cut_nil. apply mode_writes_of_learning_events. }
    rewrite app_nil_r. apply mode_writes_of_enabling_events.
  - apply calibration_bit_set.
Qed.

Lemma interrupted_calibration_stays_enabled_witness :
  exists tr,
    ConfigureJ1.run (payload [("calibrate"%string, JS.Boolean true)]) 1 [|1; 0; 0; 0; 0|]
      (Some 9%nat) = (Thrown TransportError, tr) /\
    last (writes_to "windowCoveringMode" tr) = Some (Plain 3).
Proof.
  assert (stopped 0) as H0 by reflexivity.
  assert (moving 1) as H1 by reflexivity.
  destruct (interrupted_calibration_stays_enabled
              (payload [("calibrate"%string, JS.Boolean true)]) 1
              [|1|] 0 [] 0 [] 0 [] 0 [] 9 eq_refl
              (List.Forall_cons _ _ _ H1 (List.Forall_nil _)) H0
              (List.Forall_nil _) H0 (List.Forall_nil _) H0 (List.Forall_nil _) H0)
    as (tr & Hrun & Hlast & _).
  - vm_compute. lia.
  - vm_compute. lia.
  - exists tr. split; [exact Hrun | exact Hlast].
Defined.


(* ===================================================================== *)
(** * Further properties of the template compiler *)
(* ===================================================================== *)

(** ** Lists of templates that grow *)

Lemma step_extends model c t c' :
  step model c t = inr c' ->
  exists extra, resultingInputActions c' = resultingInputActions c ++ extra.
Proof.
  unfold step. destruct (expand model c t) as [e | [u g]]; [discriminate | ].
  intros H. inversion H; subst. cbn. eauto.
Qed.

Lemma loop_extends model ts : forall c c',
  loop model c ts = inr c' ->
  exists extra, resultingInputActions c' = resultingInputActions c ++ extra.
Proof.
  induction ts as [ | t ts IH]; intros c c' H; cbn in H.
  - inversion H; subst. exists []. rewrite app_nil_r. reflexivity.
  - destruct (step model c t) as [e | c1] eqn:E; [discriminate | ].
    destruct (step_extends _ _ _ _ E) as (x1 & H1).
    destruct (IH _ _ H) as (x2 & H2).
    exists (x1 ++ x2). rewrite H2, H1, app_assoc. reflexivity.
Qed.

Lemma loop_app_error model pre : forall c e post,
  loop model c pre = inl e -> loop model c (pre ++ post) = inl e.
Proof.
  induction pre as [ | t pre IH]; intros c e post H; cbn in *.
  - discriminate.
  - destruct (step model c t); [exact H | eauto].
Qed.

(** X10. Templates appended to a list change nothing of what the list gave
    before: an error of the shorter list is the error of the longer one, and
    when the longer list compiles, so does the shorter one, and its rows are
    the first rows of the longer list's, in the same order. *)
Theorem appended_templates_keep_earlier_rows m ts more :
  (forall e, compile m ts = inl e -> compile m (ts ++ more) = inl e) /\
  (forall rows', compile m (ts ++ more) = inr rows' ->
     exists rows, compile m ts = inr rows /\ rows `prefix_of` rows').
Proof.
  destruct m as [ | model]; cbn [compile].
  - split; [auto | discriminate].
  - destruct (loop model (initial model) ts) as [e | c1] eqn:E.
    + rewrite (loop_app_error _ _ _ _ more E). split; [auto | discriminate].
    + rewrite (loop_app _ _ _ _ more E). split; [discriminate | ].
      intros rows' H.
      destruct (loop model c1 more) as [e | c2] eqn:E2; [discriminate | ].
      inversion H; subst.
      destruct (loop_extends _ _ _ _ E2) as (extra & ->).
      exists (resultingInputActions c1). split; [reflexivity | ].
      exists extra. reflexivity.
Qed.

Lemma appended_templates_keep_earlier_rows_witness :
  exists rows,
    compile (Device "S2") [of_type "toggle"] = inr rows /\
    rows `prefix_of`
      [ [|0; 0x0d; 3; 0x06; 0x00; 0x02|];
        [|1; 0x0d; 4; 0x06; 0x00; 0x01|] ].
Proof.
  exact (proj2 (appended_templates_keep_earlier_rows (Device "S2")
                  [of_type "toggle"] [of_type "on"]) _ eq_refl).
Defined.

(** ** Templates that leave input and endpoint to the compiler *)

Lemma expand_plain model i e g rows t :
  plain model t = true ->
  exists u,
    expand model (Cursor (JS.of_Z i) (JS.of_Z e) g rows) t = inr (u, g) /\
    used_input u = One (JS.of_Z i) /\ used_endpoint u = JS.of_Z e.
Proof.
  unfold plain, expand. intros H.
  apply andb_prop in H as [H Hty]. apply andb_prop in H as [Hin Hep].
  apply negb_true_iff in Hin, Hep.
  destruct (lookup_key (type t) templateTypes) as [[cv f | f f2 | cv f] | ];
    try discriminate.
  apply negb_true_iff in Hty.
  rewrite Hin, Hep. cbn [cover cur_input cur_endpoint cur_groupId]. rewrite Hty.
  cbn [andb]. eexists. split; [reflexivity | ]. split; reflexivity.
Qed.

Lemma loop_plain model g ts : forall i e rows,
  forallb (plain model) ts = true ->
  - 2 ^ 53 <= i -> i + Z.of_nat (length ts) <= 2 ^ 53 ->
  - 2 ^ 53 <= e -> e + Z.of_nat (length ts) <= 2 ^ 53 ->
  exists rows',
    loop model (Cursor (JS.of_Z i) (JS.of_Z e) g rows) ts =
      inr (Cursor (JS.of_Z (i + Z.of_nat (length ts))) (JS.of_Z (e + Z.of_nat (length ts)))
             g rows').
Proof.
  induction ts as [ | t ts IH]; intros i e rows H Hi1 Hi2 He1 He2.
  - exists rows. cbn. rewrite !Z.add_0_r. reflexivity.
  - cbn [forallb] in H. apply andb_prop in H as [Ht Hts].
    cbn [length] in Hi2, He2.
    destruct (expand_plain model i e g rows t Ht) as (u & Hu & Hi & He).
    cbn [loop]. unfold step. rewrite Hu. unfold advance. rewrite Hi, He.
    cbn [highest resultingInputActions].
    change (1 : JS.value) with (JS.of_Z 1). rewrite !add_of_Z by lia.
    destruct (IH (i + 1) (e + 1) (rows ++ inputActions u) Hts) as (rows' & ->); try lia.
    exists rows'.
    replace (i + Z.of_nat (length (t :: ts))) with (i + 1 + Z.of_nat (length ts))
      by (cbn [length]; lia).
    replace (e + Z.of_nat (length (t :: ts))) with (e + 1 + Z.of_nat (length ts))
      by (cbn [length]; lia).
    reflexivity.
Qed.

(** X11. Templates that leave input and endpoint to the compiler are
    numbered in the order of the list: after [n] templates of single-input
    families that name neither (none of them a cover on a C4), started at
    input [i] and endpoint [e], the next such template uses input [i + n]
    and endpoint [e + n], and every row it emits carries exactly these. The
    numbers are whole and stay within [2 ^ 53] in magnitude, the range in
    which a double counts without rounding. *)
Theorem plain_templates_count_up model i e g rows pre t :
  forallb (plain model) pre = true ->
  plain model t = true ->
  - 2 ^ 53 <= i -> i + Z.of_nat (length pre) <= 2 ^ 53 ->
  - 2 ^ 53 <= e -> e + Z.of_nat (length pre) <= 2 ^ 53 ->
  exists c1 u,
    loop model (Cursor (JS.of_Z i) (JS.of_Z e) g rows) pre = inr c1 /\
    expand model c1 t = inr (u, g) /\
    Forall (fun tuple =>
              JS.index tuple 0 = JS.of_Z (i + Z.of_nat (length pre)) /\
              JS.index tuple 2 = JS.of_Z (e + Z.of_nat (length pre)))
      (inputActions u).
Proof.
  intros Hpre Ht Hi1 Hi2 He1 He2.
  destruct (loop_plain model g pre i e rows Hpre Hi1 Hi2 He1 He2) as (rows' & Hloop).
  destruct (expand_plain model (i + Z.of_nat (length pre)) (e + Z.of_nat (length pre))
              g rows' t Ht) as (u & Hu & Hi & He).
  eexists _, u. split; [exact Hloop | ]. split; [exact Hu | ].
  pose proof (expand_tuples_input _ _ _ _ _ Hu) as Hin.
  pose proof (expand_tuples_endpoint _ _ _ _ _ Hu) as Hep.
  rewrite Hi in Hin. rewrite He in Hep.
  exact (List.Forall_and Hin Hep).
Qed.

Lemma plain_templates_count_up_witness :
  exists c1 u,
    loop "S2" (initial "S2") [of_type "toggle"; of_type "dimmer_single"] = inr c1 /\
    expand "S2" c1 (of_type "on_off_switch") = inr (u, JS.of_Z 0) /\
    Forall (fun tuple => JS.index tuple 0 = JS.of_Z 2 /\ JS.index tuple 2 = JS.of_Z 5)
      (inputActions u).
Proof.
  refine (plain_templates_count_up "S2" 0 3 (JS.of_Z 0) []
            [of_type "toggle"; of_type "dimmer_single"] (of_type "on_off_switch")
            eq_refl eq_refl _ _ _ _); cbn; lia.
Defined.

(** ** The bytes of a group id *)

Lemma wrap32_small z : - 2 ^ 31 <= z < 2 ^ 31 -> JS.wrap32 z = z.
Proof.
  intros H. unfold JS.wrap32. rewrite Z.mod_small by lia. lia.
Qed.

Lemma bit_and_low_byte g :
  0 <= g < 2 ^ 31 -> JS.bit_and (JS.of_Z g) 0xff = JS.of_Z (g mod 256).
Proof.
  intros Hg. unfold JS.bit_and. rewrite ToInt32_of_Z, (wrap32_small g) by lia.
  change (JS.ToInt32 0xff) with (Z.ones 8).
  rewrite Z.land_ones by lia. change (2 ^ 8) with 256.
  rewrite wrap32_small; [reflexivity | ].
  pose proof (Z.mod_pos_bound g 256). lia.
Qed.

Lemma shr_high_byte g :
  0 <= g < 2 ^ 31 -> JS.shr (JS.of_Z g) 8 = JS.of_Z (g / 256).
Proof.
  intros Hg. unfold JS.shr. rewrite ToInt32_of_Z, (wrap32_small g) by lia.
  change (JS.ToInt32 8 mod 32) with 8.
  rewrite Z.shiftr_div_pow2 by lia. change (2 ^ 8) with 256.
  rewrite wrap32_small; [reflexivity | ].
  assert (0 <= g / 256) by (apply Z.div_pos; lia).
  assert (g / 256 <= g) by (apply Z.div_le_upper_bound; lia).
  lia.
Qed.

(** X12. A scene template that names its group, a whole number [g] from 0
    to below 2^31, puts the group into its first row as two entries after
    the command: [g mod 256] in seventh place and [g / 256] in eighth, so
    that the first plus 256 times the second is [g]. The second entry is not
    masked to a byte: it stays below 256 exactly for [g] below 65536. *)
Theorem group_id_is_split_in_two model c t g u g' :
  is_scene_type t ->
  group_id t = JS.of_Z g ->
  0 <= g < 2 ^ 31 ->
  expand model c t = inr (u, g') ->
  exists tuple others,
    inputActions u = tuple :: others /\
    JS.index tuple 6 = JS.of_Z (g mod 256) /\
    JS.index tuple 7 = JS.of_Z (g / 256) /\
    g = g mod 256 + 256 * (g / 256) /\
    (g / 256 < 256 <-> g < 65536).
Proof.
  intros Hscene Hgroup Hg.
  assert (g = g mod 256 + 256 * (g / 256) /\ (g / 256 < 256 <-> g < 65536)) as Harith.
  { pose proof (Z.div_mod g 256 ltac:(lia)). pose proof (Z.mod_pos_bound g 256 ltac:(lia)).
    split; [lia | ]. split; intros H'.
    - nia.
    - apply Z.div_lt_upper_bound; lia. }
  unfold expand.
  destruct (scene_lookup t Hscene) as [-> | ->]; unfold scene_, scene_switch;
    rewrite Hgroup; cbn [JS.is_defined JS.of_Z];
    (destruct (JS.is_defined (scene_id t)); cbn [negb]; [ | discriminate]);
    (destruct (JS.is_defined (scene_id_2 t)); intros H; inversion H; subst;
       cbn [inputActions app];
       eexists _, _; (split; [reflexivity | ]);
       cbn [JS.index nth];
       fold (JS.of_Z g);
       rewrite (bit_and_low_byte g Hg), (shr_high_byte g Hg);
       (split; [reflexivity | ]); (split; [reflexivity | ]); exact Harith).
Qed.

Lemma group_id_is_split_in_two_witness :
  exists tuple others,
    inputActions
      (Used (One 0) 2
         [ [|0; 0x07; 2; 0x05; 0x00; 0x05; JS.bit_and 0x1234 0xff; JS.shr 0x1234 8; 9|] ]) =
      tuple :: others /\
    JS.index tuple 6 = JS.of_Z 0x34 /\
    JS.index tuple 7 = JS.of_Z 0x12.
Proof.
  destruct (group_id_is_split_in_two "S1" (initial "S1")
              (scene_template "scene" 0x1234 JS.Undefined 9 JS.Undefined) 0x1234
              _ _ (or_introl eq_refl) eq_refl ltac:(lia) eq_refl)
    as (tuple & others & Hrows & H6 & H7 & _).
  exists tuple, others. split; [exact Hrows | ]. split; [exact H6 | exact H7].
Defined.

(** ** The two kinds of write *)

(** X13. The firmware version changes the form of the writes of the array
    attributes and nothing else: with [useWriteStruct] a request ends as it
    does without, on every link, and its trace is the same call for call,
    each write of an array attribute replaced by the structured write of the
    same attribute, element type and elements. *)
Theorem write_struct_changes_only_the_form m request l :
  DeviceSetup.run true m request l =
    let (o, tr) := DeviceSetup.run false m request l in (o, map structured tr).
Proof.
  unfold DeviceSetup.run, DeviceSetup.convertSet, writeArray.
  destruct (input_action_templates request) as [a | ];
    [destruct (compile m (as_array a)) | ];
    destruct (input_configurations request), (input_actions request),
      l as [[ | [ | [ | [ | [ | k]]]]] | ]; reflexivity.
Qed.

(** ** Raw actions and templates in one request *)

Lemma arrays_written_to_app a tr1 tr2 :
  arrays_written_to a (tr1 ++ tr2) = arrays_written_to a tr1 ++ arrays_written_to a tr2.
Proof. unfold arrays_written_to. apply flat_map_app. Qed.

(** X14. When a request carries both [input_actions] and
    [input_action_templates] and the templates compile, both are written to
    [inputActions] on a working link, the raw rows first and the compiled
    rows after them: what the device keeps is what the templates gave, and
    the raw rows of the request are overwritten. *)
Theorem templates_overwrite_raw_actions useWriteStruct m request raw a rows :
  input_actions request = Some raw ->
  input_action_templates request = Some a ->
  compile m (as_array a) = inr rows ->
  exists tr,
    DeviceSetup.run useWriteStruct m request None = (Returned tt, tr) /\
    arrays_written_to "inputActions" tr = [Rows raw; Rows rows].
Proof.
  intros Hraw Ha Hc. eexists. split.
  - exact (convertSet_compiled useWriteStruct m request a rows Ha Hc).
  - unfold raw_writes. rewrite Hraw, !arrays_written_to_app.
    destruct (input_configurations request), useWriteStruct; reflexivity.
Qed.

Lemma templates_overwrite_raw_actions_witness :
  exists tr,
    DeviceSetup.run false (Device "S1")
      (Request None (Some [ [|0; 0x0d; 2; 0x06; 0x00; 0x00|] ])
         (Some (OneTemplate (of_type "toggle")))) None = (Returned tt, tr) /\
    arrays_written_to "inputActions" tr =
      [Rows [ [|0; 0x0d; 2; 0x06; 0x00; 0x00|] ];
       Rows [ [|0; 0x0d; 2; 0x06; 0x00; 0x02|] ]].
Proof.
  exact (templates_overwrite_raw_actions false (Device "S1")
           (Request None (Some [ [|0; 0x0d; 2; 0x06; 0x00; 0x00|] ])
              (Some (OneTemplate (of_type "toggle"))))
           _ _ _ eq_refl eq_refl eq_refl).
Defined.

(* ===================================================================== *)
(** * The reports of the dimmer setup cluster *)
(* ===================================================================== *)

Lemma land_pow2 x n :
  0 <= n -> Z.land x (2 ^ n) = if Z.testbit x n then 2 ^ n else 0.
Proof.
  intros Hn. apply Z.bits_inj'. intros i Hi.
  rewrite Z.land_spec, Z.pow2_bits_eqb by lia.
  destruct (Z.eqb_spec n i) as [-> | Hne].
  - destruct (Z.testbit x i); [rewrite Z.pow2_bits_true by lia | rewrite Z.bits_0];
      reflexivity.
  - rewrite andb_false_r.
    destruct (Z.testbit x n); [rewrite Z.pow2_bits_false by lia | rewrite Z.bits_0];
      reflexivity.
Qed.

Lemma bit_and_pow2 c n :
  0 <= n < 31 ->
  JS.bit_and (JS.of_Z c) (JS.of_Z (2 ^ n)) = JS.of_Z (if Z.testbit c n then 2 ^ n else 0).
Proof.
  intros Hn. unfold JS.bit_and. rewrite !ToInt32_of_Z.
  assert (0 < 2 ^ n < 2 ^ 31) as Hpow.
  { split; [apply Z.pow_pos_nonneg; lia | apply Z.pow_lt_mono_r; lia]. }
  rewrite (wrap32_small (2 ^ n)) by lia.
  rewrite land_pow2, wrap32_testbit by lia.
  destruct (Z.testbit c n); rewrite wrap32_small by lia; reflexivity.
Qed.

(** Rewrites the masks of the source into powers of two and the masked
    values into tests of the bits. *)
Ltac read_bits c :=
  change (JS.of_Z 1) with (JS.of_Z (2 ^ 0)) at 1;
  change (JS.of_Z 2) with (JS.of_Z (2 ^ 1)) at 1;
  change (JS.of_Z 8) with (JS.of_Z (2 ^ 3));
  change (JS.of_Z 0x20) with (JS.of_Z (2 ^ 5));
  change (JS.of_Z 0x40) with (JS.of_Z (2 ^ 6));
  change (JS.of_Z 0x80) with (JS.of_Z (2 ^ 7));
  rewrite ?(bit_and_pow2 c 0), ?(bit_and_pow2 c 1), ?(bit_and_pow2 c 3),
    ?(bit_and_pow2 c 5), ?(bit_and_pow2 c 6), ?(bit_and_pow2 c 7) by lia.

(** X15. A report that carries [capabilities] publishes the five capability
    flags and nothing else, whatever else the message carries: each flag is
    one bit of the value (bits 0, 1, 5, 6 and 7, in the order forward phase
    control, reverse phase control, reactance discriminator, configurable
    curve, overload detection), and no other bit of the value plays a
    part. *)
Theorem capabilities_flags_are_bits (c : Z) status mode :
  DimmerSetup.convert (DimmerSetup.Data (JS.of_Z c) status mode) =
    DimmerSetup.PublishCapabilities
      (DimmerSetup.CapabilitiesFlags
         (Z.testbit c 0) (Z.testbit c 1) (Z.testbit c 5) (Z.testbit c 6) (Z.testbit c 7)).
Proof.
  unfold DimmerSetup.convert.
  cbn [DimmerSetup.capabilities JS.is_defined JS.of_Z]. fold (JS.of_Z c). cbv zeta.
  read_bits c.
  destruct (Z.testbit c 0), (Z.testbit c 1), (Z.testbit c 5), (Z.testbit c 6),
    (Z.testbit c 7); reflexivity.
Qed.

(** X16. A report without [capabilities] that carries [status] publishes the
    five status flags, whatever [mode] it carries: each flag is one bit of
    the value (bits 0, 1, 3, 6 and 7, in the order forward phase control,
    reverse phase control, overload, capacitive load, inductive load). *)
Theorem status_flags_are_bits (s : Z) mode :
  DimmerSetup.convert (DimmerSetup.Data JS.Undefined (JS.of_Z s) mode) =
    DimmerSetup.PublishStatus
      (DimmerSetup.StatusFlags
         (Z.testbit s 0) (Z.testbit s 1) (Z.testbit s 3) (Z.testbit s 6) (Z.testbit s 7)).
Proof.
  unfold DimmerSetup.convert.
  cbn [DimmerSetup.capabilities DimmerSetup.status JS.is_defined JS.of_Z].
  fold (JS.of_Z s). cbv zeta.
  read_bits s.
  destruct (Z.testbit s 0), (Z.testbit s 1), (Z.testbit s 3), (Z.testbit s 6),
    (Z.testbit s 7); reflexivity.
Qed.

Lemma bit_and_3 m : JS.bit_and (JS.of_Z m) 3 = JS.of_Z (m mod 4).
Proof.
  unfold JS.bit_and. rewrite ToInt32_of_Z.
  change (JS.ToInt32 3) with (Z.ones 2). rewrite Z.land_ones by lia.
  assert (JS.wrap32 m mod 2 ^ 2 = m mod 2 ^ 2) as ->.
  { apply Z.bits_inj'. intros i Hi. rewrite !Z.testbit_mod_pow2 by lia.
    destruct (Z.ltb_spec i 2); cbn [andb]; [apply wrap32_testbit; lia | reflexivity]. }
  change (2 ^ 2) with 4.
  rewrite wrap32_small; [reflexivity | ].
  pose proof (Z.mod_pos_bound m 4). lia.
Qed.

(** X17. A report that carries only [mode] is read by the two low bits of
    the value: 0 publishes "automatic", 1 "forward", 2 "reverse", and with
    both bits set the table of phase controls has no entry, so that the
    lookup throws and nothing is published. No other bit of the value plays
    a part. *)
Theorem mode_is_looked_up_by_two_bits (m : Z) :
  DimmerSetup.convert (DimmerSetup.Data JS.Undefined JS.Undefined (JS.of_Z m)) =
    match m mod 4 with
    | 0 => DimmerSetup.PublishMode "automatic"
    | 1 => DimmerSetup.PublishMode "forward"
    | 2 => DimmerSetup.PublishMode "reverse"
    | _ => DimmerSetup.LookupThrows (JS.of_Z 3)
    end.
Proof.
  unfold DimmerSetup.convert.
  cbn [DimmerSetup.capabilities DimmerSetup.status DimmerSetup.mode JS.is_defined JS.of_Z].
  fold (JS.of_Z m). cbv zeta. rewrite bit_and_3.
  pose proof (Z.mod_pos_bound m 4 ltac:(lia)) as Hm.
  assert (m mod 4 = 0 \/ m mod 4 = 1 \/ m mod 4 = 2 \/ m mod 4 = 3) as Hcase by lia.
  destruct Hcase as [-> | [-> | [-> | ->]]]; reflexivity.
Qed.
